(** * qiskit-ibm-runtime: the runtime job handle and the backend configuration model

    A shallow embedding of

    - [qiskit_ibm_runtime/runtime_job_v2.py] ([RuntimeJobV2]: status mapping,
      polling wait, result retrieval, cancellation),
    - [qiskit_ibm_runtime/models/backend_configuration.py] ([GateConfig],
      [UchannelLO], [QasmBackendConfiguration], [PulseBackendConfiguration]),
      and
    - the requests built by [qiskit_ibm_runtime/api/rest/runtime.py] and
      [qiskit_ibm_runtime/api/rest/root.py],

    with the properties of the specification stated and proved over it,
    followed by further properties read off the code.

    Python objects are records, dictionaries are [gmap string _] (or
    association lists where the iteration order matters), exceptions are
    values of [exn], Python floats are binary64 primitive floats, and the
    job's interaction with the api client and the clock is explicit state
    passing over a [Machine]. *)

From Stdlib Require Import ZArith QArith Lqa Lia.
From Stdlib Require Import Strings.String Strings.Ascii.
From Stdlib Require Import Floats.PrimFloat Floats.SpecFloat Floats.FloatOps.
From stdpp Require Import gmap strings list fin_maps.

Set Warnings "-inexact-float,-register-all".
Local Open Scope string_scope.

(** ** Python values and exceptions *)

(** JSON-like Python values: what the wire dictionaries and decoded results
    are made of. *)
Inductive value : Type :=
| VNone
| VBool (b : bool)
| VInt (z : Z)
| VFloat (f : float)
| VStr (s : string)
| VList (l : list value)
| VDict (d : list (string * value))
| VObj (cls : string) (fields : list (string * value)).

#[global] Instance value_inhabited : Inhabited value := populate VNone.

(** The typed channel references of [qiskit.pulse.channels]. *)
Inductive Channel : Type :=
| DriveChannel (index : Z)
| ControlChannel (index : Z)
| MeasureChannel (index : Z)
| AcquireChannel (index : Z).

(** What a [BackendConfigurationError] says, with the values its message
    is formatted from. *)
Inductive ConfigurationFault : Type :=
| InvalidIndex (qubit : Z)
| ControlChannelNotFound (qubits : list Z) (n_qubits : value)
| ChannelNotFound (channel : Channel)
| NoChannelInformation (backend_name : value)
| InvalidChannelName (channel : string).

(** The exceptions of the two modules (and the built-in ones they let
    escape). [RuntimeJobTimeoutError] carries the timeout it was raised for
    in place of the formatted message. *)
Inductive exn : Type :=
| RuntimeJobFailureError (msg : string)
| RuntimeJobMaxTimeoutError (msg : option string)
| RuntimeInvalidStateError (msg : string)
| RuntimeJobTimeoutError (timeout : option Q)
| IBMRuntimeError (msg : string)
| RequestsApiError (status_code : Z) (msg : string)
| FuturesTimeoutError
| DecodeError (msg : string)
| BackendConfigurationError (fault : ConfigurationFault)
| QiskitError (msg : string)
| KeyError (key : string)
| TypeError (msg : string)
| ValueError (msg : string)
| OverflowError (msg : string)
| AttributeError (msg : string).

(** [str(x)] for an optional string: [None] prints as ["None"]. *)
Definition py_str (o : option string) : string :=
  match o with Some s => s | None => "None" end.

(** Truthiness of an optional string: [None] and [""] are falsy. *)
Definition truthy_str (o : option string) : bool :=
  match o with
  | Some s => negb (String.eqb s "")
  | None => false
  end.

(** [str.upper()] on the ASCII range (bytes above 127 are left alone). *)
Definition upper_ascii (c : ascii) : ascii :=
  let n := nat_of_ascii c in
  if (97 <=? n)%nat && (n <=? 122)%nat then ascii_of_nat (n - 32) else c.

Fixpoint upper (s : string) : string :=
  match s with
  | EmptyString => EmptyString
  | String c s' => String (upper_ascii c) (upper s')
  end.

Module RuntimeJob.

(** ** The api client and the world the job runs in *)

(** The part of a job response the job reads: [response["state"]]. *)
Record Response : Type := {
  state_status : string;
  state_reason : option string;
  state_reason_code : option Z;
}.

(** A [RequestsApiError]: the way a call of the api client fails. *)
Record ApiError : Type := {
  status_code : Z;
  message : string;
}.

Definition exn_of_api_error (e : ApiError) : exn :=
  RequestsApiError (status_code e) (message e).

(** A status round trip can also end in [futures.TimeoutError], which
    [wait_for_final_state] catches. *)
Inductive ApiFailure : Type :=
| ApiFailed (e : ApiError)
| ApiFuturesTimeout.

Definition exn_of_failure (f : ApiFailure) : exn :=
  match f with
  | ApiFailed e => exn_of_api_error e
  | ApiFuturesTimeout => FuturesTimeoutError
  end.

(** The api client, as a script of what the service answers: the [n]-th
    status round trip (counted from 0) gets [job_get n] after
    [job_get_latency n] seconds. *)
Record RuntimeClient : Type := {
  job_get : nat -> Response + ApiFailure;
  job_get_latency : nat -> Q;
  job_results : option string + ApiError;
  job_cancel : unit + ApiError;
}.

(** A result decoder class: [decode] returns a value or fails. *)
Definition ResultDecoder : Type := string -> value + string.

(** The mutable fields of a [RuntimeJobV2] the modelled methods touch. *)
Record Job : Type := {
  job_id : string;
  _status : string;
  _reason : option string;
  _reason_code : option Z;
  _error_message : option string;
  _final_result_decoder : ResultDecoder;
}.

Definition set_status (st : string) (j : Job) : Job :=
  {| job_id := job_id j; _status := st; _reason := _reason j;
     _reason_code := _reason_code j; _error_message := _error_message j;
     _final_result_decoder := _final_result_decoder j |}.

Definition set_error_message (e : option string) (j : Job) : Job :=
  {| job_id := job_id j; _status := _status j; _reason := _reason j;
     _reason_code := _reason_code j; _error_message := e;
     _final_result_decoder := _final_result_decoder j |}.

Definition set_reason (r : option string) (c : option Z) (j : Job) : Job :=
  {| job_id := job_id j; _status := _status j; _reason := r;
     _reason_code := c; _error_message := _error_message j;
     _final_result_decoder := _final_result_decoder j |}.

(** What the job does to the outside, newest first. *)
Inductive event : Type :=
| EvJobGet
| EvSleep (seconds : Q)
| EvJobResults
| EvJobCancel
| EvDecode (raw : string).

Record Machine : Type := {
  self : Job;
  api : RuntimeClient;
  now : Q;
  trace : list event;
}.

Definition with_self (j : Job) (m : Machine) : Machine :=
  {| self := j; api := api m; now := now m; trace := trace m |}.

Definition tick (d : Q) (ev : event) (m : Machine) : Machine :=
  {| self := self m; api := api m; now := (now m + d)%Q; trace := ev :: trace m |}.

Definition is_job_get (ev : event) : bool :=
  match ev with EvJobGet => true | _ => false end.

(** Number of status round trips made so far. *)
Definition polls (m : Machine) : nat :=
  length (List.filter is_job_get (trace m)).

(** ** A state-and-exception monad with fuel *)

Inductive run (A : Type) : Type :=
| Returns (a : A) (m : Machine)
| Raises (e : exn) (m : Machine)
| Diverges.
Arguments Returns {A} a m.
Arguments Raises {A} e m.
Arguments Diverges {A}.

Definition M (A : Type) : Type := Machine -> run A.

Definition ret {A} (a : A) : M A := fun m => Returns a m.
Definition raise {A} (e : exn) : M A := fun m => Raises e m.
Definition bind {A B} (c : M A) (k : A -> M B) : M B :=
  fun m =>
    match c m with
    | Returns a m' => k a m'
    | Raises e m' => Raises e m'
    | Diverges => Diverges
    end.
Definition get_self : M Job := fun m => Returns (self m) m.
Definition put_self (j : Job) : M unit := fun m => Returns tt (with_self j m).

Notation "'let*' x := c 'in' k" := (bind c (fun x => k))
  (at level 10, x name, c at level 100, k at level 200).
Notation "c ;; k" := (bind c (fun _ => k))
  (at level 100, k at level 200, right associativity).

(** [time.time()] and [time.sleep(d)]. *)
Definition time_time : M Q := fun m => Returns (now m) m.
Definition time_sleep (d : Q) : M unit := fun m => Returns tt (tick d (EvSleep d) m).

(** [self._api_client.job_get(...)]: one status round trip. *)
Definition api_job_get : M Response :=
  fun m =>
    let n := polls m in
    let m' := tick (job_get_latency (api m) n) EvJobGet m in
    match job_get (api m) n with
    | inl r => Returns r m'
    | inr f => Raises (exn_of_failure f) m'
    end.

(** [self._api_client.job_results(...)]. *)
Definition api_job_results : M (option string) :=
  fun m =>
    let m' := tick 0 EvJobResults m in
    match job_results (api m) with
    | inl r => Returns r m'
    | inr e => Raises (exn_of_api_error e) m'
    end.

(** [self._api_client.job_cancel(...)]. *)
Definition api_job_cancel : M unit :=
  fun m =>
    let m' := tick 0 EvJobCancel m in
    match job_cancel (api m) with
    | inl _ => Returns tt m'
    | inr e => Raises (exn_of_api_error e) m'
    end.

(** [_decoder.decode(raw)]. *)
Definition decode (d : ResultDecoder) (raw : string) : M value :=
  fun m =>
    let m' := tick 0 (EvDecode raw) m in
    match d raw with
    | inl v => Returns v m'
    | inr msg => Raises (DecodeError msg) m'
    end.

(** ** Status mapping *)

Definition API_TO_JOB_STATUS : gmap string string :=
  <["QUEUED" := "QUEUED"]>
  (<["RUNNING" := "RUNNING"]>
  (<["COMPLETED" := "DONE"]>
  (<["FAILED" := "ERROR"]>
  (<["CANCELLED" := "CANCELLED"]> ∅)))).

Definition JOB_FINAL_STATES : list string := ["DONE"; "CANCELLED"; "ERROR"].

Definition in_final_states (st : string) : bool :=
  existsb (String.eqb st) JOB_FINAL_STATES.

(** [self._reason_code == 1305]. *)
Definition is_max_time (reason_code : option Z) : bool :=
  match reason_code with
  | Some c => (c =? 1305)%Z
  | None => false
  end.

(** [RuntimeJobV2._status_from_job_response]. *)
Definition _status_from_job_response (j : Job) (response : Response) : string :=
  let api_status := upper (state_status response) in
  match API_TO_JOB_STATUS !! api_status with
  | Some mapped_job_status =>
      if String.eqb mapped_job_status "CANCELLED" && is_max_time (_reason_code j)
      then "ERROR"
      else mapped_job_status
  | None => api_status
  end.

(** ** Status refresh *)

(** Modelled from the spec: [BaseRuntimeJob._set_status_and_error_message]
    lives in [base_runtime_job.py], which is not among the sources.  The
    specification says that a terminal status is cached for ever (no round
    trip), that otherwise [status()] makes exactly one round trip to the
    status endpoint, maps the reported state through
    [_status_from_job_response], and sets status and error fields together.
    The reason and reason code reported with the state are recorded before
    the mapping (the mapping reads the recorded code); the error message is
    kept only for an [ERROR] status. *)
Definition refresh (response : Response) (j : Job) : Job :=
  let j1 :=
    match state_reason response with
    | Some reason => set_reason (Some reason) (state_reason_code response) j
    | None => j
    end in
  let st := _status_from_job_response j1 response in
  let msg := if String.eqb st "ERROR" then state_reason response else None in
  set_error_message msg (set_status st j1).

(** Modelled from the spec: the guard and the single round trip of
    [BaseRuntimeJob._set_status_and_error_message] (see [refresh]). *)
Definition _set_status_and_error_message : M unit :=
  let* j := get_self in
  if in_final_states (_status j) then ret tt
  else
    let* response := api_job_get in
    put_self (refresh response j).

(** [RuntimeJobV2.status]. *)
Definition status : M string :=
  _set_status_and_error_message ;;
  let* j := get_self in
  ret (_status j).

(** [RuntimeJobV2.cancelled], [done], [errored], [in_final_state]. *)
Definition cancelled : M bool :=
  let* st := status in ret (String.eqb st "CANCELLED").

Definition done : M bool :=
  let* st := status in ret (String.eqb st "DONE").

Definition errored : M bool :=
  let* st := status in ret (String.eqb st "ERROR").

Definition in_final_state : M bool :=
  let* st := status in ret (in_final_states st).

(** ** Blocking wait *)

(** [timeout is not None and elapsed_time >= timeout]. *)
Definition timed_out (timeout : option Q) (elapsed_time : Q) : bool :=
  match timeout with
  | Some t => Qle_bool t elapsed_time
  | None => false
  end.

(** The [while] loop of [wait_for_final_state]; [fuel] bounds the number of
    iterations, and running out of it is [Diverges]. *)
Fixpoint wait_loop (fuel : nat) (timeout : option Q) (start_time : Q)
    (st : string) : M unit :=
  if in_final_states st then ret tt
  else
    match fuel with
    | O => fun _ => Diverges
    | S fuel' =>
        let* t := time_time in
        let elapsed_time := (t - start_time)%Q in
        if timed_out timeout elapsed_time
        then raise (RuntimeJobTimeoutError timeout)
        else
          time_sleep (1 # 10) ;;
          let* st' := status in
          wait_loop fuel' timeout start_time st'
    end.

(** [try: ... except futures.TimeoutError: raise RuntimeJobTimeoutError]. *)
Definition except_futures_timeout {A} (timeout : option Q) (c : M A) : M A :=
  fun m =>
    match c m with
    | Raises FuturesTimeoutError m' => Raises (RuntimeJobTimeoutError timeout) m'
    | r => r
    end.

(** [RuntimeJobV2.wait_for_final_state]. *)
Definition wait_for_final_state (fuel : nat) (timeout : option Q) : M unit :=
  except_futures_timeout timeout
    (let* start_time := time_time in
     let* st := status in
     wait_loop fuel timeout start_time st).

(** ** Result retrieval and cancellation *)

(** [decoder or self._final_result_decoder] (a class is truthy). *)
Definition decoder_or (decoder : option ResultDecoder) (j : Job) : ResultDecoder :=
  match decoder with
  | Some d => d
  | None => _final_result_decoder j
  end.

(** [self._reason if self._reason else self._error_message]. *)
Definition error_message_of (j : Job) : option string :=
  if truthy_str (_reason j) then _reason j else _error_message j.

(** [RuntimeJobV2.result]; the returned [None] is [VNone]. *)
Definition result (fuel : nat) (timeout : option Q)
    (decoder : option ResultDecoder) : M value :=
  let* j0 := get_self in
  let _decoder := decoder_or decoder j0 in
  wait_for_final_state fuel timeout ;;
  let* j := get_self in
  if String.eqb (_status j) "ERROR" then
    let error_message := error_message_of j in
    if is_max_time (_reason_code j)
    then raise (RuntimeJobMaxTimeoutError error_message)
    else raise (RuntimeJobFailureError
                  ("Unable to retrieve job result. " ++ py_str error_message))
  else if String.eqb (_status j) "CANCELLED" then
    raise (RuntimeInvalidStateError
             ("Unable to retrieve result for job " ++ job_id j
              ++ ". Job was cancelled."))
  else
    let* result_raw := api_job_results in
    if truthy_str result_raw
    then decode _decoder (py_str result_raw)
    else ret VNone.

(** [RuntimeJobV2.cancel]. *)
Definition cancel : M unit :=
  fun m =>
    match api_job_cancel m with
    | Raises (RequestsApiError code msg) m' =>
        if (code =? 409)%Z
        then Raises (RuntimeInvalidStateError ("Job cannot be cancelled: " ++ msg)) m'
        else Raises (IBMRuntimeError ("Failed to cancel job: " ++ msg)) m'
    | Raises e m' => Raises e m'
    | Diverges => Diverges
    | Returns _ m' => Returns tt (with_self (set_status "CANCELLED" (self m')) m')
    end.

(** A job whose recorded reason code is 1305. *)
Definition job0 : Job :=
  {| job_id := "j-0"; _status := "INITIALIZING"; _reason := None;
     _reason_code := Some 1305%Z; _error_message := None;
     _final_result_decoder := fun raw => inl (VStr raw) |}.

(** Repeating [status()] on whatever machine the previous call left. *)
Definition status_again (r : run string) : run string :=
  match r with
  | Returns _ m => status m
  | _ => r
  end.

(** Whether a reported state maps to a terminal status. *)
Definition reply_final (r : Response) : bool :=
  in_final_states
    (match API_TO_JOB_STATUS !! upper (state_status r) with
     | Some mapped => mapped
     | None => upper (state_status r)
     end).

(** The [n]-th status round trip answers with a state that is terminal
    ([fin = true]) or not ([fin = false]). *)
Definition reply_is (fin : bool) (c : RuntimeClient) (n : nat) : Prop :=
  exists r, job_get c n = inl r /\ reply_final r = fin.

(** One [time.sleep(0.1)] and one status round trip that is answered. *)
Definition sleep_step (m : Machine) : Machine := tick (1 # 10) (EvSleep (1 # 10)) m.

Definition poll_step (m : Machine) : Machine :=
  let m' := tick (job_get_latency (api m) (polls m)) EvJobGet m in
  match job_get (api m) (polls m) with
  | inl r => with_self (refresh r (self m)) m'
  | inr _ => m'
  end.

Definition rounds (k : nat) (m : Machine) : Machine :=
  Nat.iter k (fun m' => poll_step (sleep_step m')) m.




(** The payloads handed to a decoder, newest first. *)
Fixpoint decodes (t : list event) : list string :=
  match t with
  | [] => []
  | EvDecode raw :: t' => raw :: decodes t'
  | _ :: t' => decodes t'
  end.

(** ** Example jobs *)

Definition example_reply (st : string) : Response :=
  {| state_status := st; state_reason := None; state_reason_code := None |}.

(** A service that answers the first [k] status round trips with "Running"
    and the later ones with [final], at once; [payload] is the raw result
    it holds, and it accepts a cancellation. *)
Definition example_client (k : nat) (final : string) (payload : option string)
    : RuntimeClient :=
  {| job_get := fun n =>
       if (n <? k)%nat then inl (example_reply "Running")
       else inl (example_reply final);
     job_get_latency := fun _ => 0%Q;
     job_results := inl payload;
     job_cancel := inl tt |}.

Definition example_job : Job :=
  {| job_id := "j-1"; _status := "INITIALIZING"; _reason := None;
     _reason_code := None; _error_message := None;
     _final_result_decoder := fun raw => inl (VStr raw) |}.

(** A new job on that service, at time 0. *)
Definition example_machine (k : nat) (final : string) (payload : option string)
    : Machine :=
  {| self := example_job; api := example_client k final payload;
     now := 0%Q; trace := [] |}.




End RuntimeJob.

(** * The backend configuration model *)

Module BackendConfig.

Local Open Scope float_scope.

(** ** Fallible pure code *)

Inductive outcome (A : Type) : Type :=
| Ok (a : A)
| Raise (e : exn).
Arguments Ok {A} a.
Arguments Raise {A} e.

#[global] Instance outcome_ret : MRet outcome := fun A a => Ok a.
#[global] Instance outcome_bind : MBind outcome :=
  fun A B f m => match m with Ok a => f a | Raise e => Raise e end.

(** ** The Python operations the model uses *)

(** [bool(v)]. *)
Definition truthy (v : value) : bool :=
  match v with
  | VNone => false
  | VBool b => b
  | VInt z => negb (z =? 0)%Z
  | VFloat f => negb (PrimFloat.eqb f 0)
  | VStr s => negb (String.eqb s "")
  | VList l => negb (bool_decide (l = []))
  | VDict d => negb (bool_decide (d = []))
  | VObj _ _ => true
  end.

(** [v is not None]. *)
Definition is_not_None (v : value) : bool :=
  match v with VNone => false | _ => true end.

(** [float(z)] for an [int]: rounded to nearest, ties to even. *)
Definition float_of_Z (z : Z) : float :=
  SF2Prim (binary_normalize prec emax z 0 false).

(** The float a number is converted to when it is multiplied by a float. *)
Definition as_float (v : value) : outcome float :=
  match v with
  | VFloat f => Ok f
  | VInt z =>
      if is_infinity (float_of_Z z)
      then Raise (OverflowError "int too large to convert to float")
      else Ok (float_of_Z z)
  | VBool b => Ok (if b then 1 else 0)
  | _ => Raise (TypeError "unsupported operand type(s) for *")
  end.

(** [v * c] for a float constant [c]. *)
Definition py_mul (c : float) (v : value) : outcome value :=
  f ← as_float v; mret (VFloat (f * c)).

(** [isinstance(v, numbers.Number)]. *)
Definition is_number (v : value) : bool :=
  match v with
  | VBool _ | VInt _ | VFloat _ => true
  | _ => false
  end.

(** The one-character strings of a string. *)
Fixpoint chars (s : string) : list value :=
  match s with
  | EmptyString => []
  | String c s' => VStr (String c EmptyString) :: chars s'
  end.

(** [for x in v]. *)
Definition py_iter (v : value) : outcome (list value) :=
  match v with
  | VList l => Ok l
  | VDict d => Ok (VStr <$> d.*1)
  | VStr s => Ok (chars s)
  | _ => Raise (TypeError "object is not iterable")
  end.

(** [(a, b) = v]. *)
Definition py_unpack2 (v : value) : outcome (value * value) :=
  l ← py_iter v;
  match l with
  | [a; b] => Ok (a, b)
  | _ => Raise (ValueError "wrong number of values to unpack")
  end.

(** [[x * c for x in v]]. *)
Definition scale_list (c : float) (v : value) : outcome value :=
  l ← py_iter v; l' ← mapM (py_mul c) l; mret (VList l').

(** [[[lo * c, hi * c] for (lo, hi) in v]]. *)
Definition scale_pair (c : float) (x : value) : outcome value :=
  '(lo, hi) ← py_unpack2 x;
  lo' ← py_mul c lo; hi' ← py_mul c hi; mret (VList [lo'; hi']).

Definition scale_ranges (c : float) (v : value) : outcome value :=
  l ← py_iter v; l' ← mapM (scale_pair c) l; mret (VList l').

(** Dictionaries nested in values are association lists with unique keys. *)
Fixpoint alist_lookup (k : string) (d : list (string * value)) : option value :=
  match d with
  | [] => None
  | (k', v) :: d' => if String.eqb k k' then Some v else alist_lookup k d'
  end.

Fixpoint alist_set (k : string) (v : value) (d : list (string * value))
    : list (string * value) :=
  match d with
  | [] => [(k, v)]
  | (k', v') :: d' =>
      if String.eqb k k' then (k, v) :: d' else (k', v') :: alist_set k v d'
  end.

(** [v[k]] for a string key. *)
Definition py_getitem (k : string) (v : value) : outcome value :=
  match v with
  | VDict d =>
      match alist_lookup k d with
      | Some x => Ok x
      | None => Raise (KeyError k)
      end
  | _ => Raise (TypeError "object is not subscriptable by a string")
  end.

(** [q < v] for an [int] [q]; against a float the comparison is exact. *)
Definition Z_lt_float (q : Z) (f : float) : bool :=
  match Prim2SF f with
  | S754_zero _ => (q <? 0)%Z
  | S754_infinity s => negb s
  | S754_nan => false
  | S754_finite s m e =>
      let mz := if s then Z.neg m else Z.pos m in
      if (0 <=? e)%Z then (q <? mz * 2 ^ e)%Z else (q * 2 ^ (- e) <? mz)%Z
  end.

Definition py_lt_Z (q : Z) (v : value) : outcome bool :=
  match v with
  | VInt n => Ok (q <? n)%Z
  | VBool b => Ok (q <? (if b then 1 else 0))%Z
  | VFloat f => Ok (Z_lt_float q f)
  | _ => Raise (TypeError "'<' not supported between these instances")
  end.

(** [v < 0]. *)
Definition py_negative (v : value) : outcome bool :=
  match v with
  | VInt n => Ok (n <? 0)%Z
  | VBool _ => Ok false
  | VFloat f => Ok (PrimFloat.ltb f 0)
  | _ => Raise (TypeError "'<' not supported between these instances")
  end.

(** ** Calling a class with the entries of a dictionary as keyword arguments *)

(** The parameters of a signature get the values of the call or their
    defaults; what is left over goes to the variadic keyword parameter, if
    the signature has one. *)
Definition bind_keywords (required : list string)
    (optional : list (string * value)) (var_keyword : bool)
    (call : gmap string value)
    : outcome (gmap string value * gmap string value) :=
  let named := (required ++ optional.*1)%list in
  let extra := filter (fun kv => kv.1 ∉ named) call in
  if negb var_keyword && negb (bool_decide (extra = ∅))
  then Raise (TypeError "got an unexpected keyword argument")
  else if bool_decide (Forall (fun k => is_Some (call !! k)) required)
  then Ok (filter (fun kv => kv.1 ∈ named) call ∪ list_to_map optional, extra)
  else Raise (TypeError "missing required argument").

(** ** Instances *)

(** The [dict] or [defaultdict(list)] behind [_control_channels]. *)
Inductive ChannelDict : Type :=
| PlainDict (d : list (list Z * list Channel))
| DefaultDict (d : list (list Z * list Channel)).

(** A configuration object: its attributes ([__dict__]), with [_data] and
    the three channel indices kept apart for their types. *)
Record Instance : Type := {
  attrs : gmap string value;
  _data : gmap string value;
  _qubit_channel_map : option (list (list Z * list Channel));
  _channel_qubit_map : option (list (Channel * list Z));
  _control_channels : option ChannelDict;
}.

(** A new object; [_data] is the class attribute [{}]. *)
Definition new_instance : Instance :=
  {| attrs := ∅; _data := ∅; _qubit_channel_map := None;
     _channel_qubit_map := None; _control_channels := None |}.

Definition setattr (name : string) (v : value) (self : Instance) : Instance :=
  {| attrs := <[name := v]> (attrs self); _data := _data self;
     _qubit_channel_map := _qubit_channel_map self;
     _channel_qubit_map := _channel_qubit_map self;
     _control_channels := _control_channels self |}.

Definition set_data (d : gmap string value) (self : Instance) : Instance :=
  {| attrs := attrs self; _data := d;
     _qubit_channel_map := _qubit_channel_map self;
     _channel_qubit_map := _channel_qubit_map self;
     _control_channels := _control_channels self |}.

Definition set_channel_maps
    (qcm : option (list (list Z * list Channel)))
    (cqm : option (list (Channel * list Z)))
    (cc : option ChannelDict) (self : Instance) : Instance :=
  {| attrs := attrs self; _data := _data self;
     _qubit_channel_map := qcm; _channel_qubit_map := cqm;
     _control_channels := cc |}.

(** [if c: self.name = v]. *)
Definition set_when (c : bool) (name : string) (v : value) (self : Instance)
    : Instance :=
  if c then setattr name v self else self.

(** [if c: self.name = <computation>]. *)
Definition set_whenM (c : bool) (name : string) (v : outcome value)
    (self : Instance) : outcome Instance :=
  if c then x ← v; mret (setattr name x self) else mret self.

(** Attribute lookup, with [__getattr__] falling back on [_data], for a
    name the class does not define itself: Python finds a method, a
    property or a special name of the class before it calls
    [__getattr__]. *)
Definition getattr_opt (self : Instance) (name : string) : option value :=
  match attrs self !! name with
  | Some v => Some v
  | None => _data self !! name
  end.

Definition hasattr (self : Instance) (name : string) : bool :=
  bool_decide (is_Some (getattr_opt self name)).

Definition getattr (self : Instance) (name : string) : outcome value :=
  match getattr_opt self name with
  | Some v => Ok v
  | None => Raise (AttributeError ("Attribute " ++ name ++ " is not defined"))
  end.

(** ** [GateConfig] and [UchannelLO] *)

Definition GateConfig_required : list string := ["name"; "parameters"; "qasm_def"].
Definition GateConfig_optional : list (string * value) :=
  [("coupling_map", VNone); ("latency_map", VNone); ("conditional", VNone);
   ("description", VNone)].

(** [GateConfig.__init__]: the attributes of the new object, in the order
    they are set. *)
Definition GateConfig__init__ (p : gmap string value) : value :=
  let arg k := p !!! k in
  let self := [("name", arg "name"); ("parameters", arg "parameters");
               ("qasm_def", arg "qasm_def")] in
  let self := if truthy (arg "coupling_map")
              then (self ++ [("coupling_map", arg "coupling_map")])%list else self in
  let self := if truthy (arg "latency_map")
              then (self ++ [("latency_map", arg "latency_map")])%list else self in
  let self := if is_not_None (arg "conditional")
              then (self ++ [("conditional", arg "conditional")])%list else self in
  let self := if is_not_None (arg "description")
              then (self ++ [("description", arg "description")])%list else self in
  VObj "GateConfig" self.

(** [GateConfig.from_dict]. *)
Definition GateConfig_from_dict (data : value) : outcome value :=
  match data with
  | VDict d =>
      '(p, _) ← bind_keywords GateConfig_required GateConfig_optional false
                  (list_to_map d);
      mret (GateConfig__init__ p)
  | _ => Raise (TypeError "argument after ** must be a mapping")
  end.

(** [out_dict[name] = self.name] when the object has the attribute. *)
Definition copy_attr (fields : list (string * value)) (name : string)
    (out_dict : list (string * value)) : list (string * value) :=
  match alist_lookup name fields with
  | Some v => alist_set name v out_dict
  | None => out_dict
  end.

(** [self.name] on an object given by its attributes. *)
Definition obj_getattr (name : string) (fields : list (string * value))
    : outcome value :=
  match alist_lookup name fields with
  | Some v => Ok v
  | None => Raise (AttributeError ("object has no attribute " ++ name))
  end.

(** [GateConfig.to_dict]. *)
Definition GateConfig_to_dict (x : value) : outcome value :=
  match x with
  | VObj "GateConfig" fields =>
      name ← obj_getattr "name" fields;
      parameters ← obj_getattr "parameters" fields;
      qasm_def ← obj_getattr "qasm_def" fields;
      let out_dict := [("name", name); ("parameters", parameters);
                       ("qasm_def", qasm_def)] in
      let out_dict := copy_attr fields "coupling_map" out_dict in
      let out_dict := copy_attr fields "latency_map" out_dict in
      let out_dict := copy_attr fields "conditional" out_dict in
      let out_dict := copy_attr fields "description" out_dict in
      mret (VDict out_dict)
  | _ => Raise (AttributeError "object has no attribute 'to_dict'")
  end.

(** [UchannelLO.__init__] and [UchannelLO.from_dict]. *)
Definition UchannelLO__init__ (p : gmap string value) : outcome value :=
  neg ← py_negative (p !!! "q");
  if (neg : bool) then Raise (QiskitError "q must be >=0")
  else mret (VObj "UchannelLO" [("q", p !!! "q"); ("scale", p !!! "scale")]).

Definition UchannelLO_from_dict (data : value) : outcome value :=
  match data with
  | VDict d =>
      '(p, _) ← bind_keywords ["q"; "scale"] [] false (list_to_map d);
      UchannelLO__init__ p
  | _ => Raise (TypeError "argument after ** must be a mapping")
  end.

(** [UchannelLO.to_dict]. *)
Definition UchannelLO_to_dict (y : value) : outcome value :=
  match y with
  | VObj "UchannelLO" fields =>
      q ← obj_getattr "q" fields;
      scale ← obj_getattr "scale" fields;
      mret (VDict [("q", q); ("scale", scale)])
  | _ => Raise (AttributeError "object has no attribute 'to_dict'")
  end.

(** ** [QasmBackendConfiguration] *)

Definition Qasm_required : list string :=
  ["backend_name"; "backend_version"; "n_qubits"; "basis_gates"; "gates";
   "local"; "simulator"; "conditional"; "open_pulse"; "memory"; "max_shots";
   "coupling_map"].

Definition Qasm_optional : list (string * value) :=
  [("supported_instructions", VNone); ("dynamic_reprate_enabled", VBool false);
   ("rep_delay_range", VNone); ("default_rep_delay", VNone);
   ("max_experiments", VNone); ("sample_name", VNone); ("n_registers", VNone);
   ("register_map", VNone); ("configurable", VNone);
   ("credits_required", VNone); ("online_date", VNone);
   ("display_name", VNone); ("description", VNone); ("tags", VNone);
   ("dt", VNone); ("dtm", VNone); ("processor_type", VNone);
   ("parametric_pulses", VNone)].

(** [if name in kwargs: kwargs[name] = <conversion of kwargs[name]>]. *)
Definition convert_key (name : string) (conv : value -> outcome value)
    (d : gmap string value) : outcome (gmap string value) :=
  match d !! name with
  | Some v => v' ← conv v; mret (<[name := v']> d)
  | None => mret d
  end.

(** [QasmBackendConfiguration.__init__]; [p] holds the named parameters. *)
Definition Qasm__init__ (self : Instance) (p kwargs : gmap string value)
    : outcome Instance :=
  let arg k := p !!! k in
  let self := set_data ∅ self in
  let self := setattr "backend_name" (arg "backend_name") self in
  let self := setattr "backend_version" (arg "backend_version") self in
  let self := setattr "n_qubits" (arg "n_qubits") self in
  let self := setattr "basis_gates" (arg "basis_gates") self in
  let self := setattr "gates" (arg "gates") self in
  let self := setattr "local" (arg "local") self in
  let self := setattr "simulator" (arg "simulator") self in
  let self := setattr "conditional" (arg "conditional") self in
  let self := setattr "open_pulse" (arg "open_pulse") self in
  let self := setattr "memory" (arg "memory") self in
  let self := setattr "max_shots" (arg "max_shots") self in
  let self := setattr "coupling_map" (arg "coupling_map") self in
  let self := set_when (truthy (arg "supported_instructions"))
                "supported_instructions" (arg "supported_instructions") self in
  let self := setattr "dynamic_reprate_enabled" (arg "dynamic_reprate_enabled") self in
  self ← set_whenM (truthy (arg "rep_delay_range"))
           "rep_delay_range" (scale_list 1e-6 (arg "rep_delay_range")) self;
  self ← set_whenM (is_not_None (arg "default_rep_delay"))
           "default_rep_delay" (py_mul 1e-6 (arg "default_rep_delay")) self;
  let self := set_when (truthy (arg "max_experiments"))
                "max_experiments" (arg "max_experiments") self in
  let self := set_when (is_not_None (arg "sample_name"))
                "sample_name" (arg "sample_name") self in
  let self := set_when (truthy (arg "n_registers")) "n_registers" (VInt 1) self in
  let self := set_when (truthy (arg "register_map"))
                "register_map" (arg "register_map") self in
  let self := set_when (is_not_None (arg "configurable"))
                "configurable" (arg "configurable") self in
  let self := set_when (is_not_None (arg "credits_required"))
                "credits_required" (arg "credits_required") self in
  let self := set_when (is_not_None (arg "online_date"))
                "online_date" (arg "online_date") self in
  let self := set_when (is_not_None (arg "display_name"))
                "display_name" (arg "display_name") self in
  let self := set_when (is_not_None (arg "description"))
                "description" (arg "description") self in
  let self := set_when (is_not_None (arg "tags")) "tags" (arg "tags") self in
  self ← set_whenM (is_not_None (arg "dt")) "dt" (py_mul 1e-9 (arg "dt")) self;
  self ← set_whenM (is_not_None (arg "dtm")) "dtm" (py_mul 1e-9 (arg "dtm")) self;
  let self := set_when (is_not_None (arg "processor_type"))
                "processor_type" (arg "processor_type") self in
  let self := set_when (is_not_None (arg "parametric_pulses"))
                "parametric_pulses" (arg "parametric_pulses") self in
  kwargs ← convert_key "qubit_lo_range" (scale_ranges 1e9) kwargs;
  kwargs ← convert_key "meas_lo_range" (scale_ranges 1e9) kwargs;
  kwargs ← convert_key "rep_times" (scale_list 1e-6) kwargs;
  mret (set_data (kwargs ∪ _data self) self).

(** [in_data.pop("gates")] and the list of [GateConfig] objects made of it. *)
Definition pop_gates (data : gmap string value) : outcome value :=
  match data !! "gates" with
  | Some g => xs ← py_iter g; gates ← mapM GateConfig_from_dict xs; mret (VList gates)
  | None => Raise (KeyError "gates")
  end.

(** [QasmBackendConfiguration] called with the entries of [call] as keyword
    arguments: a new object, initialised. *)
Definition QasmBackendConfiguration (call : gmap string value) : outcome Instance :=
  '(p, kwargs) ← bind_keywords Qasm_required Qasm_optional true call;
  Qasm__init__ new_instance p kwargs.

(** [QasmBackendConfiguration.from_dict]. *)
Definition Qasm_from_dict (data : gmap string value) : outcome Instance :=
  gates ← pop_gates data;
  let in_data := <["gates" := gates]> data in
  QasmBackendConfiguration in_data.

(** [d[k] = v] when there is a [v]. *)
Definition insert_opt (k : string) (o : option value) (d : gmap string value)
    : gmap string value :=
  match o with
  | Some v => <[k := v]> d
  | None => d
  end.

(** [for kwarg in names: if hasattr(self, kwarg): out_dict[kwarg] = getattr(self, kwarg)]. *)
Definition copy_attrs (self : Instance) (names : list string)
    (out_dict : gmap string value) : gmap string value :=
  foldl (fun out kwarg => insert_opt kwarg (getattr_opt self kwarg) out)
    out_dict names.

(** [if hasattr(self, name): out_dict[name] = <conversion of self.name>]. *)
Definition emit_attr (self : Instance) (name : string)
    (conv : value -> outcome value) (out_dict : gmap string value)
    : outcome (gmap string value) :=
  match getattr_opt self name with
  | Some v => v' ← conv v; mret (<[name := v']> out_dict)
  | None => mret out_dict
  end.

Definition Qasm_to_dict_optional : list string :=
  ["max_experiments"; "sample_name"; "n_registers"; "register_map";
   "configurable"; "credits_required"; "online_date"; "display_name";
   "description"; "tags"; "dt"; "dtm"; "processor_type"; "parametric_pulses"].

(** [QasmBackendConfiguration.to_dict]. *)
Definition Qasm_to_dict (self : Instance) : outcome (gmap string value) :=
  backend_name ← getattr self "backend_name";
  backend_version ← getattr self "backend_version";
  n_qubits ← getattr self "n_qubits";
  basis_gates ← getattr self "basis_gates";
  gates ← (g ← getattr self "gates"; xs ← py_iter g;
           ds ← mapM GateConfig_to_dict xs; mret (VList ds));
  local ← getattr self "local";
  simulator ← getattr self "simulator";
  conditional ← getattr self "conditional";
  open_pulse ← getattr self "open_pulse";
  memory ← getattr self "memory";
  max_shots ← getattr self "max_shots";
  coupling_map ← getattr self "coupling_map";
  dynamic_reprate_enabled ← getattr self "dynamic_reprate_enabled";
  let out_dict : gmap string value :=
    <["dynamic_reprate_enabled" := dynamic_reprate_enabled]>
    (<["coupling_map" := coupling_map]>
    (<["max_shots" := max_shots]>
    (<["memory" := memory]>
    (<["open_pulse" := open_pulse]>
    (<["conditional" := conditional]>
    (<["simulator" := simulator]>
    (<["local" := local]>
    (<["gates" := gates]>
    (<["basis_gates" := basis_gates]>
    (<["n_qubits" := n_qubits]>
    (<["backend_version" := backend_version]>
    (<["backend_name" := backend_name]> ∅)))))))))))) in
  out_dict ← emit_attr self "supported_instructions" mret out_dict;
  out_dict ← emit_attr self "rep_delay_range" (scale_list 1e6) out_dict;
  out_dict ← emit_attr self "default_rep_delay" (py_mul 1e6) out_dict;
  let out_dict := copy_attrs self Qasm_to_dict_optional out_dict in
  let out_dict := _data self ∪ out_dict in
  out_dict ← convert_key "dt" (py_mul 1e9) out_dict;
  out_dict ← convert_key "dtm" (py_mul 1e9) out_dict;
  out_dict ← convert_key "qubit_lo_range" (scale_ranges 1e-9) out_dict;
  out_dict ← convert_key "meas_lo_range" (scale_ranges 1e-9) out_dict;
  mret out_dict.

(** ** [PulseBackendConfiguration] *)

Definition Pulse_required : list string :=
  ["backend_name"; "backend_version"; "n_qubits"; "basis_gates"; "gates";
   "local"; "simulator"; "conditional"; "open_pulse"; "memory"; "max_shots";
   "coupling_map"; "n_uchannels"; "u_channel_lo"; "meas_levels";
   "qubit_lo_range"; "meas_lo_range"; "dt"; "dtm"; "rep_times";
   "meas_kernels"; "discriminators"].

Definition Pulse_optional : list (string * value) :=
  [("hamiltonian", VNone); ("channel_bandwidth", VNone);
   ("acquisition_latency", VNone); ("conditional_latency", VNone);
   ("meas_map", VNone); ("max_experiments", VNone); ("sample_name", VNone);
   ("n_registers", VNone); ("register_map", VNone); ("configurable", VNone);
   ("credits_required", VNone); ("online_date", VNone);
   ("display_name", VNone); ("description", VNone); ("tags", VNone);
   ("channels", VNone)].

(** The parameters [PulseBackendConfiguration.__init__] hands on by name to
    [super().__init__]. *)
Definition Pulse_super_named : list string :=
  ["backend_name"; "backend_version"; "n_qubits"; "basis_gates"; "gates";
   "local"; "simulator"; "conditional"; "open_pulse"; "memory"; "max_shots";
   "coupling_map"; "max_experiments"; "sample_name"; "n_registers";
   "register_map"; "configurable"; "credits_required"; "online_date";
   "display_name"; "description"; "tags"].

(** The channel prefixes of [qiskit.pulse.channels] and the table
    [channels_dict] of [_parse_channels]. *)
Definition DriveChannel_prefix : string := "d".
Definition ControlChannel_prefix : string := "u".
Definition MeasureChannel_prefix : string := "m".

Definition channels_dict : list (string * (Z -> Channel)) :=
  [(DriveChannel_prefix, DriveChannel); (ControlChannel_prefix, ControlChannel);
   (MeasureChannel_prefix, MeasureChannel); ("acquire", AcquireChannel)].

Fixpoint channels_dict_lookup (k : string) (d : list (string * (Z -> Channel)))
    : option (Z -> Channel) :=
  match d with
  | [] => None
  | (k', c) :: d' => if String.eqb k k' then Some c else channels_dict_lookup k d'
  end.

Definition is_lower (c : ascii) : bool :=
  let n := nat_of_ascii c in (97 <=? n)%nat && (n <=? 122)%nat.

Definition is_digit (c : ascii) : bool :=
  let n := nat_of_ascii c in (48 <=? n)%nat && (n <=? 57)%nat.

(** The longest prefix of [s] made of characters in the class [p], and the
    rest. *)
Fixpoint span (p : ascii -> bool) (s : string) : string * string :=
  match s with
  | EmptyString => (EmptyString, EmptyString)
  | String c s' =>
      if p c then let '(a, b) := span p s' in (String c a, b)
      else (EmptyString, s)
  end.

(** [int(digits)] for a string of decimal digits. *)
Fixpoint int_of_digits (acc : Z) (digits : string) : Z :=
  match digits with
  | EmptyString => acc
  | String c s' => int_of_digits (10 * acc + Z.of_nat (nat_of_ascii c - 48)) s'
  end.

(** [PulseBackendConfiguration._get_channel_prefix_index]: the match of
    [[a-z]+[0-9]+] at the start of the name. *)
Definition _get_channel_prefix_index (channel : string) : outcome (string * Z) :=
  let '(channel_prefix, rest) := span is_lower channel in
  let '(index, _) := span is_digit rest in
  if String.eqb channel_prefix "" || String.eqb index ""
  then Raise (BackendConfigurationError (InvalidChannelName channel))
  else Ok (channel_prefix, int_of_digits 0 index).

(** [d[k].append(...)] and [d[k].extend(...)] on a [defaultdict(list)]. *)
Fixpoint dd_extend {K V : Type} `{EqDecision K} (k : K) (vs : list V)
    (d : list (K * list V)) : list (K * list V) :=
  match d with
  | [] => [(k, vs)]
  | (k', l) :: d' =>
      if decide (k = k') then (k', (l ++ vs)%list) :: d'
      else (k', l) :: dd_extend k vs d'
  end.

Fixpoint dd_lookup {K V : Type} `{EqDecision K} (k : K)
    (d : list (K * list V)) : option (list V) :=
  match d with
  | [] => None
  | (k', l) :: d' => if decide (k = k') then Some l else dd_lookup k d'
  end.

#[global] Instance Channel_eq_dec : EqDecision Channel.
Proof. solve_decision. Defined.

(** [tuple(v)] for a list of qubit indices. *)
Definition int_tuple (v : value) : outcome (list Z) :=
  l ← py_iter v;
  mapM (fun x => match x with
                 | VInt z => Ok z
                 | _ => Raise (TypeError "qubit index is not an int")
                 end) l.

(** The three indices [_parse_channels] builds. *)
Record ChannelMaps : Type := {
  qubit_channel_map : list (list Z * list Channel);
  channel_qubit_map : list (Channel * list Z);
  control_channels : list (list Z * list Channel);
}.

(** The body of the loop of [_parse_channels] for one entry. *)
Definition parse_channel (maps : ChannelMaps) (entry : string * value)
    : outcome ChannelMaps :=
  let '(channel, config) := entry in
  '(channel_prefix, index) ← _get_channel_prefix_index channel;
  match channels_dict_lookup channel_prefix channels_dict with
  | None => Raise (KeyError channel_prefix)
  | Some channel_type =>
      operates ← py_getitem "operates" config;
      qs ← py_getitem "qubits" operates;
      qubits ← int_tuple qs;
      let ch := channel_type index in
      mret {| qubit_channel_map := dd_extend qubits [ch] (qubit_channel_map maps);
              channel_qubit_map := dd_extend ch qubits (channel_qubit_map maps);
              control_channels :=
                if String.eqb channel_prefix ControlChannel_prefix
                then dd_extend qubits [ch] (control_channels maps)
                else control_channels maps |}
  end.

Fixpoint parse_channel_entries (maps : ChannelMaps) (entries : list (string * value))
    : outcome ChannelMaps :=
  match entries with
  | [] => Ok maps
  | entry :: rest => maps' ← parse_channel maps entry; parse_channel_entries maps' rest
  end.

(** [PulseBackendConfiguration._parse_channels]. *)
Definition _parse_channels (channels : value) : outcome ChannelMaps :=
  match channels with
  | VDict entries =>
      parse_channel_entries
        {| qubit_channel_map := []; channel_qubit_map := [];
           control_channels := [] |} entries
  | _ => Raise (AttributeError "object has no attribute 'items'")
  end.

(** [{k: v * c if isinstance(v, numbers.Number) else v for k, v in vars.items()}]. *)
Definition scale_vars (c : float) (vars : value) : outcome value :=
  match vars with
  | VDict d =>
      d' ← mapM (fun kv : string * value =>
                   if is_number kv.2
                   then v' ← py_mul c kv.2; mret (kv.1, v')
                   else mret kv) d;
      mret (VDict d')
  | _ => Raise (AttributeError "object has no attribute 'items'")
  end.

(** [h = dict(h); h["vars"] = <scaled vars>] ([dict(h)] of a value that is
    not a dictionary is taken to fail). *)
Definition scale_hamiltonian (c : float) (h : value) : outcome value :=
  match h with
  | VDict d =>
      vars ← py_getitem "vars" (VDict d);
      vars' ← scale_vars c vars;
      mret (VDict (alist_set "vars" vars' d))
  | _ => Raise (TypeError "cannot convert dictionary update sequence")
  end.

(** [if channels is not None: self.channels = channels; (...) =
    self._parse_channels(channels=channels)], [else: self._control_channels =
    defaultdict(list)]. *)
Definition init_channels (channels : value) (self : Instance) : outcome Instance :=
  if is_not_None channels
  then
    let self := setattr "channels" channels self in
    maps ← _parse_channels channels;
    mret (set_channel_maps
            (Some (qubit_channel_map maps))
            (Some (channel_qubit_map maps))
            (Some (PlainDict (control_channels maps))) self)
  else
    mret (set_channel_maps (_qubit_channel_map self)
            (_channel_qubit_map self) (Some (DefaultDict [])) self).

(** [PulseBackendConfiguration.__init__]. *)
Definition Pulse__init__ (self : Instance) (p kwargs : gmap string value)
    : outcome Instance :=
  let arg k := p !!! k in
  let self := setattr "n_uchannels" (arg "n_uchannels") self in
  let self := setattr "u_channel_lo" (arg "u_channel_lo") self in
  let self := setattr "meas_levels" (arg "meas_levels") self in
  qubit_lo_range ← scale_ranges 1e9 (arg "qubit_lo_range");
  let self := setattr "qubit_lo_range" qubit_lo_range self in
  meas_lo_range ← scale_ranges 1e9 (arg "meas_lo_range");
  let self := setattr "meas_lo_range" meas_lo_range self in
  let self := setattr "meas_kernels" (arg "meas_kernels") self in
  let self := setattr "discriminators" (arg "discriminators") self in
  let self := setattr "hamiltonian" (arg "hamiltonian") self in
  self ← set_whenM (is_not_None (arg "hamiltonian"))
           "hamiltonian" (scale_hamiltonian 1e9 (arg "hamiltonian")) self;
  rep_times ← scale_list 1e-6 (arg "rep_times");
  let self := setattr "rep_times" rep_times self in
  dt ← py_mul 1e-9 (arg "dt");
  let self := setattr "dt" dt self in
  dtm ← py_mul 1e-9 (arg "dtm");
  let self := setattr "dtm" dtm self in
  self ← init_channels (arg "channels") self;
  self ← set_whenM (is_not_None (arg "channel_bandwidth"))
           "channel_bandwidth" (scale_ranges 1e9 (arg "channel_bandwidth")) self;
  let self := set_when (is_not_None (arg "acquisition_latency"))
                "acquisition_latency" (arg "acquisition_latency") self in
  let self := set_when (is_not_None (arg "conditional_latency"))
                "conditional_latency" (arg "conditional_latency") self in
  let self := set_when (is_not_None (arg "meas_map"))
                "meas_map" (arg "meas_map") self in
  let call := filter (fun kv => kv.1 ∈ Pulse_super_named) p ∪ kwargs in
  '(p', kwargs') ← bind_keywords Qasm_required Qasm_optional true call;
  Qasm__init__ self p' kwargs'.

(** [[UchannelLO.from_dict(x) for x in channel]]. *)
Definition u_channel_lo_from_dict (channel : value) : outcome value :=
  xs ← py_iter channel; los ← mapM UchannelLO_from_dict xs; mret (VList los).

(** [in_data.pop("u_channel_lo")] and the lists of [UchannelLO] objects made
    of it. *)
Definition pop_u_channel_lo (data : gmap string value) : outcome value :=
  match data !! "u_channel_lo" with
  | Some input_uchannels =>
      channels ← py_iter input_uchannels;
      u_channels ← mapM u_channel_lo_from_dict channels;
      mret (VList u_channels)
  | None => Raise (KeyError "u_channel_lo")
  end.

(** [PulseBackendConfiguration] called with the entries of [call] as keyword
    arguments: a new object, initialised. *)
Definition PulseBackendConfiguration (call : gmap string value) : outcome Instance :=
  '(p, kwargs) ← bind_keywords Pulse_required Pulse_optional true call;
  Pulse__init__ new_instance p kwargs.

(** [PulseBackendConfiguration.from_dict]. *)
Definition Pulse_from_dict (data : gmap string value) : outcome Instance :=
  gates ← pop_gates data;
  let in_data := <["gates" := gates]> data in
  u_channels ← pop_u_channel_lo in_data;
  let in_data := <["u_channel_lo" := u_channels]> in_data in
  PulseBackendConfiguration in_data.

(** [out_dict.pop(k)]. *)
Definition pop_key (k : string) (out_dict : gmap string value)
    : outcome (gmap string value) :=
  match out_dict !! k with
  | Some _ => Ok (delete k out_dict)
  | None => Raise (KeyError k)
  end.

(** [out_dict[k] *= c]. *)
Definition imul_key (k : string) (c : float) (out_dict : gmap string value)
    : outcome (gmap string value) :=
  match out_dict !! k with
  | Some v => v' ← py_mul c v; mret (<[k := v']> out_dict)
  | None => Raise (KeyError k)
  end.

(** [if self.name: out_dict[name] = <conversion of self.name>]. *)
Definition emit_truthy (self : Instance) (name : string)
    (conv : value -> outcome value) (out_dict : gmap string value)
    : outcome (gmap string value) :=
  v ← getattr self name;
  if truthy v then v' ← conv v; mret (<[name := v']> out_dict)
  else mret out_dict.

(** [if "channels" in out_dict: out_dict.pop("_qubit_channel_map"); ...]. *)
Definition drop_channel_maps (out_dict : gmap string value)
    : outcome (gmap string value) :=
  if bool_decide (is_Some (out_dict !! "channels"))
  then
    out_dict ← pop_key "_qubit_channel_map" out_dict;
    out_dict ← pop_key "_channel_qubit_map" out_dict;
    pop_key "_control_channels" out_dict
  else mret out_dict.

(** The serialization of [self.u_channel_lo]. *)
Definition u_channel_lo_to_dict (x : value) : outcome value :=
  ys ← py_iter x; ds ← mapM UchannelLO_to_dict ys; mret (VList ds).

(** [PulseBackendConfiguration.to_dict]. *)
Definition Pulse_to_dict (self : Instance) : outcome (gmap string value) :=
  out_dict ← Qasm_to_dict self;
  u_channel_lo ← (u ← getattr self "u_channel_lo"; xs ← py_iter u;
                  cs ← mapM u_channel_lo_to_dict xs;
                  mret (VList cs));
  n_uchannels ← getattr self "n_uchannels";
  meas_levels ← getattr self "meas_levels";
  qubit_lo_range ← getattr self "qubit_lo_range";
  meas_lo_range ← getattr self "meas_lo_range";
  meas_kernels ← getattr self "meas_kernels";
  discriminators ← getattr self "discriminators";
  rep_times ← getattr self "rep_times";
  dt ← getattr self "dt";
  dtm ← getattr self "dtm";
  let out_dict : gmap string value :=
    <["dtm" := dtm]>
    (<["dt" := dt]>
    (<["rep_times" := rep_times]>
    (<["discriminators" := discriminators]>
    (<["meas_kernels" := meas_kernels]>
    (<["meas_lo_range" := meas_lo_range]>
    (<["qubit_lo_range" := qubit_lo_range]>
    (<["meas_levels" := meas_levels]>
    (<["u_channel_lo" := u_channel_lo]>
    (<["n_uchannels" := n_uchannels]> out_dict))))))))) in
  out_dict ← emit_attr self "channel_bandwidth" mret out_dict;
  out_dict ← emit_attr self "meas_map" mret out_dict;
  out_dict ← emit_attr self "acquisition_latency" mret out_dict;
  out_dict ← emit_attr self "conditional_latency" mret out_dict;
  out_dict ← drop_channel_maps out_dict;
  out_dict ← emit_truthy self "qubit_lo_range" (scale_ranges 1e-9) out_dict;
  out_dict ← emit_truthy self "meas_lo_range" (scale_ranges 1e-9) out_dict;
  out_dict ← emit_truthy self "rep_times" (scale_list 1e6) out_dict;
  out_dict ← imul_key "dt" 1e9 out_dict;
  out_dict ← imul_key "dtm" 1e9 out_dict;
  out_dict ← emit_attr self "channel_bandwidth" (scale_ranges 1e-9) out_dict;
  out_dict ← emit_truthy self "hamiltonian" (scale_hamiltonian 1e-9) out_dict;
  out_dict ← emit_attr self "channels" mret out_dict;
  mret out_dict.

(** [0 <= qubit < self.n_qubits]. *)
Definition qubit_in_range (self : Instance) (qubit : Z) : outcome bool :=
  if (0 <=? qubit)%Z
  then n_qubits ← getattr self "n_qubits"; py_lt_Z qubit n_qubits
  else mret false.

(** [PulseBackendConfiguration.drive], [measure] and [acquire]. *)
Definition drive (self : Instance) (qubit : Z) : outcome Channel :=
  ok ← qubit_in_range self qubit;
  if (ok : bool) then mret (DriveChannel qubit)
  else Raise (BackendConfigurationError (InvalidIndex qubit)).

Definition measure (self : Instance) (qubit : Z) : outcome Channel :=
  ok ← qubit_in_range self qubit;
  if (ok : bool) then mret (MeasureChannel qubit)
  else Raise (BackendConfigurationError (InvalidIndex qubit)).

Definition acquire (self : Instance) (qubit : Z) : outcome Channel :=
  ok ← qubit_in_range self qubit;
  if (ok : bool) then mret (AcquireChannel qubit)
  else Raise (BackendConfigurationError (InvalidIndex qubit)).

(** [PulseBackendConfiguration.control] for a tuple (or list) of qubits,
    with the instance as the lookup leaves it: a [defaultdict] gains the
    key it was asked for. *)
Definition control (self : Instance) (qubits : list Z)
    : outcome (list Channel) * Instance :=
  match _control_channels self with
  | Some (PlainDict d) =>
      match dd_lookup qubits d with
      | Some chans => (Ok chans, self)
      | None =>
          (n_qubits ← getattr self "n_qubits";
           Raise (BackendConfigurationError (ControlChannelNotFound qubits n_qubits)),
           self)
      end
  | Some (DefaultDict d) =>
      match dd_lookup qubits d with
      | Some chans => (Ok chans, self)
      | None =>
          (Ok [],
           set_channel_maps (_qubit_channel_map self) (_channel_qubit_map self)
             (Some (DefaultDict (d ++ [(qubits, [])])%list)) self)
      end
  | None =>
      match _data self !! "_control_channels" with
      | None =>
          (backend_name ← getattr self "backend_name";
           Raise (BackendConfigurationError (NoChannelInformation backend_name)),
           self)
      | Some (VDict _) =>
          (n_qubits ← getattr self "n_qubits";
           Raise (BackendConfigurationError (ControlChannelNotFound qubits n_qubits)),
           self)
      | Some _ => (Raise (TypeError "object is not subscriptable by a tuple"), self)
      end
  end.

(** [PulseBackendConfiguration.get_channel_qubits]. *)
Definition get_channel_qubits (self : Instance) (channel : Channel)
    : outcome (list Z) :=
  match _channel_qubit_map self with
  | Some d =>
      match dd_lookup channel d with
      | Some qubits => Ok qubits
      | None => Raise (BackendConfigurationError (ChannelNotFound channel))
      end
  | None =>
      match _data self !! "_channel_qubit_map" with
      | None =>
          backend_name ← getattr self "backend_name";
          Raise (BackendConfigurationError (NoChannelInformation backend_name))
      | Some (VDict _) => Raise (BackendConfigurationError (ChannelNotFound channel))
      | Some _ => Raise (TypeError "object is not subscriptable by a channel")
      end
  end.

(** ** Example wire data *)

Definition example_gate : value :=
  VDict [("name", VStr "cx"); ("parameters", VList []);
         ("qasm_def", VStr "cx q0,q1");
         ("coupling_map", VList [VList [VInt 0; VInt 1]])].

(** The channel map of the specification's example: a drive channel on
    qubit 0 and a control channel on qubits (0, 1). *)
Definition example_channels : value :=
  VDict [("d0", VDict [("operates", VDict [("qubits", VList [VInt 0])]);
                       ("purpose", VStr "drive"); ("type", VStr "drive")]);
         ("u1", VDict [("operates", VDict [("qubits", VList [VInt 0; VInt 1])]);
                       ("purpose", VStr "cross-resonance");
                       ("type", VStr "control")])].

(** Wire data of a two-qubit pulse backend without a channel map. *)
Definition example_wire : gmap string value :=
  list_to_map
    [("backend_name", VStr "fake_backend"); ("backend_version", VStr "1.0.0");
     ("n_qubits", VInt 2); ("basis_gates", VList [VStr "cx"]);
     ("gates", VList [example_gate]); ("local", VBool false);
     ("simulator", VBool false); ("conditional", VBool false);
     ("open_pulse", VBool true); ("memory", VBool true);
     ("max_shots", VInt 1024);
     ("coupling_map", VList [VList [VInt 0; VInt 1]]);
     ("n_uchannels", VInt 2);
     ("u_channel_lo",
      VList [VList [VDict [("q", VInt 0); ("scale", VList [VFloat 1; VFloat 0])]]]);
     ("meas_levels", VList [VInt 1; VInt 2]);
     ("qubit_lo_range", VList [VList [VFloat 4.5; VFloat 5.5]]);
     ("meas_lo_range", VList [VList [VFloat 6.5; VFloat 7.5]]);
     ("dt", VFloat 0.222); ("dtm", VFloat 0.222);
     ("rep_times", VList [VFloat 1000]);
     ("meas_kernels", VList [VStr "hw_boxcar"]);
     ("discriminators", VList [VStr "linear_discriminator"]);
     ("n_registers", VInt 5); ("extra_field", VStr "kept")].

(** The same with the channel map. *)
Definition example_wire_with_channels : gmap string value :=
  <["channels" := example_channels]> example_wire.

(** The values the unit conversions produce: a list of floats, and a list
    of [lo, hi] pairs of floats. *)
Definition floats (l : list float) : value := VList (VFloat <$> l).

Definition range (ab : float * float) : value := VList [VFloat ab.1; VFloat ab.2].

Definition ranges (l : list (float * float)) : value := VList (range <$> l).

(** [PulseBackendConfiguration.from_dict(data).control(qubits)]. *)
Definition control_from_wire (data : gmap string value) (qubits : list Z)
    : outcome (list Channel) :=
  cfg ← Pulse_from_dict data; (control cfg qubits).1.

(** The fields of a pulse configuration that neither [from_dict] nor
    [to_dict] converts. *)
Definition Pulse_verbatim : list string :=
  ["backend_name"; "backend_version"; "n_qubits"; "basis_gates"; "local";
   "simulator"; "conditional"; "open_pulse"; "memory"; "max_shots";
   "coupling_map"; "n_uchannels"; "meas_levels"; "meas_kernels";
   "discriminators"].

(** [PulseBackendConfiguration.from_dict(data).to_dict()]. *)
Definition round_trip (data : gmap string value) : outcome (gmap string value) :=
  cfg ← Pulse_from_dict data; Pulse_to_dict cfg.

(** [PulseBackendConfiguration.from_dict(data).to_dict().get(k)]. *)
Definition round_trip_field (k : string) (data : gmap string value)
    : outcome (option value) :=
  out ← round_trip data; mret (out !! k).

(** A number multiplied by [c] on the way in and by [c'] on the way out. *)
Definition there_and_back (c c' x : float) : float := (x * c * c')%float.

Definition range_there_and_back (c c' : float) (ab : float * float)
    : float * float :=
  (there_and_back c c' ab.1, there_and_back c c' ab.2).

(** [example_wire] with a time step of 0.1 ns. *)
Definition example_wire_tenth : gmap string value :=
  <["dt" := VFloat 0.1]> example_wire.

(** The attributes [Qasm__init__] may set. *)
Definition Qasm_attributes : list string :=
  (Qasm_required ++ Qasm_optional.*1)%list.

(** The keys [Qasm_to_dict] writes from attributes. *)
Definition Qasm_emitted : list string :=
  ["backend_name"; "backend_version"; "n_qubits"; "basis_gates"; "gates";
   "local"; "simulator"; "conditional"; "open_pulse"; "memory"; "max_shots";
   "coupling_map"; "dynamic_reprate_enabled"; "supported_instructions";
   "rep_delay_range"; "default_rep_delay"; "max_experiments"; "sample_name";
   "n_registers"; "register_map"; "configurable"; "credits_required";
   "online_date"; "display_name"; "description"; "tags"; "dt"; "dtm";
   "processor_type"; "parametric_pulses"].

(** The attributes [Qasm_to_dict] writes as they are. *)
Definition Qasm_verbatim_required : list string :=
  ["backend_name"; "backend_version"; "n_qubits"; "basis_gates";
   "local"; "simulator"; "conditional"; "open_pulse"; "memory"; "max_shots";
   "coupling_map"; "dynamic_reprate_enabled"].

Definition Qasm_verbatim_optional : list string :=
  ["supported_instructions"; "max_experiments"; "sample_name"; "n_registers";
   "register_map"; "configurable"; "credits_required"; "online_date";
   "display_name"; "description"; "tags"; "processor_type";
   "parametric_pulses"].

(** What [Qasm_to_dict] needs of an instance. *)
Definition Qasm_serialisable (self : Instance) : Prop :=
  (forall k, k ∈ Qasm_verbatim_required -> is_Some (getattr_opt self k)) /\
  (exists gs ds, getattr_opt self "gates" = Some (VList gs) /\
     mapM GateConfig_to_dict gs = Ok ds) /\
  (forall v, getattr_opt self "rep_delay_range" = Some v -> exists l, v = floats l) /\
  (forall v, getattr_opt self "default_rep_delay" = Some v -> exists f, v = VFloat f) /\
  (forall k, k ∈ ["dt"; "dtm"] ->
     _data self !! k = None /\
     forall v, attrs self !! k = Some v -> exists f, v = VFloat f) /\
  (forall k v, k ∈ ["qubit_lo_range"; "meas_lo_range"] ->
     _data self !! k = Some v -> exists l, v = ranges l).

(** The keys [Pulse_to_dict] writes itself. *)
Definition Pulse_written : list string :=
  ["n_uchannels"; "u_channel_lo"; "meas_levels"; "qubit_lo_range";
   "meas_lo_range"; "meas_kernels"; "discriminators"; "rep_times"; "dt";
   "dtm"; "channel_bandwidth"; "meas_map"; "acquisition_latency";
   "conditional_latency"; "hamiltonian"; "channels"].

(** What [Pulse_to_dict] needs of an instance. *)
Definition Pulse_serialisable (self : Instance) : Prop :=
  Qasm_serialisable self /\
  _data self !! "channels" = None /\
  (exists us cs, getattr_opt self "u_channel_lo" = Some (VList us) /\
     mapM u_channel_lo_to_dict us = Ok cs) /\
  (forall k, k ∈ ["n_uchannels"; "meas_levels"; "meas_kernels"; "discriminators"] ->
     is_Some (getattr_opt self k)) /\
  (forall k, k ∈ ["qubit_lo_range"; "meas_lo_range"] ->
     exists l, getattr_opt self k = Some (ranges l)) /\
  (exists l, getattr_opt self "rep_times" = Some (floats l)) /\
  (forall k, k ∈ ["dt"; "dtm"] -> exists f, getattr_opt self k = Some (VFloat f)) /\
  (forall v, getattr_opt self "channel_bandwidth" = Some v -> exists l, v = ranges l) /\
  (exists h, getattr_opt self "hamiltonian" = Some h /\
     (truthy h = true -> exists h', scale_hamiltonian 1e-9 h = Ok h')).

(** The entries of a scaled [vars]: the numbers are floats. *)
Definition scaled_entry (kv : string * value) : Prop :=
  is_number kv.2 = true -> exists f, kv.2 = VFloat f.

(** The parameters of [PulseBackendConfiguration.__init__]. *)
Definition Pulse_attributes : list string :=
  (Pulse_required ++ Pulse_optional.*1)%list.

(** The keyword arguments of a constructor call: [example_wire] with an
    empty list of gates. *)
Definition example_keywords : gmap string value :=
  <["gates" := VList []]> example_wire.

(** Whether a call returned. *)
Definition is_Ok {A : Type} (r : outcome A) : bool :=
  match r with
  | Ok _ => true
  | Raise _ => false
  end.

End BackendConfig.

(** * More of the runtime job *)

Module RuntimeJobQueries.
Import RuntimeJob.

(** [RuntimeJobV2.running]. *)
Definition running : M bool :=
  let* st := status in ret (String.eqb st "RUNNING").

(** [k] rounds of the polling loop, newest first: each one is a sleep of
    0.1 s followed by a status round trip. *)
Definition wait_trace (k : nat) : list event :=
  concat (repeat [EvJobGet; EvSleep (1 # 10)] k).

(** What a run of [wait_for_final_state] from [m] to [m'] does to the
    outside: the same client, and either nothing, or one status round trip
    followed by rounds of the polling loop. *)
Definition waited (m m' : Machine) : Prop :=
  api m' = api m /\
  (trace m' = trace m \/
   exists k, trace m' = (wait_trace k ++ EvJobGet :: trace m)%list).

(** The number of times the raw result was fetched, and of cancel calls. *)
Definition is_job_results (ev : event) : bool :=
  match ev with EvJobResults => true | _ => false end.

Definition is_job_cancel (ev : event) : bool :=
  match ev with EvJobCancel => true | _ => false end.

Definition fetches (m : Machine) : nat :=
  length (List.filter is_job_results (trace m)).

Definition cancels (m : Machine) : nat :=
  length (List.filter is_job_cancel (trace m)).

(** A [RequestsApiError], the exception of a failed round trip. *)
Definition is_transport_error (e : exn) : bool :=
  match e with RequestsApiError _ _ => true | _ => false end.

(** A service whose first status round trip takes two seconds and reports
    [first]. *)
Definition slow_client (first : string) : RuntimeClient :=
  {| job_get := fun _ => inl (example_reply first);
     job_get_latency := fun _ => 2%Q;
     job_results := inl None;
     job_cancel := inl tt |}.

Definition slow_machine (first : string) : Machine :=
  {| self := example_job; api := slow_client first; now := 0%Q; trace := [] |}.

End RuntimeJobQueries.

(** * Queries on the channel maps *)

Module ChannelQueries.
Import BackendConfig.

(** [isinstance(ch, ControlChannel)]. *)
Definition is_control_channel (ch : Channel) : bool :=
  match ch with ControlChannel _ => true | _ => false end.



(** The entries of a [defaultdict(list)] read like those of the [dict] made
    of it: a missing key has no entries. *)
Definition entries {K V : Type} `{EqDecision K} (k : K) (d : list (K * list V))
    : list V :=
  default [] (dd_lookup k d).

(** [channels.update(value)] on a set of channels, kept as a list without
    duplicates in the order of first insertion. *)
Definition set_update (channels value : list Channel) : list Channel :=
  foldl (fun acc ch => if bool_decide (ch ∈ acc) then acc else (acc ++ [ch])%list)
    channels value.

(** How [get_qubit_channels] fails: with the [BackendConfigurationError]
    that the qubit was not found, or with another exception. *)
Inductive QubitLookupError : Type :=
| QubitNotFound (qubit : Z + list Z)
| LookupRaised (e : exn).

(** [PulseBackendConfiguration.get_qubit_channels] for an [int] or for a
    list or tuple of them.  The result is [list(channels)] of a set: the
    model has the channels in the order of first insertion, Python in the
    order of the set. *)
Definition get_qubit_channels (self : Instance) (qubit : Z + list Z)
    : QubitLookupError + list Channel :=
  match _qubit_channel_map self with
  | Some d =>
      match qubit with
      | inl q =>
          let channels :=
            foldl (fun acc (kv : list Z * list Channel) =>
                     if bool_decide (q ∈ kv.1) then set_update acc kv.2 else acc)
              [] d in
          if bool_decide (channels = []) then inl (QubitNotFound qubit)
          else inr channels
      | inr qs =>
          match dd_lookup qs d with
          | Some value => inr (set_update [] value)
          | None => inl (QubitNotFound qubit)
          end
      end
  | None =>
      let no_information :=
        match getattr self "backend_name" with
        | Ok backend_name =>
            inl (LookupRaised
                   (BackendConfigurationError (NoChannelInformation backend_name)))
        | Raise e => inl (LookupRaised e)
        end in
      match _data self !! "_qubit_channel_map", qubit with
      | None, _ => no_information
      | Some (VDict []), inl _ => inl (QubitNotFound qubit)
      | Some (VDict (_ :: _)), inl _ =>
          inl (LookupRaised
                 (TypeError "'in <string>' requires string as left operand, not int"))
      | Some (VDict _), inr _ => inl (QubitNotFound qubit)
      | Some _, inl _ => no_information
      | Some _, inr _ =>
          inl (LookupRaised (TypeError "object is not subscriptable by a tuple"))
      end
  end.

(** What the three maps of [_parse_channels] have to do with each other. *)
Definition consistent (maps : ChannelMaps) : Prop :=
  NoDup (qubit_channel_map maps).*1 /\
  (forall qs, entries qs (control_channels maps) =
     List.filter is_control_channel (entries qs (qubit_channel_map maps))) /\
  (forall qs l, dd_lookup qs (qubit_channel_map maps) = Some l -> l ≠ []) /\
  (forall qs l, dd_lookup qs (control_channels maps) = Some l -> l ≠ []) /\
  (forall qs ch, ch ∈ entries qs (qubit_channel_map maps) ->
     is_Some (dd_lookup ch (channel_qubit_map maps))) /\
  (forall qs ch q, ch ∈ entries qs (qubit_channel_map maps) -> q ∈ qs ->
     q ∈ entries ch (channel_qubit_map maps)) /\
  (forall ch q, q ∈ entries ch (channel_qubit_map maps) ->
     exists qs, q ∈ qs /\ ch ∈ entries qs (qubit_channel_map maps)).

End ChannelQueries.

(** * Reading a configuration *)

Module ConfigAccess.
Import BackendConfig.
Local Open Scope float_scope.

(** [QasmBackendConfiguration.__contains__]: [item in self.__dict__], for
    an object whose [__init__] has run, so that [_data] is an attribute of
    the instance. *)
Definition contains (self : Instance) (item : string) : bool :=
  bool_decide (is_Some (attrs self !! item))
  || String.eqb item "_data"
  || (String.eqb item "_qubit_channel_map"
      && bool_decide (is_Some (_qubit_channel_map self)))
  || (String.eqb item "_channel_qubit_map"
      && bool_decide (is_Some (_channel_qubit_map self)))
  || (String.eqb item "_control_channels"
      && bool_decide (is_Some (_control_channels self))).

(** [QasmBackendConfiguration.num_qubits]. *)
Definition num_qubits (self : Instance) : outcome value := getattr self "n_qubits".

(** The public names [QasmBackendConfiguration] defines itself: Python
    finds them on the class, and [__getattr__] is not called for them. *)
Definition Qasm_class_names : list string := ["from_dict"; "to_dict"; "num_qubits"].

(** A name that starts with an underscore: [_data], and the special names
    of the class and of [object], are among these. *)
Definition is_private (name : string) : bool :=
  match name with
  | String "_" _ => true
  | _ => false
  end.

(** [QasmBackendConfiguration.from_dict(data).to_dict()]. *)
Definition Qasm_round_trip (data : gmap string value) : outcome (gmap string value) :=
  cfg ← Qasm_from_dict data; Qasm_to_dict cfg.

(** What a variable of the hamiltonian comes back as when it is scaled by
    [c] and then by [c']: a number as a float, anything else as it is. *)
Definition scaled_var (c c' : float) (v : value) : outcome value :=
  if is_number v then f ← as_float v; mret (VFloat (f * c * c')) else mret v.

(** [example_wire] with a hamiltonian. *)
Definition example_hamiltonian : list (string * value) :=
  [("h_str", VList [VStr "wq0*Z0"]);
   ("vars", VDict [("wq0", VFloat 5); ("label", VStr "q0"); ("delta", VInt 2)])].

Definition example_wire_with_hamiltonian : gmap string value :=
  <["hamiltonian" := VDict example_hamiltonian]> example_wire.

End ConfigAccess.

(** * The REST adapters *)

Module RestAdapter.
Import BackendConfig.

(** The two header sets of [RestAdapterBase]. *)
Inductive Headers : Type := HEADER_JSON_CONTENT | HEADER_JSON_ACCEPT.

(** A request handed to the session: [session.post(url, data=..., ...)] or
    [session.get(url, params=..., ...)].  [endpoint] is the identifier
    given to [get_url]; [body] is the payload before [json.dumps] (for a
    POST) or the query parameters (for a GET), in insertion order. *)
Record Request : Type := {
  is_post : bool;
  endpoint : string;
  body : list (string * value);
  timeout : option Z;
  headers : Headers;
}.

(** [if c: payload[k] = v]. *)
Definition put_when (c : bool) (k : string) (v : value)
    (payload : list (string * value)) : list (string * value) :=
  if c then alist_set k v payload else payload.

(** The arguments of [Runtime.program_run]. *)
Record ProgramRun : Type := {
  program_id : value;
  backend_name : value;
  params : value;
  image : value;
  log_level : value;
  session_id : value;
  job_tags : value;
  max_execution_time : value;
  start_session : value;
  session_time : value;
  private : value;
}.

(** [Runtime.program_run]: the request it posts; its result is the JSON
    body of the reply. *)
Definition program_run (a : ProgramRun) : Request :=
  let payload := [("program_id", program_id a); ("params", params a)] in
  let payload := put_when (truthy (image a)) "runtime" (image a) payload in
  let payload := put_when (truthy (log_level a)) "log_level" (log_level a) payload in
  let payload := put_when (truthy (backend_name a)) "backend" (backend_name a) payload in
  let payload := put_when (truthy (session_id a)) "session_id" (session_id a) payload in
  let payload := put_when (truthy (job_tags a)) "tags" (job_tags a) payload in
  let payload :=
    put_when (truthy (max_execution_time a)) "cost" (max_execution_time a) payload in
  let payload :=
    if truthy (start_session a)
    then alist_set "session_time" (session_time a)
           (alist_set "start_session" (start_session a) payload)
    else payload in
  let payload := put_when (truthy (private a)) "private" (VBool true) payload in
  {| is_post := true; endpoint := "jobs"; body := payload; timeout := Some 900%Z;
     headers := HEADER_JSON_CONTENT |}.

(** The arguments of [Runtime.jobs_get]; a date is a [datetime] object. *)
Record JobsGet : Type := {
  limit : value;
  skip : value;
  jg_backend_name : value;
  pending : value;
  jg_program_id : value;
  jg_job_tags : value;
  jg_session_id : value;
  created_after : value;
  created_before : value;
  descending : value;
}.

(** [descending is False]. *)
Definition is_False (v : value) : bool :=
  match v with VBool false => true | _ => false end.

(** [Runtime.jobs_get]: the request it sends; [isoformat_utc d] stands for
    [local_to_utc(d).isoformat()]. *)
Definition jobs_get (isoformat_utc : value -> string) (a : JobsGet) : Request :=
  let payload := [("exclude_params", VBool false)] in
  let payload := put_when (truthy (limit a)) "limit" (limit a) payload in
  let payload := put_when (truthy (skip a)) "offset" (skip a) payload in
  let payload :=
    put_when (truthy (jg_backend_name a)) "backend" (jg_backend_name a) payload in
  let payload :=
    put_when (is_not_None (pending a)) "pending"
      (VStr (if truthy (pending a) then "true" else "false")) payload in
  let payload :=
    put_when (truthy (jg_program_id a)) "program" (jg_program_id a) payload in
  let payload := put_when (truthy (jg_job_tags a)) "tags" (jg_job_tags a) payload in
  let payload :=
    put_when (truthy (jg_session_id a)) "session_id" (jg_session_id a) payload in
  let payload :=
    put_when (truthy (created_after a)) "created_after"
      (VStr (isoformat_utc (created_after a))) payload in
  let payload :=
    put_when (truthy (created_before a)) "created_before"
      (VStr (isoformat_utc (created_before a))) payload in
  let payload := put_when (is_False (descending a)) "sort" (VStr "ASC") payload in
  {| is_post := false; endpoint := "jobs"; body := payload; timeout := None;
     headers := HEADER_JSON_ACCEPT |}.

(** [Api.version] on a reply whose body parses as [json] ([None] when
    [response.json()] raises [JSONDecodeError]) and whose text is [text].
    Item assignment on a JSON value that is no object raises [TypeError];
    its message, which names the type, is abridged. *)
Definition version (json : option value) (text : string) : outcome value :=
  match json with
  | Some (VDict version_info) =>
      Ok (VDict (alist_set "new_api" (VBool true) version_info))
  | Some _ => Raise (TypeError "object does not support item assignment")
  | None => Ok (VDict [("new_api", VBool false); ("api", VStr text)])
  end.

End RestAdapter.

(** * Properties of the runtime job *)

Module RuntimeJobFacts.
Import RuntimeJob.

(** ** Status mapping *)

Lemma API_TO_JOB_STATUS_other (u : string) :
  u ∉ ["QUEUED"; "RUNNING"; "COMPLETED"; "FAILED"; "CANCELLED"] ->
  API_TO_JOB_STATUS !! u = None.
Proof.
  intros Hu. unfold API_TO_JOB_STATUS.
  rewrite !lookup_insert_ne; [apply lookup_empty | ..];
    intros Heq; apply Hu; rewrite <- Heq; set_solver.
Qed.

(** C1: the upper-cased state string is mapped QUEUED, RUNNING, COMPLETED,
    FAILED, CANCELLED to QUEUED, RUNNING, DONE, ERROR, CANCELLED; CANCELLED
    with the recorded reason code 1305 becomes ERROR; any other upper-cased
    string is returned as it is. *)
Theorem status_from_job_response_mapping
    (j : Job) (response : Response) (u : string) :
  upper (state_status response) = u ->
  (u = "QUEUED" -> _status_from_job_response j response = "QUEUED") /\
  (u = "RUNNING" -> _status_from_job_response j response = "RUNNING") /\
  (u = "COMPLETED" -> _status_from_job_response j response = "DONE") /\
  (u = "FAILED" -> _status_from_job_response j response = "ERROR") /\
  (u = "CANCELLED" -> _reason_code j <> Some 1305%Z ->
     _status_from_job_response j response = "CANCELLED") /\
  (u = "CANCELLED" -> _reason_code j = Some 1305%Z ->
     _status_from_job_response j response = "ERROR") /\
  (u ∉ ["QUEUED"; "RUNNING"; "COMPLETED"; "FAILED"; "CANCELLED"] ->
     _status_from_job_response j response = u).
Proof.
  intros Hu. unfold _status_from_job_response. rewrite Hu.
  repeat split.
  1-4: intros ->; reflexivity.
  - intros -> Hrc. simpl.
    destruct (_reason_code j) as [c|]; simpl; [|reflexivity].
    destruct (Z.eqb_spec c 1305); [congruence | reflexivity].
  - intros -> Hrc. rewrite Hrc. reflexivity.
  - intros Hother. rewrite API_TO_JOB_STATUS_other by exact Hother. reflexivity.
Qed.

Lemma status_from_job_response_mapping_witness :
  _status_from_job_response job0
    {| state_status := "Cancelled"; state_reason := None;
       state_reason_code := None |} = "ERROR".
Proof.
  refine (proj1 (proj2 (proj2 (proj2 (proj2 (proj2
    (status_from_job_response_mapping job0 _ "CANCELLED" _)))))) _ _);
    reflexivity.
Defined.

(** ** The status refresh *)

Lemma status_final (m : Machine) :
  in_final_states (_status (self m)) = true ->
  status m = Returns (_status (self m)) m.
Proof.
  intros Hfin. unfold status, _set_status_and_error_message, bind, get_self, ret.
  rewrite Hfin. reflexivity.
Qed.

Lemma status_nonfinal (m : Machine) :
  in_final_states (_status (self m)) = false ->
  status m =
    let m' := tick (job_get_latency (api m) (polls m)) EvJobGet m in
    match job_get (api m) (polls m) with
    | inl r => Returns (_status (refresh r (self m)))
                 (with_self (refresh r (self m)) m')
    | inr f => Raises (exn_of_failure f) m'
    end.
Proof.
  intros Hfin.
  unfold status, _set_status_and_error_message, bind, get_self, ret, api_job_get.
  rewrite Hfin. simpl.
  destruct (job_get (api m) (polls m)); reflexivity.
Qed.

Lemma polls_tick_job_get (d : Q) (m : Machine) :
  polls (tick d EvJobGet m) = S (polls m).
Proof. reflexivity. Qed.

Lemma polls_with_self (j : Job) (m : Machine) : polls (with_self j m) = polls m.
Proof. reflexivity. Qed.

(** C3: a terminal status is cached: once [status()] has returned DONE,
    CANCELLED or ERROR, any number of further calls return the same value
    and leave the machine (in particular the trace of round trips) as it
    was; a call on a job whose cached status is not terminal makes exactly
    one status round trip, whether it returns or raises. *)
Theorem status_terminal_is_cached (m0 m1 : Machine) (st : string) (n : nat) :
  (status m0 = Returns st m1 -> in_final_states st = true ->
     Nat.iter n status_again (Returns st m1) = Returns st m1 /\
     status m1 = Returns st m1) /\
  (in_final_states (_status (self m0)) = false ->
     (exists st' m', status m0 = Returns st' m' /\ polls m' = S (polls m0)
                     /\ trace m' = EvJobGet :: trace m0) \/
     (exists e m', status m0 = Raises e m' /\ polls m' = S (polls m0)
                   /\ trace m' = EvJobGet :: trace m0)).
Proof.
  split.
  - intros Hst Hfin.
    assert (Hcached : _status (self m1) = st).
    { destruct (in_final_states (_status (self m0))) eqn:H0.
      - rewrite status_final in Hst by exact H0. congruence.
      - rewrite status_nonfinal in Hst by exact H0. cbv zeta in Hst.
        destruct (job_get (api m0) (polls m0)); inversion Hst; reflexivity. }
    assert (Hone : status m1 = Returns st m1).
    { rewrite status_final; rewrite Hcached; [reflexivity | exact Hfin]. }
    split; [|exact Hone].
    induction n as [|n IH]; [reflexivity|].
    simpl. rewrite IH. exact Hone.
  - intros Hnon. rewrite status_nonfinal by exact Hnon. cbv zeta.
    destruct (job_get (api m0) (polls m0)) as [r|f]; [left | right];
      eexists _, _; (split; [reflexivity|]); split; reflexivity.
Qed.

Lemma status_terminal_is_cached_witness :
  exists m1, status (example_machine 0 "Completed" None) = Returns "DONE" m1 /\
    Nat.iter 3 status_again (Returns "DONE" m1) = Returns "DONE" m1 /\
    status m1 = Returns "DONE" m1.
Proof.
  destruct (status (example_machine 0 "Completed" None)) as [st m1|e m1|] eqn:E.
  - pose proof E as E'. vm_compute in E'. injection E' as Hst _. subst st.
    exists m1. split; [reflexivity|].
    apply (proj1 (status_terminal_is_cached _ m1 "DONE" 3) E). reflexivity.
  - vm_compute in E. discriminate.
  - vm_compute in E. discriminate.
Defined.

(** ** The polling loop *)

Local Open Scope Q_scope.




Lemma timed_out_proper (t : option Q) (a b : Q) :
  a == b -> timed_out t a = timed_out t b.
Proof.
  intros Hab. destruct t as [T|]; [|reflexivity]. simpl.
  apply eq_true_iff_eq. rewrite !Qle_bool_iff, Hab. reflexivity.
Qed.


Lemma timed_out_true_le (T e : Q) : T <= e -> timed_out (Some T) e = true.
Proof. intros Hle. simpl. apply Qle_bool_iff. exact Hle. Qed.

Lemma refresh_final (r : Response) (j : Job) :
  in_final_states (_status (refresh r j)) = reply_final r.
Proof.
  unfold refresh, reply_final, _status_from_job_response. cbn [_status set_error_message set_status].
  destruct (API_TO_JOB_STATUS !! upper (state_status r)) as [mapped|]; [|reflexivity].
  destruct (String.eqb_spec mapped "CANCELLED") as [->|Hne]; simpl.
  - destruct (is_max_time _); reflexivity.
  - reflexivity.
Qed.

Lemma refresh_decoder (r : Response) (j : Job) :
  _final_result_decoder (refresh r j) = _final_result_decoder j.
Proof. unfold refresh. destruct (state_reason r); reflexivity. Qed.

Lemma refresh_job_id (r : Response) (j : Job) : job_id (refresh r j) = job_id j.
Proof. unfold refresh. destruct (state_reason r); reflexivity. Qed.




Lemma poll_step_now (m : Machine) :
  now (poll_step m) = (now m + job_get_latency (api m) (polls m))%Q.
Proof. unfold poll_step. destruct (job_get _ _); reflexivity. Qed.

Lemma poll_step_final (fin : bool) (m : Machine) :
  reply_is fin (api m) (polls m) ->
  in_final_states (_status (self (poll_step m))) = fin.
Proof.
  intros (r & Hr & Hfin). unfold poll_step. rewrite Hr.
  cbn [self with_self]. rewrite refresh_final. exact Hfin.
Qed.

Lemma poll_step_decoder (m : Machine) :
  _final_result_decoder (self (poll_step m)) = _final_result_decoder (self m).
Proof.
  unfold poll_step. destruct (job_get _ _); [apply refresh_decoder | reflexivity].
Qed.

Lemma status_poll (fin : bool) (m : Machine) :
  in_final_states (_status (self m)) = false ->
  reply_is fin (api m) (polls m) ->
  status m = Returns (_status (self (poll_step m))) (poll_step m).
Proof.
  intros Hnon (r & Hr & _). rewrite status_nonfinal by exact Hnon.
  unfold poll_step. cbv zeta. rewrite Hr. reflexivity.
Qed.





Lemma rounds_decoder (k : nat) (m : Machine) :
  _final_result_decoder (self (rounds k m)) = _final_result_decoder (self m).
Proof.
  induction k as [|k IH]; [reflexivity|].
  unfold rounds in *. simpl. rewrite poll_step_decoder. exact IH.
Qed.


Lemma wait_loop_final (fuel : nat) (t : option Q) (s : Q) (st : string) (m : Machine) :
  in_final_states st = true -> wait_loop fuel t s st m = Returns tt m.
Proof. intros Hfin. destruct fuel; simpl; rewrite Hfin; reflexivity. Qed.

Lemma wait_loop_step (fuel : nat) (t : option Q) (s : Q) (st : string) (m : Machine) :
  in_final_states st = false ->
  wait_loop (S fuel) t s st m =
    if timed_out t (now m - s) then Raises (RuntimeJobTimeoutError t) m
    else match status (sleep_step m) with
         | Returns st' m' => wait_loop fuel t s st' m'
         | Raises e m' => Raises e m'
         | Diverges => Diverges
         end.
Proof.
  intros Hnon. simpl. rewrite Hnon.
  unfold bind, time_time, time_sleep, raise.
  destruct (timed_out t (now m - s)); reflexivity.
Qed.



Lemma wait_for_final_state_unfold (fuel : nat) (timeout : option Q) (fin : bool)
    (m : Machine) :
  in_final_states (_status (self m)) = false ->
  reply_is fin (api m) (polls m) ->
  wait_for_final_state fuel timeout m =
    match wait_loop fuel timeout (now m) (_status (self (poll_step m))) (poll_step m) with
    | Raises FuturesTimeoutError m' => Raises (RuntimeJobTimeoutError timeout) m'
    | r => r
    end.
Proof.
  intros Hnon Hreply.
  unfold wait_for_final_state, except_futures_timeout, bind, time_time.
  rewrite (status_poll fin m) by assumption. reflexivity.
Qed.

(** A job whose cached status is terminal is not polled at all. *)
Lemma wait_for_final_state_already_final (fuel : nat) (timeout : option Q) (m : Machine) :
  in_final_states (_status (self m)) = true ->
  wait_for_final_state fuel timeout m = Returns tt m.
Proof.
  intros Hfin.
  unfold wait_for_final_state, except_futures_timeout, bind, time_time.
  rewrite status_final by exact Hfin.
  rewrite wait_loop_final by exact Hfin. reflexivity.
Qed.







(** ** Result retrieval *)

Lemma result_unfold (fuel : nat) (timeout : option Q)
    (decoder : option ResultDecoder) (m : Machine) :
  result fuel timeout decoder m =
    match wait_for_final_state fuel timeout m with
    | Returns _ m1 =>
        let j := self m1 in
        if String.eqb (_status j) "ERROR" then
          if is_max_time (_reason_code j)
          then Raises (RuntimeJobMaxTimeoutError (error_message_of j)) m1
          else Raises (RuntimeJobFailureError
                         ("Unable to retrieve job result. "
                          ++ py_str (error_message_of j))) m1
        else if String.eqb (_status j) "CANCELLED" then
          Raises (RuntimeInvalidStateError
                    ("Unable to retrieve result for job " ++ job_id j
                     ++ ". Job was cancelled.")) m1
        else
          match job_results (api m1) with
          | inl result_raw =>
              if truthy_str result_raw
              then decode (decoder_or decoder (self m)) (py_str result_raw)
                     (tick 0 EvJobResults m1)
              else Returns VNone (tick 0 EvJobResults m1)
          | inr e => Raises (exn_of_api_error e) (tick 0 EvJobResults m1)
          end
    | Raises e m1 => Raises e m1
    | Diverges => Diverges
    end.
Proof.
  unfold result, bind, get_self.
  destruct (wait_for_final_state fuel timeout m) as [[] m1|e m1|]; try reflexivity.
  cbv zeta.
  destruct (String.eqb (_status (self m1)) "ERROR").
  - destruct (is_max_time _); reflexivity.
  - destruct (String.eqb (_status (self m1)) "CANCELLED"); [reflexivity|].
    unfold api_job_results, ret.
    destruct (job_results (api m1)) as [raw|e]; [|reflexivity].
    destruct (truthy_str raw); reflexivity.
Qed.




Lemma status_decodes (m m' : Machine) (st : string) :
  status m = Returns st m' -> decodes (trace m') = decodes (trace m).
Proof.
  destruct (in_final_states (_status (self m))) eqn:Hfin.
  - rewrite status_final by exact Hfin. intros [= _ <-]. reflexivity.
  - rewrite status_nonfinal by exact Hfin. cbv zeta.
    destruct (job_get (api m) (polls m)); [|discriminate].
    intros [= _ <-]. reflexivity.
Qed.

Lemma wait_loop_decodes (fuel : nat) :
  forall (t : option Q) (s : Q) (st : string) (m m' : Machine),
    wait_loop fuel t s st m = Returns tt m' ->
    decodes (trace m') = decodes (trace m).
Proof.
  induction fuel as [|fuel IH]; intros t s st m m';
    destruct (in_final_states st) eqn:Hfin.
  - rewrite wait_loop_final by exact Hfin. intros [= <-]. reflexivity.
  - simpl. rewrite Hfin. discriminate.
  - rewrite wait_loop_final by exact Hfin. intros [= <-]. reflexivity.
  - rewrite wait_loop_step by exact Hfin.
    destruct (timed_out t (now m - s)); [discriminate|].
    destruct (status (sleep_step m)) as [st' m1|e m1|] eqn:Hst; try discriminate.
    intros Hrun. rewrite (IH _ _ _ _ _ Hrun).
    rewrite (status_decodes _ _ _ Hst). reflexivity.
Qed.

Lemma wait_for_final_state_decodes (fuel : nat) (t : option Q) (m m' : Machine) :
  wait_for_final_state fuel t m = Returns tt m' ->
  decodes (trace m') = decodes (trace m).
Proof.
  unfold wait_for_final_state, except_futures_timeout, bind, time_time.
  destruct (status m) as [st m1|e m1|] eqn:Hst.
  - destruct (wait_loop fuel t (now m) st m1) as [[] m2|e m2|] eqn:Hloop.
    + intros [= <-]. rewrite (wait_loop_decodes _ _ _ _ _ _ Hloop).
      apply (status_decodes _ _ _ Hst).
    + destruct e; discriminate.
    + discriminate.
  - destruct e; discriminate.
  - discriminate.
Qed.

(** C6: for a job whose wait ends in a status other than ERROR and
    CANCELLED, an empty or absent raw payload makes [result()] return [None]
    without any call of a decoder, and a non-empty payload makes it return
    (or raise) exactly what the decoder gives on the payload, the decoder
    being the explicit argument when there is one and the job's own
    otherwise. *)
Theorem result_decodes_payload (fuel : nat) (timeout : option Q)
    (decoder : option ResultDecoder) (m m1 : Machine) (raw : option string) :
  wait_for_final_state fuel timeout m = Returns tt m1 ->
  _status (self m1) <> "ERROR" ->
  _status (self m1) <> "CANCELLED" ->
  job_results (api m1) = inl raw ->
  let _decoder :=
    match decoder with
    | Some d => d
    | None => _final_result_decoder (self m)
    end in
  (truthy_str raw = false ->
     exists m2, result fuel timeout decoder m = Returns VNone m2 /\
       decodes (trace m2) = decodes (trace m)) /\
  (truthy_str raw = true ->
     exists payload m2, raw = Some payload /\
       decodes (trace m2) = payload :: decodes (trace m) /\
       result fuel timeout decoder m =
         match _decoder payload with
         | inl v => Returns v m2
         | inr msg => Raises (DecodeError msg) m2
         end).
Proof.
  intros Hwait Herr Hcan Hraw _decoder.
  rewrite result_unfold, Hwait. cbv zeta.
  destruct (String.eqb_spec (_status (self m1)) "ERROR"); [contradiction|].
  destruct (String.eqb_spec (_status (self m1)) "CANCELLED"); [contradiction|].
  rewrite Hraw. split; intros Htruthy; rewrite Htruthy.
  - eexists. split; [reflexivity|]. simpl.
    apply (wait_for_final_state_decodes _ _ _ _ Hwait).
  - destruct raw as [payload|]; [|discriminate].
    exists payload, (tick 0 (EvDecode payload) (tick 0 EvJobResults m1)).
    split; [reflexivity|]. split.
    + simpl. f_equal. apply (wait_for_final_state_decodes _ _ _ _ Hwait).
    + unfold decode, decoder_or, _decoder. simpl.
      destruct decoder as [d|]; reflexivity.
Qed.

Lemma result_decodes_payload_witness :
  exists m2,
    result 5 None None (example_machine 2 "Completed" (Some "payload"))
      = Returns (VStr "payload") m2.
Proof.
  destruct (wait_for_final_state 5 None
              (example_machine 2 "Completed" (Some "payload")))
    as [[] m1|e m1|] eqn:E.
  - pose proof E as E'. vm_compute in E'. injection E' as Hm1.
    assert (H1 : _status (self m1) <> "ERROR")
      by (rewrite <- Hm1; vm_compute; discriminate).
    assert (H2 : _status (self m1) <> "CANCELLED")
      by (rewrite <- Hm1; vm_compute; discriminate).
    assert (H3 : job_results (api m1) = inl (Some "payload"))
      by (rewrite <- Hm1; reflexivity).
    destruct (proj2 (result_decodes_payload 5 None None _ m1 (Some "payload")
                       E H1 H2 H3) eq_refl)
      as (payload & m2 & Hp & _ & Hres).
    injection Hp as <-. exists m2. exact Hres.
  - vm_compute in E. discriminate.
  - vm_compute in E. discriminate.
Defined.

(** ** Cancellation *)

(** C5: [cancel()] raises [RuntimeInvalidStateError] exactly when the
    transport's cancel fails with status code 409, raises [IBMRuntimeError]
    for a transport failure with any other code, and when the transport
    succeeds sets the status to CANCELLED at once, so that [cancelled()]
    returns [True] with no further round trip. *)
Theorem cancel_maps_transport_outcome (m : Machine) :
  ((exists msg m', cancel m = Raises (RuntimeInvalidStateError msg) m') <->
   (exists e, job_cancel (api m) = inr e /\ status_code e = 409%Z)) /\
  (forall e, job_cancel (api m) = inr e -> status_code e <> 409%Z ->
     cancel m = Raises (IBMRuntimeError ("Failed to cancel job: " ++ message e))
                  (tick 0 EvJobCancel m)) /\
  (forall u, job_cancel (api m) = inl u ->
     exists m', cancel m = Returns tt m' /\
       _status (self m') = "CANCELLED" /\
       polls m' = polls m /\
       cancelled m' = Returns true m').
Proof.
  unfold cancel, api_job_cancel. repeat split.
  - intros (msg & m' & Hrun).
    destruct (job_cancel (api m)) as [u|e]; [discriminate|].
    exists e. split; [reflexivity|]. simpl in Hrun.
    destruct (Z.eqb_spec (status_code e) 409); [assumption | discriminate].
  - intros (e & He & Hcode). rewrite He. simpl. rewrite Hcode. simpl.
    eexists _, _. reflexivity.
  - intros e He Hcode. rewrite He. simpl.
    destruct (Z.eqb_spec (status_code e) 409); [contradiction | reflexivity].
  - intros u Hu. rewrite Hu. eexists. split; [reflexivity|].
    split; [reflexivity|]. split; [reflexivity|].
    unfold cancelled, bind. rewrite status_final by reflexivity. reflexivity.
Qed.

Lemma cancel_maps_transport_outcome_witness :
  exists m', cancel (example_machine 2 "Completed" None) = Returns tt m' /\
    _status (self m') = "CANCELLED" /\
    polls m' = 0%nat /\
    cancelled m' = Returns true m'.
Proof.
  apply (proj2 (proj2 (cancel_maps_transport_outcome
                         (example_machine 2 "Completed" None))) tt).
  reflexivity.
Defined.

End RuntimeJobFacts.

(** * Properties of the backend configuration model *)

Module BackendConfigFacts.
Import BackendConfig.

Local Open Scope float_scope.

(** ** The fallible steps *)

Lemma bind_Ok {A B : Type} (m : outcome A) (f : A -> outcome B) (b : B) :
  m ≫= f = Ok b -> exists a, m = Ok a /\ f a = Ok b.
Proof. destruct m as [a|e]; simpl; [eauto | discriminate]. Qed.

Lemma fmap_bind_Ok {A B : Type} (m : outcome A) (f : A -> outcome B) (a : A) :
  m = Ok a -> m ≫= f = f a.
Proof. intros ->. reflexivity. Qed.

(** ** The unit conversions *)

Lemma mapM_cons_Ok {A B : Type} (f : A -> outcome B) (x : A) (l : list A) (r : list B) :
  mapM f (x :: l) = Ok r ->
  exists y r', f x = Ok y /\ mapM f l = Ok r' /\ r = y :: r'.
Proof.
  simpl. intros H. apply bind_Ok in H as (y & Hy & H).
  apply bind_Ok in H as (r' & Hr' & [= <-]). eauto.
Qed.

Lemma py_mul_VFloat (c f : float) : py_mul c (VFloat f) = Ok (VFloat (f * c)).
Proof. reflexivity. Qed.

Lemma py_mul_Ok_float (c : float) (v w : value) :
  py_mul c v = Ok w -> exists f, w = VFloat f.
Proof.
  unfold py_mul. intros H. apply bind_Ok in H as (f & _ & [= <-]). eauto.
Qed.

Lemma mapM_py_mul_floats (c : float) (l : list float) :
  mapM (py_mul c) (VFloat <$> l) = Ok (VFloat <$> ((fun f => f * c) <$> l)).
Proof.
  induction l as [|f l IH]; [reflexivity|].
  cbn [fmap list_fmap mapM]. rewrite py_mul_VFloat. cbn. rewrite IH. reflexivity.
Qed.

Lemma mapM_py_mul_Ok (c : float) (l r : list value) :
  mapM (py_mul c) l = Ok r -> exists fs, r = VFloat <$> fs.
Proof.
  revert r. induction l as [|x l IH]; intros r.
  - intros [= <-]. exists []. reflexivity.
  - intros H. apply mapM_cons_Ok in H as (y & r' & Hy & Hr' & ->).
    apply py_mul_Ok_float in Hy as (f & ->).
    destruct (IH _ Hr') as (fs & ->). exists (f :: fs). reflexivity.
Qed.

Lemma scale_list_floats (c : float) (l : list float) :
  scale_list c (floats l) = Ok (floats ((fun f => f * c) <$> l)).
Proof.
  unfold scale_list, floats. cbn [py_iter mbind outcome_bind].
  rewrite mapM_py_mul_floats. reflexivity.
Qed.

Lemma scale_list_Ok (c : float) (v w : value) :
  scale_list c v = Ok w -> exists l, w = floats l.
Proof.
  unfold scale_list. intros H. apply bind_Ok in H as (l & _ & H).
  apply bind_Ok in H as (r & Hr & [= <-]).
  apply mapM_py_mul_Ok in Hr as (fs & ->). exists fs. reflexivity.
Qed.

Lemma scale_pair_range (c : float) (ab : float * float) :
  scale_pair c (range ab) = Ok (range (ab.1 * c, ab.2 * c)).
Proof. reflexivity. Qed.

Lemma scale_pair_Ok (c : float) (x w : value) :
  scale_pair c x = Ok w -> exists ab, w = range ab.
Proof.
  unfold scale_pair. intros H. apply bind_Ok in H as ([lo hi] & _ & H).
  apply bind_Ok in H as (lo' & Hlo & H).
  apply bind_Ok in H as (hi' & Hhi & [= <-]).
  apply py_mul_Ok_float in Hlo as (a & ->).
  apply py_mul_Ok_float in Hhi as (b & ->).
  exists (a, b). reflexivity.
Qed.

Lemma mapM_scale_pair_ranges (c : float) (l : list (float * float)) :
  mapM (scale_pair c) (range <$> l) =
    Ok (range <$> ((fun ab : float * float => (ab.1 * c, ab.2 * c)) <$> l)).
Proof.
  induction l as [|ab l IH]; [reflexivity|].
  cbn [fmap list_fmap mapM]. rewrite scale_pair_range. cbn. rewrite IH. reflexivity.
Qed.

Lemma mapM_scale_pair_Ok (c : float) (l r : list value) :
  mapM (scale_pair c) l = Ok r -> exists abs, r = range <$> abs.
Proof.
  revert r. induction l as [|x l IH]; intros r.
  - intros [= <-]. exists []. reflexivity.
  - intros H. apply mapM_cons_Ok in H as (y & r' & Hy & Hr' & ->).
    apply scale_pair_Ok in Hy as (ab & ->).
    destruct (IH _ Hr') as (abs & ->). exists (ab :: abs). reflexivity.
Qed.

Lemma scale_ranges_ranges (c : float) (l : list (float * float)) :
  scale_ranges c (ranges l) =
    Ok (ranges ((fun ab : float * float => (ab.1 * c, ab.2 * c)) <$> l)).
Proof.
  unfold scale_ranges, ranges. cbn [py_iter mbind outcome_bind].
  rewrite mapM_scale_pair_ranges. reflexivity.
Qed.

Lemma scale_ranges_Ok (c : float) (v w : value) :
  scale_ranges c v = Ok w -> exists l, w = ranges l.
Proof.
  unfold scale_ranges. intros H. apply bind_Ok in H as (l & _ & H).
  apply bind_Ok in H as (r & Hr & [= <-]).
  apply mapM_scale_pair_Ok in Hr as (abs & ->). exists abs. reflexivity.
Qed.

(** ** Dictionaries under construction *)

Lemma dict_insert_eq (k : string) (v : value) (m : gmap string value) :
  <[k := v]> m !! k = Some v.
Proof. apply lookup_insert_eq. Qed.

Lemma dict_insert_ne (k k' : string) (v : value) (m : gmap string value) :
  k ≠ k' -> <[k := v]> m !! k' = m !! k'.
Proof. apply lookup_insert_ne. Qed.

Lemma walk_insert_ne (k k' : string) (v : value) (d : gmap string value)
    (r : option value) :
  k ≠ k' -> d !! k' = r -> <[k := v]> d !! k' = r.
Proof. intros Hne <-. apply dict_insert_ne. exact Hne. Qed.

Lemma insert_opt_ne (k k' : string) (o : option value) (d : gmap string value) :
  k ≠ k' -> insert_opt k o d !! k' = d !! k'.
Proof. intros Hne. destruct o; simpl; [apply dict_insert_ne; exact Hne | reflexivity]. Qed.

Lemma insert_opt_eq (k : string) (o : option value) (d : gmap string value) :
  insert_opt k o d !! k = match o with Some v => Some v | None => d !! k end.
Proof. destruct o; simpl; [apply dict_insert_eq | reflexivity]. Qed.

Lemma walk_insert_opt_ne (k k' : string) (o : option value) (d : gmap string value)
    (r : option value) :
  k ≠ k' -> d !! k' = r -> insert_opt k o d !! k' = r.
Proof. intros Hne <-. apply insert_opt_ne. exact Hne. Qed.

Lemma emit_attr_Ok (self : Instance) (k : string) (conv : value -> outcome value)
    (d d' : gmap string value) :
  emit_attr self k conv d = Ok d' ->
  exists o, d' = insert_opt k o d /\
    match getattr_opt self k with
    | Some v => exists v', conv v = Ok v' /\ o = Some v'
    | None => o = None
    end.
Proof.
  unfold emit_attr. destruct (getattr_opt self k) as [v|].
  - intros H. apply bind_Ok in H as (v' & Hv' & [= <-]).
    exists (Some v'). split; [reflexivity | eauto].
  - intros [= <-]. exists None. split; reflexivity.
Qed.

Lemma convert_key_Ok (k : string) (conv : value -> outcome value)
    (d d' : gmap string value) :
  convert_key k conv d = Ok d' ->
  exists o, d' = insert_opt k o d /\
    match d !! k with
    | Some v => exists v', conv v = Ok v' /\ o = Some v'
    | None => o = None
    end.
Proof.
  unfold convert_key. destruct (d !! k) as [v|].
  - intros H. apply bind_Ok in H as (v' & Hv' & [= <-]).
    exists (Some v'). split; [reflexivity | eauto].
  - intros [= <-]. exists None. split; reflexivity.
Qed.

Lemma walk_emit_attr_ne (self : Instance) (k k' : string)
    (conv : value -> outcome value) (d d' : gmap string value) (r : option value) :
  emit_attr self k conv d = Ok d' -> k ≠ k' -> d !! k' = r -> d' !! k' = r.
Proof.
  intros H Hne <-. apply emit_attr_Ok in H as (o & -> & _).
  apply insert_opt_ne. exact Hne.
Qed.

Lemma walk_convert_key_ne (k k' : string) (conv : value -> outcome value)
    (d d' : gmap string value) (r : option value) :
  convert_key k conv d = Ok d' -> k ≠ k' -> d !! k' = r -> d' !! k' = r.
Proof.
  intros H Hne <-. apply convert_key_Ok in H as (o & -> & _).
  apply insert_opt_ne. exact Hne.
Qed.

Lemma convert_key_eq (k : string) (conv : value -> outcome value)
    (d d' : gmap string value) :
  convert_key k conv d = Ok d' ->
  match d !! k with
  | Some v => exists v', conv v = Ok v' /\ d' !! k = Some v'
  | None => d' !! k = None
  end.
Proof.
  intros H. apply convert_key_Ok in H as (o & -> & Ho).
  rewrite insert_opt_eq. destruct (d !! k) as [v|] eqn:Hd.
  - destruct Ho as (v' & Hv' & ->). eauto.
  - rewrite Ho. reflexivity.
Qed.

Lemma emit_attr_eq (self : Instance) (k : string) (conv : value -> outcome value)
    (d d' : gmap string value) :
  emit_attr self k conv d = Ok d' ->
  match getattr_opt self k with
  | Some v => exists v', conv v = Ok v' /\ d' !! k = Some v'
  | None => d' !! k = d !! k
  end.
Proof.
  intros H. apply emit_attr_Ok in H as (o & -> & Ho).
  rewrite insert_opt_eq. destruct (getattr_opt self k) as [v|].
  - destruct Ho as (v' & Hv' & ->). eauto.
  - rewrite Ho. reflexivity.
Qed.

Lemma getattr_Ok_inv (self : Instance) (k : string) (v : value) :
  getattr self k = Ok v -> getattr_opt self k = Some v.
Proof. unfold getattr. destruct (getattr_opt self k); [congruence | discriminate]. Qed.

Lemma getattr_opt_attrs (self : Instance) (k : string) :
  _data self !! k = None -> getattr_opt self k = attrs self !! k.
Proof. unfold getattr_opt. intros ->. destruct (attrs self !! k); reflexivity. Qed.

Lemma emit_truthy_Ok (self : Instance) (k : string) (conv : value -> outcome value)
    (d d' : gmap string value) :
  emit_truthy self k conv d = Ok d' ->
  exists v o, getattr self k = Ok v /\ d' = insert_opt k o d /\
    if truthy v then exists v', conv v = Ok v' /\ o = Some v' else o = None.
Proof.
  unfold emit_truthy. intros H. apply bind_Ok in H as (v & Hv & H).
  exists v. destruct (truthy v).
  - apply bind_Ok in H as (v' & Hv' & [= <-]).
    exists (Some v'). split; [exact Hv|]. split; [reflexivity | eauto].
  - injection H as <-. exists None. split; [exact Hv|]. split; reflexivity.
Qed.

Lemma walk_emit_truthy_ne (self : Instance) (k k' : string)
    (conv : value -> outcome value) (d d' : gmap string value) (r : option value) :
  emit_truthy self k conv d = Ok d' -> k ≠ k' -> d !! k' = r -> d' !! k' = r.
Proof.
  intros H Hne <-. apply emit_truthy_Ok in H as (v & o & _ & -> & _).
  apply insert_opt_ne. exact Hne.
Qed.

Lemma imul_key_Ok (k : string) (c : float) (d d' : gmap string value) :
  imul_key k c d = Ok d' ->
  exists v v', d !! k = Some v /\ py_mul c v = Ok v' /\ d' = <[k := v']> d.
Proof.
  unfold imul_key. destruct (d !! k) as [v|]; [|discriminate].
  intros H. apply bind_Ok in H as (v' & Hv' & [= <-]). eauto.
Qed.

Lemma walk_imul_key_ne (k k' : string) (c : float) (d d' : gmap string value)
    (r : option value) :
  imul_key k c d = Ok d' -> k ≠ k' -> d !! k' = r -> d' !! k' = r.
Proof.
  intros H Hne <-. apply imul_key_Ok in H as (v & v' & _ & _ & ->).
  apply dict_insert_ne. exact Hne.
Qed.

Lemma drop_channel_maps_None (d : gmap string value) :
  d !! "channels" = None -> drop_channel_maps d = Ok d.
Proof. unfold drop_channel_maps. intros ->. reflexivity. Qed.

(** ** Attributes through the statements of a constructor *)

Lemma attrs_setattr (k : string) (v : value) (s : Instance) :
  attrs (setattr k v s) = <[k := v]> (attrs s).
Proof. reflexivity. Qed.

Lemma attrs_set_data (d : gmap string value) (s : Instance) :
  attrs (set_data d s) = attrs s.
Proof. reflexivity. Qed.

Lemma attrs_set_channel_maps a b c (s : Instance) :
  attrs (set_channel_maps a b c s) = attrs s.
Proof. reflexivity. Qed.

Lemma attrs_set_when_ne (c : bool) (k k' : string) (v : value) (s : Instance) :
  k ≠ k' -> attrs (set_when c k v s) !! k' = attrs s !! k'.
Proof. intros Hne. destruct c; simpl; [apply lookup_insert_ne; exact Hne | reflexivity]. Qed.

Lemma attrs_set_when_eq (c : bool) (k : string) (v : value) (s : Instance) :
  attrs (set_when c k v s) !! k = if c then Some v else attrs s !! k.
Proof. destruct c; simpl; [apply lookup_insert_eq | reflexivity]. Qed.

Lemma set_whenM_attrs_ne (c : bool) (k k' : string) (mv : outcome value)
    (s s' : Instance) :
  set_whenM c k mv s = Ok s' -> k ≠ k' -> attrs s' !! k' = attrs s !! k'.
Proof.
  unfold set_whenM. destruct c.
  - intros H Hne. apply bind_Ok in H as (x & _ & [= <-]).
    apply lookup_insert_ne. exact Hne.
  - intros [= <-] _. reflexivity.
Qed.

Lemma set_whenM_attrs_eq (c : bool) (k : string) (mv : outcome value)
    (s s' : Instance) :
  set_whenM c k mv s = Ok s' ->
  if c then exists x, mv = Ok x /\ attrs s' !! k = Some x
  else attrs s' !! k = attrs s !! k.
Proof.
  unfold set_whenM. destruct c.
  - intros H. apply bind_Ok in H as (x & Hx & [= <-]).
    exists x. split; [exact Hx | apply lookup_insert_eq].
  - intros [= <-]. reflexivity.
Qed.

Lemma set_whenM_rest (c : bool) (k : string) (mv : outcome value) (s s' : Instance) :
  set_whenM c k mv s = Ok s' ->
  _data s' = _data s /\ _qubit_channel_map s' = _qubit_channel_map s /\
  _channel_qubit_map s' = _channel_qubit_map s /\
  _control_channels s' = _control_channels s.
Proof.
  unfold set_whenM. destruct c.
  - intros H. apply bind_Ok in H as (x & _ & [= <-]). repeat split.
  - intros [= <-]. repeat split.
Qed.

Lemma set_when_rest (c : bool) (k : string) (v : value) (s : Instance) :
  _data (set_when c k v s) = _data s /\
  _qubit_channel_map (set_when c k v s) = _qubit_channel_map s /\
  _channel_qubit_map (set_when c k v s) = _channel_qubit_map s /\
  _control_channels (set_when c k v s) = _control_channels s.
Proof. destruct c; repeat split. Qed.

Lemma control_channels_set_when (c : bool) (k : string) (v : value) (s : Instance) :
  _control_channels (set_when c k v s) = _control_channels s.
Proof. destruct c; reflexivity. Qed.

Lemma control_channels_set_whenM (c : bool) (k : string) (mv : outcome value)
    (s s' : Instance) :
  set_whenM c k mv s = Ok s' -> _control_channels s' = _control_channels s.
Proof. intros H. apply (set_whenM_rest _ _ _ _ _ H). Qed.

Lemma data_set_when (c : bool) (k : string) (v : value) (s : Instance) :
  _data (set_when c k v s) = _data s.
Proof. destruct c; reflexivity. Qed.

Lemma data_set_whenM (c : bool) (k : string) (mv : outcome value) (s s' : Instance) :
  set_whenM c k mv s = Ok s' -> _data s' = _data s.
Proof. intros H. apply (set_whenM_rest _ _ _ _ _ H). Qed.

(** Walking a lookup of an attribute down the statements that set other
    attributes. *)
Lemma walk_setattr_ne (k k' : string) (v : value) (s : Instance) (r : option value) :
  k ≠ k' -> attrs s !! k' = r -> attrs (setattr k v s) !! k' = r.
Proof. intros Hne <-. apply dict_insert_ne. exact Hne. Qed.

Lemma walk_setattr_eq (k : string) (v : value) (s : Instance) :
  attrs (setattr k v s) !! k = Some v.
Proof. apply dict_insert_eq. Qed.

Lemma walk_set_when_ne (c : bool) (k k' : string) (v : value) (s : Instance)
    (r : option value) :
  k ≠ k' -> attrs s !! k' = r -> attrs (set_when c k v s) !! k' = r.
Proof. intros Hne <-. apply attrs_set_when_ne. exact Hne. Qed.

Lemma walk_set_when_eq (c : bool) (k : string) (v : value) (s : Instance)
    (r : option value) :
  (if c then Some v else attrs s !! k) = r -> attrs (set_when c k v s) !! k = r.
Proof. intros <-. apply attrs_set_when_eq. Qed.

Lemma walk_set_whenM_ne (c : bool) (k k' : string) (mv : outcome value)
    (s s' : Instance) (r : option value) :
  set_whenM c k mv s = Ok s' -> k ≠ k' -> attrs s !! k' = r -> attrs s' !! k' = r.
Proof. intros H Hne <-. apply (set_whenM_attrs_ne _ _ _ _ _ _ H Hne). Qed.

Lemma walk_set_data (d : gmap string value) (s : Instance) (k : string)
    (r : option value) :
  attrs s !! k = r -> attrs (set_data d s) !! k = r.
Proof. intros <-. reflexivity. Qed.

Lemma walk_set_channel_maps a b c (s : Instance) (k : string) (r : option value) :
  attrs s !! k = r -> attrs (set_channel_maps a b c s) !! k = r.
Proof. intros <-. reflexivity. Qed.

Ltac key_ne :=
  solve [ discriminate | assumption | apply not_eq_sym; assumption ].

Ltac attrs_step :=
  lazymatch goal with
  | |- attrs (set_data _ _) !! _ = _ => apply walk_set_data
  | |- attrs (set_channel_maps _ _ _ _) !! _ = _ => apply walk_set_channel_maps
  | |- attrs (setattr _ _ _) !! _ = _ => apply walk_setattr_ne; [key_ne|]
  | |- attrs (set_when _ _ _ _) !! _ = _ => apply walk_set_when_ne; [key_ne|]
  | |- attrs ?s' !! _ = _ =>
      lazymatch goal with
      | H : set_whenM _ _ _ _ = Ok s' |- _ =>
          apply (walk_set_whenM_ne _ _ _ _ _ _ _ H); [key_ne|]
      end
  end.

Ltac attrs_simpl := repeat attrs_step.

(** Turn [k ∉ [k1; ...; kn]] into the inequalities [k ≠ ki]. *)
Ltac split_not_elem H :=
  cbn in H; repeat (apply not_elem_of_cons in H as [? H]).



(** Take [Qasm__init__ self p kwargs = Ok cfg] apart into its steps. *)
Ltac invert_Qasm__init__ H :=
  unfold Qasm__init__ in H; cbv zeta in H;
  let s1 := fresh "s1" in let s2 := fresh "s2" in
  let s3 := fresh "s3" in let s4 := fresh "s4" in
  let kw1 := fresh "kw1" in let kw2 := fresh "kw2" in let kw3 := fresh "kw3" in
  let H1 := fresh "Hrdr" in let H2 := fresh "Hdrd" in
  let H3 := fresh "Hdt" in let H4 := fresh "Hdtm" in
  let K1 := fresh "Hkw1" in let K2 := fresh "Hkw2" in let K3 := fresh "Hkw3" in
  apply bind_Ok in H as (s1 & H1 & H);
  apply bind_Ok in H as (s2 & H2 & H);
  apply bind_Ok in H as (s3 & H3 & H);
  apply bind_Ok in H as (s4 & H4 & H);
  apply bind_Ok in H as (kw1 & K1 & H);
  apply bind_Ok in H as (kw2 & K2 & H);
  apply bind_Ok in H as (kw3 & K3 & H);
  injection H as H; subst.

Lemma Qasm__init__control_channels (self cfg : Instance) (p kwargs : gmap string value) :
  Qasm__init__ self p kwargs = Ok cfg ->
  _control_channels cfg = _control_channels self.
Proof.
  intros H. invert_Qasm__init__ H.
  repeat first
    [ progress cbn [_control_channels set_data setattr]
    | rewrite control_channels_set_when
    | match goal with
      | H : set_whenM _ _ _ ?s = Ok ?s' |- context [_control_channels ?s'] =>
          rewrite (control_channels_set_whenM _ _ _ s s' H)
      end ].
  reflexivity.
Qed.

Lemma Qasm__init__frame (self cfg : Instance) (p kwargs : gmap string value) (k : string) :
  Qasm__init__ self p kwargs = Ok cfg ->
  k ∉ Qasm_attributes ->
  attrs cfg !! k = attrs self !! k.
Proof.
  intros H Hk. invert_Qasm__init__ H.
  unfold Qasm_attributes, Qasm_required, Qasm_optional in Hk.
  split_not_elem Hk.
  attrs_simpl. reflexivity.
Qed.

Lemma Qasm__init__required (self cfg : Instance) (p kwargs : gmap string value) (k : string) :
  Qasm__init__ self p kwargs = Ok cfg ->
  k ∈ ("dynamic_reprate_enabled" :: Qasm_required) ->
  attrs cfg !! k = Some (p !!! k).
Proof.
  intros H Hk. invert_Qasm__init__ H.
  unfold Qasm_required in Hk.
  repeat (apply elem_of_cons in Hk as [->|Hk];
          [attrs_simpl; apply walk_setattr_eq|]).
  by apply elem_of_nil in Hk.
Qed.

Lemma Qasm__init__n_registers (self cfg : Instance) (p kwargs : gmap string value) :
  Qasm__init__ self p kwargs = Ok cfg ->
  attrs cfg !! "n_registers" =
    if truthy (p !!! "n_registers") then Some (VInt 1)
    else attrs self !! "n_registers".
Proof.
  intros H. invert_Qasm__init__ H.
  attrs_simpl. apply walk_set_when_eq.
  destruct (truthy (p !!! "n_registers")); [reflexivity|].
  attrs_simpl. reflexivity.
Qed.

Ltac data_simpl :=
  repeat first
    [ progress cbn [_data set_data setattr set_channel_maps]
    | rewrite data_set_when
    | match goal with
      | H : set_whenM _ _ _ ?s = Ok ?s' |- context [_data ?s'] =>
          rewrite (data_set_whenM _ _ _ s s' H)
      end ].

Lemma Qasm__init__data (self cfg : Instance) (p kwargs : gmap string value) :
  Qasm__init__ self p kwargs = Ok cfg ->
  exists kw1 kw2,
    convert_key "qubit_lo_range" (scale_ranges 1e9) kwargs = Ok kw1 /\
    convert_key "meas_lo_range" (scale_ranges 1e9) kw1 = Ok kw2 /\
    convert_key "rep_times" (scale_list 1e-6) kw2 = Ok (_data cfg).
Proof.
  intros H. invert_Qasm__init__ H. exists kw1, kw2.
  split; [assumption|]. split; [assumption|].
  data_simpl. rewrite (right_id_L ∅ (∪)). assumption.
Qed.

(** What the constructor leaves in [_data] under a key. *)
Lemma Qasm__init__data_other (self cfg : Instance) (p kwargs : gmap string value)
    (k : string) :
  Qasm__init__ self p kwargs = Ok cfg ->
  k ∉ ["qubit_lo_range"; "meas_lo_range"; "rep_times"] ->
  _data cfg !! k = kwargs !! k.
Proof.
  intros H Hk. apply Qasm__init__data in H as (kw1 & kw2 & H1 & H2 & H3).
  split_not_elem Hk.
  apply convert_key_Ok in H1 as (o1 & -> & _).
  apply convert_key_Ok in H2 as (o2 & -> & _).
  apply convert_key_Ok in H3 as (o3 & -> & _).
  rewrite !insert_opt_ne by key_ne. reflexivity.
Qed.

Lemma Qasm__init__data_lo_range (self cfg : Instance) (p kwargs : gmap string value)
    (k : string) :
  Qasm__init__ self p kwargs = Ok cfg ->
  k ∈ ["qubit_lo_range"; "meas_lo_range"] ->
  match kwargs !! k with
  | Some v => exists v', scale_ranges 1e9 v = Ok v' /\ _data cfg !! k = Some v'
  | None => _data cfg !! k = None
  end.
Proof.
  intros H Hk. apply Qasm__init__data in H as (kw1 & kw2 & H1 & H2 & H3).
  pose proof (convert_key_eq _ _ _ _ H1) as E1.
  pose proof (convert_key_eq _ _ _ _ H2) as E2.
  apply convert_key_Ok in H1 as (o1 & -> & _).
  apply convert_key_Ok in H2 as (o2 & -> & _).
  apply convert_key_Ok in H3 as (o3 & -> & _).
  apply elem_of_cons in Hk as [->|Hk]; [|apply elem_of_cons in Hk as [->|Hk]].
  - rewrite !(insert_opt_ne _ "qubit_lo_range") by key_ne.
    exact E1.
  - rewrite (insert_opt_ne _ "meas_lo_range") by key_ne.
    rewrite (insert_opt_ne _ "meas_lo_range") in E2 by key_ne.
    exact E2.
  - by apply elem_of_nil in Hk.
Qed.

(** The four attributes the constructor stores converted. *)
Lemma Qasm__init__converted (self cfg : Instance) (p kwargs : gmap string value) :
  Qasm__init__ self p kwargs = Ok cfg ->
  (if truthy (p !!! "rep_delay_range")
   then exists v, scale_list 1e-6 (p !!! "rep_delay_range") = Ok v /\
          attrs cfg !! "rep_delay_range" = Some v
   else attrs cfg !! "rep_delay_range" = attrs self !! "rep_delay_range") /\
  (if is_not_None (p !!! "default_rep_delay")
   then exists v, py_mul 1e-6 (p !!! "default_rep_delay") = Ok v /\
          attrs cfg !! "default_rep_delay" = Some v
   else attrs cfg !! "default_rep_delay" = attrs self !! "default_rep_delay") /\
  (if is_not_None (p !!! "dt")
   then exists v, py_mul 1e-9 (p !!! "dt") = Ok v /\ attrs cfg !! "dt" = Some v
   else attrs cfg !! "dt" = attrs self !! "dt") /\
  (if is_not_None (p !!! "dtm")
   then exists v, py_mul 1e-9 (p !!! "dtm") = Ok v /\ attrs cfg !! "dtm" = Some v
   else attrs cfg !! "dtm" = attrs self !! "dtm").
Proof.
  intros H. invert_Qasm__init__ H.
  pose proof (set_whenM_attrs_eq _ _ _ _ _ Hrdr) as E1.
  pose proof (set_whenM_attrs_eq _ _ _ _ _ Hdrd) as E2.
  pose proof (set_whenM_attrs_eq _ _ _ _ _ Hdt) as E3.
  pose proof (set_whenM_attrs_eq _ _ _ _ _ Hdtm) as E4.
  split; [|split; [|split]].
  - destruct (truthy (p !!! "rep_delay_range")).
    + destruct E1 as (x & Hx & E1). exists x. split; [exact Hx|].
      attrs_simpl. exact E1.
    + attrs_simpl. rewrite E1. attrs_simpl. reflexivity.
  - destruct (is_not_None (p !!! "default_rep_delay")).
    + destruct E2 as (x & Hx & E2). exists x. split; [exact Hx|].
      attrs_simpl. exact E2.
    + attrs_simpl. rewrite E2. attrs_simpl. reflexivity.
  - destruct (is_not_None (p !!! "dt")).
    + destruct E3 as (x & Hx & E3). exists x. split; [exact Hx|].
      attrs_simpl. exact E3.
    + attrs_simpl. rewrite E3. attrs_simpl. reflexivity.
  - destruct (is_not_None (p !!! "dtm")).
    + destruct E4 as (x & Hx & E4). exists x. split; [exact Hx|].
      attrs_simpl. exact E4.
    + attrs_simpl. rewrite E4. attrs_simpl. reflexivity.
Qed.

(** ** Keyword binding *)

Lemma filter_named_lookup (named : list string) (call : gmap string value) (k : string) :
  filter (fun kv : string * value => kv.1 ∈ named) call !! k =
    if bool_decide (k ∈ named) then call !! k else None.
Proof.
  rewrite map_lookup_filter. destruct (call !! k) as [v|]; simpl.
  - case_bool_decide as Hk.
    + rewrite option_guard_True by exact Hk. reflexivity.
    + rewrite option_guard_False by exact Hk. reflexivity.
  - destruct (bool_decide _); reflexivity.
Qed.

Lemma filter_unnamed_lookup (named : list string) (call : gmap string value) (k : string) :
  filter (fun kv : string * value => kv.1 ∉ named) call !! k =
    if bool_decide (k ∈ named) then None else call !! k.
Proof.
  rewrite map_lookup_filter. destruct (call !! k) as [v|]; simpl.
  - case_bool_decide as Hk.
    + rewrite option_guard_False by (intros Hn; exact (Hn Hk)). reflexivity.
    + rewrite option_guard_True by exact Hk. reflexivity.
  - destruct (bool_decide _); reflexivity.
Qed.

Lemma bind_keywords_inv (required : list string) (optional : list (string * value))
    (var_keyword : bool) (call p kwargs : gmap string value) :
  bind_keywords required optional var_keyword call = Ok (p, kwargs) ->
  p = filter (fun kv : string * value => kv.1 ∈ (required ++ optional.*1)%list) call
        ∪ list_to_map optional /\
  kwargs = filter (fun kv : string * value => kv.1 ∉ (required ++ optional.*1)%list) call /\
  Forall (fun k => is_Some (call !! k)) required.
Proof.
  unfold bind_keywords. cbv zeta.
  destruct (negb var_keyword && _); [discriminate|].
  case_bool_decide as Hreq; [|discriminate].
  intros [= <- <-]. repeat split. exact Hreq.
Qed.

(** The value a named parameter is bound to. *)
Lemma bind_keywords_arg (required : list string) (optional : list (string * value))
    (var_keyword : bool) (call p kwargs : gmap string value) (k : string) :
  bind_keywords required optional var_keyword call = Ok (p, kwargs) ->
  k ∈ (required ++ optional.*1)%list ->
  p !! k = match call !! k with
           | Some v => Some v
           | None => (list_to_map optional : gmap string value) !! k
           end.
Proof.
  intros H Hk. apply bind_keywords_inv in H as (-> & _ & _).
  rewrite lookup_union, filter_named_lookup.
  rewrite bool_decide_eq_true_2 by exact Hk.
  destruct (call !! k); simpl; [|rewrite left_id by apply _; reflexivity].
  destruct (list_to_map optional !! k); reflexivity.
Qed.

(** What is left for the variadic keyword parameter. *)
Lemma bind_keywords_kwargs (required : list string) (optional : list (string * value))
    (var_keyword : bool) (call p kwargs : gmap string value) (k : string) :
  bind_keywords required optional var_keyword call = Ok (p, kwargs) ->
  kwargs !! k = if bool_decide (k ∈ (required ++ optional.*1)%list) then None
                else call !! k.
Proof.
  intros H. apply bind_keywords_inv in H as (_ & -> & _).
  apply filter_unnamed_lookup.
Qed.

(** ** The pulse constructor *)

Lemma getattr_Ok (self : Instance) (k : string) (v : value) :
  getattr_opt self k = Some v -> getattr self k = Ok v.
Proof. unfold getattr. intros ->. reflexivity. Qed.


Lemma init_channels_attrs_ne (ch : value) (s s' : Instance) (k : string) :
  init_channels ch s = Ok s' -> "channels" ≠ k -> attrs s' !! k = attrs s !! k.
Proof.
  unfold init_channels. destruct (is_not_None ch).
  - cbv zeta. intros H Hne. apply bind_Ok in H as (maps & _ & [= <-]).
    cbn [attrs set_channel_maps]. apply dict_insert_ne. exact Hne.
  - intros [= <-] _. reflexivity.
Qed.

Lemma init_channels_data (ch : value) (s s' : Instance) :
  init_channels ch s = Ok s' -> _data s' = _data s.
Proof.
  unfold init_channels. destruct (is_not_None ch).
  - cbv zeta. intros H. apply bind_Ok in H as (maps & _ & [= <-]). reflexivity.
  - intros [= <-]. reflexivity.
Qed.

Lemma init_channels_control (ch : value) (s s' : Instance) :
  init_channels ch s = Ok s' ->
  if is_not_None ch
  then exists maps, _parse_channels ch = Ok maps /\
         _control_channels s' = Some (PlainDict (control_channels maps))
  else _control_channels s' = Some (DefaultDict []).
Proof.
  unfold init_channels. destruct (is_not_None ch).
  - cbv zeta. intros H. apply bind_Ok in H as (maps & Hmaps & [= <-]).
    exists maps. split; [exact Hmaps | reflexivity].
  - intros [= <-]. reflexivity.
Qed.

(** Take [Pulse__init__ self p kwargs = Ok cfg] apart into its steps. *)
Ltac invert_Pulse__init__ H :=
  unfold Pulse__init__ in H; cbv zeta in H;
  let qlr := fresh "qlr" in let mlr := fresh "mlr" in
  let t1 := fresh "t1" in let rt := fresh "rt" in
  let dt := fresh "dt" in let dtm := fresh "dtm" in
  let t2 := fresh "t2" in let t3 := fresh "t3" in
  let pk := fresh "pk" in
  let Hqlr := fresh "Hqlr" in let Hmlr := fresh "Hmlr" in
  let Hham := fresh "Hham" in let Hrt := fresh "Hrt" in
  let Hpdt := fresh "Hpdt" in let Hpdtm := fresh "Hpdtm" in
  let Hch := fresh "Hch" in let Hbw := fresh "Hbw" in
  let Hbind := fresh "Hbind" in
  apply bind_Ok in H as (qlr & Hqlr & H);
  apply bind_Ok in H as (mlr & Hmlr & H);
  apply bind_Ok in H as (t1 & Hham & H);
  apply bind_Ok in H as (rt & Hrt & H);
  apply bind_Ok in H as (dt & Hpdt & H);
  apply bind_Ok in H as (dtm & Hpdtm & H);
  apply bind_Ok in H as (t2 & Hch & H);
  apply bind_Ok in H as (t3 & Hbw & H);
  apply bind_Ok in H as (pk & Hbind & H);
  destruct pk as [p' kwargs'].

Lemma Pulse__init__control_channels (self cfg : Instance) (p kwargs : gmap string value) :
  Pulse__init__ self p kwargs = Ok cfg ->
  if is_not_None (p !!! "channels")
  then exists maps, _parse_channels (p !!! "channels") = Ok maps /\
         _control_channels cfg = Some (PlainDict (control_channels maps))
  else _control_channels cfg = Some (DefaultDict []).
Proof.
  intros H. invert_Pulse__init__ H.
  rewrite (Qasm__init__control_channels _ _ _ _ H).
  rewrite !control_channels_set_when.
  rewrite (control_channels_set_whenM _ _ _ _ _ Hbw).
  apply (init_channels_control _ _ _ Hch).
Qed.

Lemma Pulse__init__has_n_qubits (self cfg : Instance) (p kwargs : gmap string value) :
  Pulse__init__ self p kwargs = Ok cfg ->
  exists n, getattr cfg "n_qubits" = Ok n.
Proof.
  intros H. invert_Pulse__init__ H.
  eexists. apply getattr_Ok. unfold getattr_opt.
  rewrite (Qasm__init__required _ _ _ _ "n_qubits" H); [reflexivity|].
  unfold Qasm_required. set_solver.
Qed.

(** ** Channel lookups *)

Lemma qubit_in_range_int (self : Instance) (n qubit : Z) :
  getattr_opt self "n_qubits" = Some (VInt n) ->
  qubit_in_range self qubit = Ok ((0 <=? qubit)%Z && (qubit <? n)%Z).
Proof.
  intros Hn. unfold qubit_in_range.
  destruct (0 <=? qubit)%Z; [|reflexivity].
  rewrite (getattr_Ok _ _ _ Hn). reflexivity.
Qed.

(** C9: for a configuration whose [n_qubits] is the integer [n], the
    drive, measure and acquire lookups return the typed channel of the
    qubit when [0 <= qubit < n] and raise [BackendConfigurationError]
    otherwise; in particular they raise for [-1] and for [n], and return
    the channel of qubit [0] whenever [n >= 1]. *)
Theorem channel_lookup_checks_range (self : Instance) (n qubit : Z) :
  getattr_opt self "n_qubits" = Some (VInt n) ->
  ((0 <= qubit < n)%Z ->
     drive self qubit = Ok (DriveChannel qubit) /\
     measure self qubit = Ok (MeasureChannel qubit) /\
     acquire self qubit = Ok (AcquireChannel qubit)) /\
  (~ (0 <= qubit < n)%Z ->
     drive self qubit = Raise (BackendConfigurationError (InvalidIndex qubit)) /\
     measure self qubit = Raise (BackendConfigurationError (InvalidIndex qubit)) /\
     acquire self qubit = Raise (BackendConfigurationError (InvalidIndex qubit))) /\
  drive self (-1) = Raise (BackendConfigurationError (InvalidIndex (-1))) /\
  drive self n = Raise (BackendConfigurationError (InvalidIndex n)) /\
  ((1 <= n)%Z -> drive self 0 = Ok (DriveChannel 0)).
Proof.
  intros Hn.
  assert (Hin : forall q, (0 <= q < n)%Z ->
            qubit_in_range self q = Ok true).
  { intros q Hq. rewrite (qubit_in_range_int _ n) by exact Hn.
    destruct (Z.leb_spec 0 q); [|lia]. destruct (Z.ltb_spec q n); [reflexivity | lia]. }
  assert (Hout : forall q, ~ (0 <= q < n)%Z ->
            qubit_in_range self q = Ok false).
  { intros q Hq. rewrite (qubit_in_range_int _ n) by exact Hn.
    destruct (Z.leb_spec 0 q); [|reflexivity].
    destruct (Z.ltb_spec q n); [lia | reflexivity]. }
  unfold drive, measure, acquire.
  split; [|split; [|split; [|split]]].
  - intros Hq. rewrite (Hin _ Hq). repeat split.
  - intros Hq. rewrite (Hout _ Hq). repeat split.
  - reflexivity.
  - rewrite Hout by lia. reflexivity.
  - intros Hpos. rewrite Hin by lia. reflexivity.
Qed.

Lemma PulseBackendConfiguration_channels (call : gmap string value) (cfg : Instance) :
  PulseBackendConfiguration call = Ok cfg ->
  let channels := default VNone (call !! "channels") in
  if is_not_None channels
  then exists maps, _parse_channels channels = Ok maps /\
         _control_channels cfg = Some (PlainDict (control_channels maps))
  else _control_channels cfg = Some (DefaultDict []).
Proof.
  unfold PulseBackendConfiguration. intros H.
  apply bind_Ok in H as ([p kwargs] & Hbind & H).
  pose proof (Pulse__init__control_channels _ _ _ _ H) as Hcc.
  assert (Hch : p !!! "channels" = default VNone (call !! "channels")).
  { rewrite lookup_total_alt.
    rewrite (bind_keywords_arg _ _ _ _ _ _ "channels" Hbind)
      by (unfold Pulse_required, Pulse_optional; set_solver).
    destruct (call !! "channels"); reflexivity. }
  rewrite Hch in Hcc. exact Hcc.
Qed.

(** C7: what [control] does.  For the example of the specification (a
    channel map with [d0] on qubit 0 and [u1] on qubits (0, 1)) the pair
    (0, 1) gives the channel made of [u1] and the pair (2, 3) raises
    [BackendConfigurationError] naming the pair; in general, with a channel
    map the lookup returns the control channels recorded for the pair and
    raises when there are none.  But for a configuration constructed with
    no channel map the lookup returns the empty list, for every pair: it
    does not raise. *)
Theorem control_channel_lookup :
  control_from_wire example_wire_with_channels [0; 1]%Z = Ok [ControlChannel 1] /\
  control_from_wire example_wire_with_channels [2; 3]%Z =
    Raise (BackendConfigurationError (ControlChannelNotFound [2; 3]%Z (VInt 2))) /\
  (forall call cfg qubits,
     PulseBackendConfiguration call = Ok cfg ->
     is_not_None (default VNone (call !! "channels")) = true ->
     exists maps n,
       _parse_channels (default VNone (call !! "channels")) = Ok maps /\
       (control cfg qubits).1 =
         match dd_lookup qubits (control_channels maps) with
         | Some chans => Ok chans
         | None => Raise (BackendConfigurationError
                            (ControlChannelNotFound qubits n))
         end) /\
  (forall call cfg qubits,
     PulseBackendConfiguration call = Ok cfg ->
     is_not_None (default VNone (call !! "channels")) = false ->
     (control cfg qubits).1 = Ok []) /\
  control_from_wire example_wire [0; 1]%Z = Ok [].
Proof.
  split; [|split; [|split; [|split]]].
  - vm_compute. reflexivity.
  - vm_compute. reflexivity.
  - intros call cfg qubits Hnew Hch.
    pose proof (PulseBackendConfiguration_channels _ _ Hnew) as Hcc.
    cbv zeta in Hcc. rewrite Hch in Hcc. destruct Hcc as (maps & Hmaps & Hcc).
    unfold PulseBackendConfiguration in Hnew.
    apply bind_Ok in Hnew as ([p kwargs] & _ & Hinit).
    destruct (Pulse__init__has_n_qubits _ _ _ _ Hinit) as (n & Hn).
    exists maps, n. split; [exact Hmaps|].
    unfold control. rewrite Hcc.
    destruct (dd_lookup qubits (control_channels maps)); [reflexivity|].
    simpl. rewrite Hn. reflexivity.
  - intros call cfg qubits Hnew Hch.
    pose proof (PulseBackendConfiguration_channels _ _ Hnew) as Hcc.
    cbv zeta in Hcc. rewrite Hch in Hcc.
    unfold control. rewrite Hcc. reflexivity.
  - vm_compute. reflexivity.
Qed.

(** ** Serialization: what [to_dict] puts under a key *)

(** Walk a lookup in the dictionary under construction down the statements
    that write other keys. *)
Ltac dict_step :=
  lazymatch goal with
  | |- <[_ := _]> _ !! _ = _ => apply walk_insert_ne; [key_ne|]
  | |- insert_opt _ _ _ !! _ = _ => apply walk_insert_opt_ne; [key_ne|]
  | |- copy_attrs _ _ _ !! _ = _ =>
      progress cbn [copy_attrs Qasm_to_dict_optional foldl]
  | |- ?d' !! _ = _ =>
      lazymatch goal with
      | H : emit_attr _ _ _ _ = Ok d' |- _ =>
          apply (walk_emit_attr_ne _ _ _ _ _ _ _ H); [key_ne|]
      | H : convert_key _ _ _ = Ok d' |- _ =>
          apply (walk_convert_key_ne _ _ _ _ _ _ H); [key_ne|]
      | H : emit_truthy _ _ _ _ = Ok d' |- _ =>
          apply (walk_emit_truthy_ne _ _ _ _ _ _ _ H); [key_ne|]
      | H : imul_key _ _ _ = Ok d' |- _ =>
          apply (walk_imul_key_ne _ _ _ _ _ _ H); [key_ne|]
      end
  end.

Ltac dict_walk := repeat dict_step.

(** Take [Qasm_to_dict self = Ok out] apart into its steps. *)
Ltac invert_Qasm_to_dict H :=
  unfold Qasm_to_dict in H; cbv zeta in H;
  repeat (let x := fresh "x" in let Hx := fresh "Hx" in
          apply bind_Ok in H as (x & Hx & H));
  injection H as H; subst.

(** A key that is no attribute [Qasm_to_dict] writes comes from [_data]
    (the two LO ranges apart, which are converted). *)
Lemma Qasm_to_dict_other (self : Instance) (out : gmap string value) (k : string) :
  Qasm_to_dict self = Ok out ->
  k ∉ ("qubit_lo_range" :: "meas_lo_range" :: Qasm_emitted) ->
  out !! k = _data self !! k.
Proof.
  intros H Hk. invert_Qasm_to_dict H.
  unfold Qasm_emitted in Hk. split_not_elem Hk.
  dict_walk. rewrite lookup_union_l; [reflexivity|].
  dict_walk. apply lookup_empty.
Qed.

Lemma Qasm_to_dict_required (self : Instance) (out : gmap string value) (k : string) :
  Qasm_to_dict self = Ok out ->
  _data self !! k = None ->
  k ∈ Qasm_verbatim_required ->
  out !! k = attrs self !! k.
Proof.
  intros H Hdata Hk. invert_Qasm_to_dict H.
  unfold Qasm_verbatim_required in Hk.
  repeat (apply elem_of_cons in Hk as [->|Hk];
    [ dict_walk; rewrite lookup_union_r by exact Hdata; dict_walk;
      rewrite dict_insert_eq; symmetry;
      rewrite <- getattr_opt_attrs by exact Hdata;
      apply getattr_Ok_inv; assumption |]).
  by apply elem_of_nil in Hk.
Qed.

Lemma Qasm_to_dict_optional_attr (self : Instance) (out : gmap string value) (k : string) :
  Qasm_to_dict self = Ok out ->
  _data self !! k = None ->
  k ∈ Qasm_verbatim_optional ->
  out !! k = attrs self !! k.
Proof.
  intros H Hdata Hk. invert_Qasm_to_dict H.
  unfold Qasm_verbatim_optional in Hk.
  apply elem_of_cons in Hk as [->|Hk].
  { dict_walk. rewrite lookup_union_r by exact Hdata. dict_walk.
    match goal with
    | Hx : emit_attr _ "supported_instructions" _ _ = Ok _ |- _ =>
        apply emit_attr_eq in Hx; rewrite getattr_opt_attrs in Hx by exact Hdata;
        destruct (attrs self !! "supported_instructions") as [v|];
        [ destruct Hx as (v' & [= <-] & ->); reflexivity
        | rewrite Hx; dict_walk; apply lookup_empty ]
    end. }
  repeat (apply elem_of_cons in Hk as [->|Hk];
    [ dict_walk; rewrite lookup_union_r by exact Hdata; dict_walk;
      rewrite insert_opt_eq, getattr_opt_attrs by exact Hdata;
      match goal with
      | |- match ?o with _ => _ end = _ =>
          destruct o; [reflexivity | dict_walk; apply lookup_empty]
      end |]).
  by apply elem_of_nil in Hk.
Qed.

(** ** Serialization succeeds *)

Ltac in_list := solve [ repeat first [ left | right ] ].

Ltac not_in_list := apply (bool_decide_unpack _); vm_compute; exact I.

Lemma bind_total {A B : Type} (m : outcome A) (f : A -> outcome B) (a : A) :
  m = Ok a -> (exists b, f a = Ok b) -> exists b, m ≫= f = Ok b.
Proof. intros -> H. exact H. Qed.

Lemma emit_attr_total (self : Instance) (k : string) (conv : value -> outcome value)
    (d : gmap string value) :
  (forall v, getattr_opt self k = Some v -> exists v', conv v = Ok v') ->
  exists d', emit_attr self k conv d = Ok d'.
Proof.
  intros Hconv. unfold emit_attr. destruct (getattr_opt self k) as [v|].
  - destruct (Hconv v eq_refl) as [v' ->]. eexists. reflexivity.
  - eexists. reflexivity.
Qed.

Lemma convert_key_total (k : string) (conv : value -> outcome value)
    (d : gmap string value) :
  (forall v, d !! k = Some v -> exists v', conv v = Ok v') ->
  exists d', convert_key k conv d = Ok d'.
Proof.
  intros Hconv. unfold convert_key. destruct (d !! k) as [v|].
  - destruct (Hconv v eq_refl) as [v' ->]. eexists. reflexivity.
  - eexists. reflexivity.
Qed.

Ltac take_attr Hreq :=
  lazymatch goal with
  | |- exists _, (getattr ?self ?k ≫= _) = Ok _ =>
      let v := fresh "v" in let Hv := fresh "Hv" in
      destruct (Hreq k ltac:(in_list)) as [v Hv];
      eapply bind_total; [apply getattr_Ok; exact Hv|]; cbv beta
  end.

Ltac take_emit tac :=
  lazymatch goal with
  | |- exists _, (emit_attr ?self ?k ?conv ?d ≫= _) = Ok _ =>
      let d' := fresh "d" in let Hd := fresh "Hd" in
      destruct (emit_attr_total self k conv d) as [d' Hd];
      [tac|]; eapply bind_total; [exact Hd|]; cbv beta
  end.

Ltac take_convert tac :=
  lazymatch goal with
  | |- exists _, (convert_key ?k ?conv ?d ≫= _) = Ok _ =>
      let d' := fresh "d" in let Hd := fresh "Hd" in
      destruct (convert_key_total k conv d) as [d' Hd];
      [tac|]; eapply bind_total; [exact Hd|]; cbv beta
  end.

(** Replace the dictionary looked up in [H : D !! k = Some v] by what the
    walk finds under [k]. *)
Ltac lookup_in H rhs tac :=
  lazymatch type of H with
  | ?D !! ?k = _ =>
      let E := fresh "E" in
      assert (E : D !! k = rhs) by tac; rewrite E in H; clear E
  end.

Lemma Qasm_to_dict_total (self : Instance) :
  Qasm_serialisable self -> exists out, Qasm_to_dict self = Ok out.
Proof.
  intros (Hreq & (gs & ds & Hg & Hds) & Hrdr & Hdrd & Hdt & Hlo).
  unfold Qasm_to_dict.
  do 4 take_attr Hreq.
  eapply (bind_total _ _ (VList ds)).
  { rewrite (getattr_Ok _ _ _ Hg). cbn [mbind outcome_bind py_iter].
    rewrite Hds. reflexivity. }
  cbv beta. do 8 take_attr Hreq. cbv zeta.
  take_emit ltac:(intros; eexists; reflexivity).
  take_emit ltac:(intros w Hw; destruct (Hrdr _ Hw) as [l ->];
                  rewrite scale_list_floats; eexists; reflexivity).
  take_emit ltac:(intros w Hw; destruct (Hdrd _ Hw) as [f ->];
                  eexists; reflexivity).
  destruct (Hdt "dt" ltac:(in_list)) as [Hdt_data Hdt_float].
  destruct (Hdt "dtm" ltac:(in_list)) as [Hdtm_data Hdtm_float].
  take_convert ltac:(
    intros w Hw; rewrite lookup_union_r in Hw by exact Hdt_data;
    lookup_in Hw (attrs self !! "dt") ltac:(
      dict_walk; rewrite insert_opt_eq, getattr_opt_attrs by exact Hdt_data;
      destruct (attrs self !! "dt"); [reflexivity | dict_walk; apply lookup_empty]);
    destruct (Hdt_float _ Hw) as [f ->]; eexists; reflexivity).
  take_convert ltac:(
    intros w Hw;
    lookup_in Hw (attrs self !! "dtm") ltac:(
      dict_walk; rewrite lookup_union_r by exact Hdtm_data;
      dict_walk; rewrite insert_opt_eq, getattr_opt_attrs by exact Hdtm_data;
      destruct (attrs self !! "dtm"); [reflexivity | dict_walk; apply lookup_empty]);
    destruct (Hdtm_float _ Hw) as [f ->]; eexists; reflexivity).
  take_convert ltac:(
    intros w Hw;
    lookup_in Hw (_data self !! "qubit_lo_range") ltac:(
      dict_walk; rewrite lookup_union_l; [reflexivity|];
      dict_walk; apply lookup_empty);
    destruct (Hlo "qubit_lo_range" _ ltac:(in_list) Hw) as [l ->];
    rewrite scale_ranges_ranges; eexists; reflexivity).
  take_convert ltac:(
    intros w Hw;
    lookup_in Hw (_data self !! "meas_lo_range") ltac:(
      dict_walk; rewrite lookup_union_l; [reflexivity|];
      dict_walk; apply lookup_empty);
    destruct (Hlo "meas_lo_range" _ ltac:(in_list) Hw) as [l ->];
    rewrite scale_ranges_ranges; eexists; reflexivity).
  eexists. reflexivity.
Qed.

(** ** Serialization of a pulse configuration *)

(** Take [Pulse_to_dict self = Ok out] apart into its steps, for an
    instance whose [_data] has no [channels]. *)
Ltac invert_Pulse_to_dict H Hdata :=
  unfold Pulse_to_dict in H; cbv zeta in H;
  let out_q := fresh "out_q" in let Hq := fresh "Hq" in
  apply bind_Ok in H as (out_q & Hq & H);
  repeat (let x := fresh "y" in let Hx := fresh "Hy" in
          apply bind_Ok in H as (x & Hx & H));
  injection H as H; subst;
  match goal with
  | Hd : drop_channel_maps ?d = Ok ?d' |- _ =>
      let E := fresh "E" in
      assert (E : d !! "channels" = None)
        by (dict_walk;
            rewrite (Qasm_to_dict_other _ _ "channels" Hq)
              by (apply (bool_decide_unpack _); vm_compute; exact I);
            exact Hdata);
      rewrite (drop_channel_maps_None _ E) in Hd; injection Hd as Hd; subst; clear E
  end.

Lemma Pulse_to_dict_other (self : Instance) (out : gmap string value) :
  Pulse_to_dict self = Ok out ->
  _data self !! "channels" = None ->
  exists out_q, Qasm_to_dict self = Ok out_q /\
    forall k, k ∉ Pulse_written -> out !! k = out_q !! k.
Proof.
  intros H Hdata. invert_Pulse_to_dict H Hdata.
  exists out_q. split; [assumption|].
  intros k Hk. unfold Pulse_written in Hk. split_not_elem Hk.
  dict_walk. reflexivity.
Qed.

Lemma Pulse_to_dict_verbatim (self : Instance) (out : gmap string value) (k : string) :
  Pulse_to_dict self = Ok out ->
  _data self !! "channels" = None ->
  k ∈ ["n_uchannels"; "meas_levels"; "meas_kernels"; "discriminators"] ->
  out !! k = getattr_opt self k.
Proof.
  intros H Hdata Hk. invert_Pulse_to_dict H Hdata.
  repeat (apply elem_of_cons in Hk as [->|Hk];
    [ dict_walk; rewrite dict_insert_eq; symmetry;
      apply getattr_Ok_inv; assumption |]).
  by apply elem_of_nil in Hk.
Qed.

Lemma Pulse_to_dict_time_step (self : Instance) (out : gmap string value) (k : string) :
  Pulse_to_dict self = Ok out ->
  _data self !! "channels" = None ->
  k ∈ ["dt"; "dtm"] ->
  exists v v', getattr self k = Ok v /\ py_mul 1e9 v = Ok v' /\ out !! k = Some v'.
Proof.
  intros H Hdata Hk. invert_Pulse_to_dict H Hdata.
  apply elem_of_cons in Hk as [->|Hk];
    [|apply elem_of_cons in Hk as [->|Hk]; [|by apply elem_of_nil in Hk]].
  - match goal with
    | Hi : imul_key "dt" _ ?d = Ok _ |- _ =>
        apply imul_key_Ok in Hi as (v & v' & Hv & Hv' & ->);
        assert (E : d !! "dt" = Some y7)
          by (dict_walk; apply dict_insert_eq)
    end.
    rewrite E in Hv. injection Hv as <-.
    exists y7, v'. split; [assumption|]. split; [exact Hv'|].
    dict_walk. apply dict_insert_eq.
  - match goal with
    | Hi : imul_key "dtm" _ ?d = Ok _ |- _ =>
        apply imul_key_Ok in Hi as (v & v' & Hv & Hv' & ->);
        assert (E : d !! "dtm" = Some y8)
          by (dict_walk; apply dict_insert_eq)
    end.
    rewrite E in Hv. injection Hv as <-.
    exists y8, v'. split; [assumption|]. split; [exact Hv'|].
    dict_walk. apply dict_insert_eq.
Qed.

Lemma Pulse_to_dict_lo_range (self : Instance) (out : gmap string value) (k : string) :
  Pulse_to_dict self = Ok out ->
  _data self !! "channels" = None ->
  k ∈ ["qubit_lo_range"; "meas_lo_range"] ->
  exists v, getattr self k = Ok v /\
    if truthy v
    then exists v', scale_ranges 1e-9 v = Ok v' /\ out !! k = Some v'
    else out !! k = Some v.
Proof.
  intros H Hdata Hk. invert_Pulse_to_dict H Hdata.
  apply elem_of_cons in Hk as [->|Hk];
    [|apply elem_of_cons in Hk as [->|Hk]; [|by apply elem_of_nil in Hk]].
  - match goal with
    | Ht : emit_truthy _ "qubit_lo_range" _ _ = Ok _ |- _ =>
        apply emit_truthy_Ok in Ht as (v & o & Hv & -> & Ho)
    end.
    exists v. split; [exact Hv|].
    destruct (truthy v).
    + destruct Ho as (v' & Hv' & ->). exists v'. split; [exact Hv'|].
      dict_walk. apply dict_insert_eq.
    + subst o. dict_walk. cbn [insert_opt]. dict_walk.
      rewrite dict_insert_eq. congruence.
  - match goal with
    | Ht : emit_truthy _ "meas_lo_range" _ _ = Ok _ |- _ =>
        apply emit_truthy_Ok in Ht as (v & o & Hv & -> & Ho)
    end.
    exists v. split; [exact Hv|].
    destruct (truthy v).
    + destruct Ho as (v' & Hv' & ->). exists v'. split; [exact Hv'|].
      dict_walk. apply dict_insert_eq.
    + subst o. dict_walk. cbn [insert_opt]. dict_walk.
      rewrite dict_insert_eq. congruence.
Qed.

Lemma emit_truthy_total (self : Instance) (k : string) (conv : value -> outcome value)
    (d : gmap string value) (v : value) :
  getattr_opt self k = Some v ->
  (truthy v = true -> exists v', conv v = Ok v') ->
  exists d', emit_truthy self k conv d = Ok d'.
Proof.
  intros Hv Hconv. unfold emit_truthy. rewrite (getattr_Ok _ _ _ Hv).
  cbn [mbind outcome_bind]. destruct (truthy v).
  - destruct (Hconv eq_refl) as [v' ->]. eexists. reflexivity.
  - eexists. reflexivity.
Qed.

Lemma imul_key_total (k : string) (c f : float) (d : gmap string value) :
  d !! k = Some (VFloat f) -> exists d', imul_key k c d = Ok d'.
Proof. intros Hd. unfold imul_key. rewrite Hd. eexists. reflexivity. Qed.

Ltac take_value H :=
  eapply bind_total; [apply getattr_Ok; exact H|]; cbv beta.

Ltac take_truthy Hv tac :=
  lazymatch goal with
  | |- exists _, (emit_truthy ?self ?k ?conv ?d ≫= _) = Ok _ =>
      let d' := fresh "d" in let Hd := fresh "Hd" in
      destruct (emit_truthy_total self k conv d _ Hv) as [d' Hd];
      [tac|]; eapply bind_total; [exact Hd|]; cbv beta
  end.

Lemma Pulse_to_dict_total (self : Instance) :
  Pulse_serialisable self -> exists out, Pulse_to_dict self = Ok out.
Proof.
  intros (Hq & Hdata & (us & cs & Hu & Hcs) & Hplain & Hlo & (lr & Hrt) & Htime
          & Hbw & (h & Hh & Hscale)).
  destruct (Qasm_to_dict_total _ Hq) as [out_q Hout_q].
  unfold Pulse_to_dict.
  eapply bind_total; [exact Hout_q|]. cbv beta.
  eapply (bind_total _ _ (VList cs)).
  { rewrite (getattr_Ok _ _ _ Hu). cbn [mbind outcome_bind py_iter].
    rewrite Hcs. reflexivity. }
  cbv beta.
  destruct (Hplain "n_uchannels" ltac:(in_list)) as [a1 Ha1].
  destruct (Hplain "meas_levels" ltac:(in_list)) as [a2 Ha2].
  destruct (Hplain "meas_kernels" ltac:(in_list)) as [a3 Ha3].
  destruct (Hplain "discriminators" ltac:(in_list)) as [a4 Ha4].
  destruct (Hlo "qubit_lo_range" ltac:(in_list)) as [l1 Hl1].
  destruct (Hlo "meas_lo_range" ltac:(in_list)) as [l2 Hl2].
  destruct (Htime "dt" ltac:(in_list)) as [f1 Hf1].
  destruct (Htime "dtm" ltac:(in_list)) as [f2 Hf2].
  take_value Ha1. take_value Ha2. take_value Hl1. take_value Hl2.
  take_value Ha3. take_value Ha4. take_value Hrt. take_value Hf1. take_value Hf2.
  cbv zeta.
  do 4 take_emit ltac:(intros; eexists; reflexivity).
  rewrite drop_channel_maps_None.
  2:{ dict_walk. rewrite (Qasm_to_dict_other _ _ "channels" Hout_q) by not_in_list.
      exact Hdata. }
  cbn [mbind outcome_bind].
  take_truthy Hl1 ltac:(intros _; rewrite scale_ranges_ranges; eexists; reflexivity).
  take_truthy Hl2 ltac:(intros _; rewrite scale_ranges_ranges; eexists; reflexivity).
  take_truthy Hrt ltac:(intros _; rewrite scale_list_floats; eexists; reflexivity).
  lazymatch goal with
  | |- exists _, (imul_key "dt" ?c ?d ≫= _) = Ok _ =>
      destruct (imul_key_total "dt" c f1 d) as [d7 Hd7];
      [dict_walk; apply dict_insert_eq|];
      eapply bind_total; [exact Hd7|]; cbv beta
  end.
  lazymatch goal with
  | |- exists _, (imul_key "dtm" ?c ?d ≫= _) = Ok _ =>
      destruct (imul_key_total "dtm" c f2 d) as [d8 Hd8];
      [dict_walk; apply dict_insert_eq|];
      eapply bind_total; [exact Hd8|]; cbv beta
  end.
  take_emit ltac:(intros w Hw; destruct (Hbw _ Hw) as [l ->];
                  rewrite scale_ranges_ranges; eexists; reflexivity).
  take_truthy Hh ltac:(exact Hscale).
  take_emit ltac:(intros; eexists; reflexivity).
  eexists. reflexivity.
Qed.

(** ** Gate and LO objects can be serialized *)

Lemma mapM_total {A B C : Type} (f : A -> outcome B) (g : B -> outcome C)
    (l : list A) (r : list B) :
  (forall x y, f x = Ok y -> exists z, g y = Ok z) ->
  mapM f l = Ok r -> exists r', mapM g r = Ok r'.
Proof.
  intros Hfg. revert r. induction l as [|x l IH]; intros r.
  - intros [= <-]. exists []. reflexivity.
  - intros H. apply mapM_cons_Ok in H as (y & r0 & Hy & Hr0 & ->).
    destruct (Hfg _ _ Hy) as [z Hz]. destruct (IH _ Hr0) as [r' Hr'].
    exists (z :: r'). cbn [mapM]. rewrite Hz. cbn. rewrite Hr'. reflexivity.
Qed.

Lemma GateConfig_serialisable (x g : value) :
  GateConfig_from_dict x = Ok g -> exists d, GateConfig_to_dict g = Ok d.
Proof.
  unfold GateConfig_from_dict. destruct x; try discriminate.
  intros H. apply bind_Ok in H as ([p kw] & _ & [= <-]).
  unfold GateConfig__init__. cbv zeta.
  destruct (truthy (p !!! "coupling_map")), (truthy (p !!! "latency_map")),
    (is_not_None (p !!! "conditional")), (is_not_None (p !!! "description"));
    eexists; reflexivity.
Qed.

Lemma pop_gates_serialisable (data : gmap string value) (gates : value) :
  pop_gates data = Ok gates ->
  exists gs ds, gates = VList gs /\ mapM GateConfig_to_dict gs = Ok ds.
Proof.
  unfold pop_gates. destruct (data !! "gates") as [g|]; [|discriminate].
  intros H. apply bind_Ok in H as (xs & _ & H).
  apply bind_Ok in H as (gs & Hgs & [= <-]).
  destruct (mapM_total _ GateConfig_to_dict _ _ GateConfig_serialisable Hgs) as [ds Hds].
  exists gs, ds. split; [reflexivity | exact Hds].
Qed.

Lemma UchannelLO_serialisable (x y : value) :
  UchannelLO_from_dict x = Ok y -> exists d, UchannelLO_to_dict y = Ok d.
Proof.
  unfold UchannelLO_from_dict. destruct x; try discriminate.
  intros H. apply bind_Ok in H as ([p kw] & _ & H).
  unfold UchannelLO__init__ in H. apply bind_Ok in H as (neg & _ & H).
  destruct neg; [discriminate|]. injection H as <-.
  eexists. reflexivity.
Qed.

Lemma u_channel_lo_serialisable (x y : value) :
  u_channel_lo_from_dict x = Ok y -> exists d, u_channel_lo_to_dict y = Ok d.
Proof.
  unfold u_channel_lo_from_dict. intros H.
  apply bind_Ok in H as (xs & _ & H).
  apply bind_Ok in H as (los & Hlos & [= <-]).
  destruct (mapM_total _ UchannelLO_to_dict _ _ UchannelLO_serialisable Hlos) as [ds Hds].
  exists (VList ds). unfold u_channel_lo_to_dict. cbn [py_iter mbind outcome_bind].
  rewrite Hds. reflexivity.
Qed.

Lemma pop_u_channel_lo_serialisable (data : gmap string value) (u : value) :
  pop_u_channel_lo data = Ok u ->
  exists us cs, u = VList us /\ mapM u_channel_lo_to_dict us = Ok cs.
Proof.
  unfold pop_u_channel_lo. destruct (data !! "u_channel_lo") as [g|]; [|discriminate].
  intros H. apply bind_Ok in H as (xs & _ & H).
  apply bind_Ok in H as (us & Hus & [= <-]).
  destruct (mapM_total _ u_channel_lo_to_dict _ _ u_channel_lo_serialisable Hus) as [cs Hcs].
  exists us, cs. split; [reflexivity | exact Hcs].
Qed.

(** ** The hamiltonian can be scaled back *)

Lemma alist_lookup_set (k : string) (v : value) (d : list (string * value)) :
  alist_lookup k (alist_set k v d) = Some v.
Proof.
  induction d as [|[k' v'] d IH]; simpl.
  - rewrite String.eqb_refl. reflexivity.
  - destruct (String.eqb k k') eqn:E; simpl.
    + rewrite String.eqb_refl. reflexivity.
    + rewrite E. exact IH.
Qed.

Lemma scale_vars_Ok (c : float) (vars w : value) :
  scale_vars c vars = Ok w -> exists d, w = VDict d /\ Forall scaled_entry d.
Proof.
  unfold scale_vars. destruct vars as [| | | | | |d|]; try discriminate.
  intros H. apply bind_Ok in H as (d' & Hd' & [= <-]).
  exists d'. split; [reflexivity|].
  revert d' Hd'. induction d as [|[k v] d IH]; intros d'.
  - intros [= <-]. constructor.
  - intros H. apply mapM_cons_Ok in H as (y & r & Hy & Hr & ->).
    constructor; [|apply IH; exact Hr].
    cbn [snd fst] in Hy. unfold scaled_entry.
    destruct (is_number v) eqn:Hnum.
    + apply bind_Ok in Hy as (v' & Hv' & [= <-]).
      intros _. apply (py_mul_Ok_float _ _ _ Hv').
    + injection Hy as <-. cbn [snd]. rewrite Hnum. discriminate.
Qed.

Lemma scale_vars_scaled (c : float) (d : list (string * value)) :
  Forall scaled_entry d -> exists w, scale_vars c (VDict d) = Ok w.
Proof.
  intros Hd. unfold scale_vars.
  assert (H : exists d', mapM (fun kv : string * value =>
                if is_number kv.2 then v' ← py_mul c kv.2; mret (kv.1, v')
                else mret kv) d = Ok d').
  { induction Hd as [|kv d Hkv Hd IH]; [exists []; reflexivity|].
    destruct IH as [d' Hd']. cbn [mapM].
    destruct (is_number kv.2) eqn:Hnum.
    - destruct (Hkv Hnum) as [f Hf]. rewrite Hf. cbn. rewrite Hd'.
      eexists. reflexivity.
    - cbn. rewrite Hd'. eexists. reflexivity. }
  destruct H as [d' ->]. eexists. reflexivity.
Qed.

Lemma scale_hamiltonian_again (c c' : float) (h0 h : value) :
  scale_hamiltonian c h0 = Ok h -> exists h', scale_hamiltonian c' h = Ok h'.
Proof.
  unfold scale_hamiltonian at 1. destruct h0 as [| | | | | |d|]; try discriminate.
  intros H. apply bind_Ok in H as (vars & _ & H).
  apply bind_Ok in H as (vars' & Hvars' & [= <-]).
  apply scale_vars_Ok in Hvars' as (d' & -> & Hd').
  unfold scale_hamiltonian, py_getitem. rewrite alist_lookup_set.
  cbn [mbind outcome_bind].
  destruct (scale_vars_scaled c' d' Hd') as [w ->]. eexists. reflexivity.
Qed.

(** ** Constructed instances *)

Lemma lookup_total_Some (m : gmap string value) (k : string) (v : value) :
  m !! k = Some v -> m !!! k = v.
Proof. intros H. rewrite lookup_total_alt, H. reflexivity. Qed.

Lemma attrs_new_instance (k : string) : attrs new_instance !! k = None.
Proof. apply lookup_empty. Qed.

Lemma Qasm_converted_not_named (k : string) :
  k ∈ Qasm_attributes -> k ∉ ["qubit_lo_range"; "meas_lo_range"; "rep_times"].
Proof.
  intros Hk Hin.
  assert (Hno : forall x, x ∈ ["qubit_lo_range"; "meas_lo_range"; "rep_times"] ->
                          x ∉ Qasm_attributes).
  { intros x Hx. repeat (apply elem_of_cons in Hx as [->|Hx]);
      [ .. | by apply elem_of_nil in Hx ];
      apply (bool_decide_unpack _); vm_compute; exact I. }
  exact (Hno k Hin Hk).
Qed.

Lemma Qasm__init__data_named (self cfg : Instance) (p kwargs : gmap string value)
    (k : string) :
  Qasm__init__ self p kwargs = Ok cfg ->
  k ∈ Qasm_attributes -> kwargs !! k = None -> _data cfg !! k = None.
Proof.
  intros H Hk Hkw.
  rewrite (Qasm__init__data_other _ _ _ _ _ H) by (apply Qasm_converted_not_named; exact Hk).
  exact Hkw.
Qed.

Lemma bind_keywords_kwargs_named (required : list string)
    (optional : list (string * value)) (var_keyword : bool)
    (call p kwargs : gmap string value) (k : string) :
  bind_keywords required optional var_keyword call = Ok (p, kwargs) ->
  k ∈ (required ++ optional.*1)%list -> kwargs !! k = None.
Proof.
  intros Hbind Hk. rewrite (bind_keywords_kwargs _ _ _ _ _ _ k Hbind).
  rewrite bool_decide_eq_true_2 by exact Hk. reflexivity.
Qed.

Lemma QasmBackendConfiguration_data_named (call : gmap string value)
    (cfg : Instance) (k : string) :
  QasmBackendConfiguration call = Ok cfg ->
  k ∈ Qasm_attributes -> _data cfg !! k = None.
Proof.
  unfold QasmBackendConfiguration. intros H Hk.
  apply bind_Ok in H as ([p kwargs] & Hbind & H).
  apply (Qasm__init__data_named _ _ _ _ _ H Hk).
  apply (bind_keywords_kwargs_named _ _ _ _ _ _ _ Hbind Hk).
Qed.

(** An instance the constructor has initialised can be serialized, when
    its gates can and what was set before has the right form. *)
Lemma Qasm__init__serialisable (self cfg : Instance) (p kwargs : gmap string value)
    (gs ds : list value) :
  Qasm__init__ self p kwargs = Ok cfg ->
  (forall k, k ∈ Qasm_attributes -> kwargs !! k = None) ->
  p !!! "gates" = VList gs ->
  mapM GateConfig_to_dict gs = Ok ds ->
  attrs self !! "rep_delay_range" = None ->
  attrs self !! "default_rep_delay" = None ->
  (forall k v, k ∈ ["dt"; "dtm"] -> attrs self !! k = Some v -> exists f, v = VFloat f) ->
  Qasm_serialisable cfg.
Proof.
  intros Hinit Hkw Hgates Hds Hs1 Hs2 Hs3.
  pose proof (Qasm__init__data_named _ _ _ _ "rep_delay_range" Hinit
                ltac:(in_list) (Hkw "rep_delay_range" ltac:(in_list))) as Hd1.
  pose proof (Qasm__init__data_named _ _ _ _ "default_rep_delay" Hinit
                ltac:(in_list) (Hkw "default_rep_delay" ltac:(in_list))) as Hd2.
  pose proof (Qasm__init__data_named _ _ _ _ "dt" Hinit
                ltac:(in_list) (Hkw "dt" ltac:(in_list))) as Hd3.
  pose proof (Qasm__init__data_named _ _ _ _ "dtm" Hinit
                ltac:(in_list) (Hkw "dtm" ltac:(in_list))) as Hd4.
  pose proof (Qasm__init__converted _ _ _ _ Hinit) as (C1 & C2 & C3 & C4).
  rewrite Hs1 in C1. rewrite Hs2 in C2.
  repeat split.
  - intros k Hk. unfold getattr_opt.
    rewrite (Qasm__init__required _ _ _ _ k Hinit); [eexists; reflexivity|].
    unfold Qasm_verbatim_required in Hk.
    repeat (apply elem_of_cons in Hk as [->|Hk]; [in_list|]).
    by apply elem_of_nil in Hk.
  - exists gs, ds. split; [|exact Hds]. unfold getattr_opt.
    rewrite (Qasm__init__required _ _ _ _ "gates" Hinit) by in_list.
    rewrite Hgates. reflexivity.
  - intros v. rewrite getattr_opt_attrs by exact Hd1.
    destruct (truthy (p !!! "rep_delay_range")).
    + destruct C1 as (x & Hx & ->). intros [= <-]. apply (scale_list_Ok _ _ _ Hx).
    + rewrite C1. discriminate.
  - intros v. rewrite getattr_opt_attrs by exact Hd2.
    destruct (is_not_None (p !!! "default_rep_delay")).
    + destruct C2 as (x & Hx & ->). intros [= <-]. apply (py_mul_Ok_float _ _ _ Hx).
    + rewrite C2. discriminate.
  - apply elem_of_cons in H as [->|H]; [exact Hd3|].
    apply elem_of_cons in H as [->|H]; [exact Hd4|]. by apply elem_of_nil in H.
  - intros v. apply elem_of_cons in H as [->|H];
      [|apply elem_of_cons in H as [->|H]; [|by apply elem_of_nil in H]].
    + destruct (is_not_None (p !!! "dt")).
      * destruct C3 as (x & Hx & ->). intros [= <-]. apply (py_mul_Ok_float _ _ _ Hx).
      * rewrite C3. apply Hs3. in_list.
    + destruct (is_not_None (p !!! "dtm")).
      * destruct C4 as (x & Hx & ->). intros [= <-]. apply (py_mul_Ok_float _ _ _ Hx).
      * rewrite C4. apply Hs3. in_list.
  - intros k v Hk Hv.
    pose proof (Qasm__init__data_lo_range _ _ _ _ k Hinit Hk) as E.
    destruct (kwargs !! k).
    + destruct E as (v' & Hv' & E). rewrite E in Hv. injection Hv as <-.
      apply (scale_ranges_Ok _ _ _ Hv').
    + congruence.
Qed.

Lemma QasmBackendConfiguration_serialisable (call : gmap string value)
    (cfg : Instance) (gs ds : list value) :
  QasmBackendConfiguration call = Ok cfg ->
  call !! "gates" = Some (VList gs) ->
  mapM GateConfig_to_dict gs = Ok ds ->
  Qasm_serialisable cfg.
Proof.
  intros Hnew Hgates Hds.
  unfold QasmBackendConfiguration in Hnew.
  apply bind_Ok in Hnew as ([p kwargs] & Hbind & Hinit).
  apply (Qasm__init__serialisable _ _ _ _ gs ds Hinit); try assumption.
  - intros k Hk. apply (bind_keywords_kwargs_named _ _ _ _ _ _ _ Hbind Hk).
  - apply lookup_total_Some.
    rewrite (bind_keywords_arg _ _ _ _ _ _ "gates" Hbind) by in_list.
    rewrite Hgates. reflexivity.
  - apply attrs_new_instance.
  - apply attrs_new_instance.
  - intros k v _. rewrite attrs_new_instance. discriminate.
Qed.

(** ** Constructed pulse instances *)

Lemma walk_init_channels_ne (ch : value) (s s' : Instance) (k : string)
    (r : option value) :
  init_channels ch s = Ok s' -> "channels" ≠ k -> attrs s !! k = r -> attrs s' !! k = r.
Proof. intros H Hne <-. apply (init_channels_attrs_ne _ _ _ _ H Hne). Qed.

Ltac pulse_attrs_step :=
  first
    [ attrs_step
    | lazymatch goal with
      | |- attrs ?s' !! _ = _ =>
          lazymatch goal with
          | H : init_channels _ _ = Ok s' |- _ =>
              apply (walk_init_channels_ne _ _ _ _ _ H); [key_ne|]
          end
      end ].

Ltac pulse_attrs_simpl := repeat pulse_attrs_step.

(** The attributes only the pulse constructor sets stay as it set them. *)
Lemma Pulse__init__plain (cfg : Instance) (p kwargs : gmap string value) (k : string) :
  Pulse__init__ new_instance p kwargs = Ok cfg ->
  k ∈ ["n_uchannels"; "u_channel_lo"; "meas_levels"; "meas_kernels"; "discriminators"] ->
  attrs cfg !! k = Some (p !!! k).
Proof.
  intros H Hk. invert_Pulse__init__ H.
  repeat (apply elem_of_cons in Hk as [->|Hk];
    [ rewrite (Qasm__init__frame _ _ _ _ _ H) by not_in_list;
      pulse_attrs_simpl; apply walk_setattr_eq |]).
  by apply elem_of_nil in Hk.
Qed.

Lemma Pulse__init__lo_range (cfg : Instance) (p kwargs : gmap string value) (k : string) :
  Pulse__init__ new_instance p kwargs = Ok cfg ->
  k ∈ ["qubit_lo_range"; "meas_lo_range"] ->
  exists v, scale_ranges 1e9 (p !!! k) = Ok v /\ attrs cfg !! k = Some v.
Proof.
  intros H Hk. invert_Pulse__init__ H.
  apply elem_of_cons in Hk as [->|Hk];
    [|apply elem_of_cons in Hk as [->|Hk]; [|by apply elem_of_nil in Hk]].
  - exists qlr. split; [assumption|].
    rewrite (Qasm__init__frame _ _ _ _ _ H) by not_in_list.
    pulse_attrs_simpl. apply walk_setattr_eq.
  - exists mlr. split; [assumption|].
    rewrite (Qasm__init__frame _ _ _ _ _ H) by not_in_list.
    pulse_attrs_simpl. apply walk_setattr_eq.
Qed.

Lemma Pulse__init__rep_times (cfg : Instance) (p kwargs : gmap string value) :
  Pulse__init__ new_instance p kwargs = Ok cfg ->
  exists v, scale_list 1e-6 (p !!! "rep_times") = Ok v /\
    attrs cfg !! "rep_times" = Some v.
Proof.
  intros H. invert_Pulse__init__ H.
  exists rt. split; [assumption|].
  rewrite (Qasm__init__frame _ _ _ _ _ H) by not_in_list.
  pulse_attrs_simpl. apply walk_setattr_eq.
Qed.

Lemma Pulse__init__channel_bandwidth (cfg : Instance) (p kwargs : gmap string value)
    (v : value) :
  Pulse__init__ new_instance p kwargs = Ok cfg ->
  attrs cfg !! "channel_bandwidth" = Some v -> exists l, v = ranges l.
Proof.
  intros H. invert_Pulse__init__ H.
  rewrite (Qasm__init__frame _ _ _ _ _ H) by not_in_list.
  pose proof (set_whenM_attrs_eq _ _ _ _ _ Hbw) as E.
  assert (Ev : attrs t3 !! "channel_bandwidth" = Some v ->
               exists l, v = ranges l).
  { destruct (is_not_None (p !!! "channel_bandwidth")).
    - destruct E as (x & Hx & ->). intros [= <-]. apply (scale_ranges_Ok _ _ _ Hx).
    - rewrite E.
      assert (E0 : attrs t2 !! "channel_bandwidth" = None)
        by (pulse_attrs_simpl; apply attrs_new_instance).
      rewrite E0. discriminate. }
  intros Hv. apply Ev. rewrite <- Hv. symmetry.
  pulse_attrs_simpl. reflexivity.
Qed.

Lemma Pulse__init__hamiltonian (cfg : Instance) (p kwargs : gmap string value) :
  Pulse__init__ new_instance p kwargs = Ok cfg ->
  exists h, attrs cfg !! "hamiltonian" = Some h /\
    (truthy h = true -> exists h', scale_hamiltonian 1e-9 h = Ok h').
Proof.
  intros H. invert_Pulse__init__ H.
  pose proof (set_whenM_attrs_eq _ _ _ _ _ Hham) as E.
  destruct (is_not_None (p !!! "hamiltonian")) eqn:Hnone.
  - destruct E as (h & Hh & E). exists h. split.
    + rewrite (Qasm__init__frame _ _ _ _ _ H) by not_in_list.
      pulse_attrs_simpl. exact E.
    + intros _. apply (scale_hamiltonian_again _ _ _ _ Hh).
  - exists (p !!! "hamiltonian"). split.
    + rewrite (Qasm__init__frame _ _ _ _ _ H) by not_in_list.
      pulse_attrs_simpl. rewrite E. apply walk_setattr_eq.
    + destruct (p !!! "hamiltonian"); discriminate.
Qed.

(** The keyword arguments of the call of [super().__init__]. *)
Lemma super_call_named (p kwargs : gmap string value) (k : string) :
  k ∈ Pulse_super_named -> is_Some (p !! k) ->
  (filter (fun kv : string * value => kv.1 ∈ Pulse_super_named) p ∪ kwargs) !! k = p !! k.
Proof.
  intros Hk [v Hv]. rewrite lookup_union, filter_named_lookup.
  rewrite bool_decide_eq_true_2 by exact Hk. rewrite Hv.
  destruct (kwargs !! k); reflexivity.
Qed.

Lemma super_call_other (p kwargs : gmap string value) (k : string) :
  k ∉ Pulse_super_named ->
  (filter (fun kv : string * value => kv.1 ∈ Pulse_super_named) p ∪ kwargs) !! k =
    kwargs !! k.
Proof.
  intros Hk. rewrite lookup_union, filter_named_lookup.
  rewrite bool_decide_eq_false_2 by exact Hk.
  destruct (kwargs !! k); reflexivity.
Qed.

Lemma Pulse__init__time_step (cfg : Instance) (p kwargs : gmap string value) (k : string) :
  Pulse__init__ new_instance p kwargs = Ok cfg ->
  kwargs !! k = None ->
  k ∈ ["dt"; "dtm"] ->
  exists v, py_mul 1e-9 (p !!! k) = Ok v /\ attrs cfg !! k = Some v.
Proof.
  intros H Hkw Hk. invert_Pulse__init__ H.
  pose proof (Qasm__init__converted _ _ _ _ H) as (_ & _ & C3 & C4).
  assert (Harg : p' !!! k = VNone).
  { rewrite lookup_total_alt.
    rewrite (bind_keywords_arg _ _ _ _ _ _ k Hbind).
    - rewrite super_call_other, Hkw.
      + repeat (apply elem_of_cons in Hk as [->|Hk]; [reflexivity|]).
        by apply elem_of_nil in Hk.
      + repeat (apply elem_of_cons in Hk as [->|Hk]; [not_in_list|]).
        by apply elem_of_nil in Hk.
    - repeat (apply elem_of_cons in Hk as [->|Hk]; [in_list|]).
      by apply elem_of_nil in Hk. }
  apply elem_of_cons in Hk as [->|Hk];
    [|apply elem_of_cons in Hk as [->|Hk]; [|by apply elem_of_nil in Hk]].
  - rewrite Harg in C3. cbn [is_not_None] in C3. rewrite C3.
    exists dt. split; [assumption|]. pulse_attrs_simpl. apply walk_setattr_eq.
  - rewrite Harg in C4. cbn [is_not_None] in C4. rewrite C4.
    exists dtm. split; [assumption|]. pulse_attrs_simpl. apply walk_setattr_eq.
Qed.

Lemma convert_key_None (k k' : string) (conv : value -> outcome value)
    (d d' : gmap string value) :
  convert_key k' conv d = Ok d' -> d !! k = None -> d' !! k = None.
Proof.
  intros H Hd. destruct (decide (k' = k)) as [->|Hne].
  - pose proof (convert_key_eq _ _ _ _ H) as E. rewrite Hd in E. exact E.
  - apply convert_key_Ok in H as (o & -> & _).
    rewrite insert_opt_ne by exact Hne. exact Hd.
Qed.

Lemma Qasm__init__data_None (self cfg : Instance) (p kwargs : gmap string value)
    (k : string) :
  Qasm__init__ self p kwargs = Ok cfg -> kwargs !! k = None -> _data cfg !! k = None.
Proof.
  intros H Hk. apply Qasm__init__data in H as (kw1 & kw2 & H1 & H2 & H3).
  apply (convert_key_None _ _ _ _ _ H3).
  apply (convert_key_None _ _ _ _ _ H2).
  apply (convert_key_None _ _ _ _ _ H1). exact Hk.
Qed.

Lemma Pulse_super_named_Qasm (k : string) :
  k ∈ Pulse_super_named -> k ∈ Qasm_attributes.
Proof.
  unfold Pulse_super_named. intros Hk.
  repeat (apply elem_of_cons in Hk as [->|Hk]; [in_list|]).
  by apply elem_of_nil in Hk.
Qed.

(** What a pulse instance has in [_data]: the keyword arguments that are
    parameters of neither constructor. *)
Lemma Pulse__init__data (cfg : Instance) (p kwargs : gmap string value) (k : string) :
  Pulse__init__ new_instance p kwargs = Ok cfg ->
  (k ∈ Pulse_attributes -> kwargs !! k = None) ->
  _data cfg !! k = if bool_decide (k ∈ Qasm_attributes) then None else kwargs !! k.
Proof.
  intros H Hnamed. invert_Pulse__init__ H.
  case_bool_decide as Hk.
  - apply (Qasm__init__data_named _ _ _ _ _ H Hk).
    apply (bind_keywords_kwargs_named _ _ _ _ _ _ _ Hbind Hk).
  - assert (Hkw' : kwargs' !! k = kwargs !! k).
    { rewrite (bind_keywords_kwargs _ _ _ _ _ _ k Hbind).
      unfold Qasm_attributes in Hk. rewrite bool_decide_eq_false_2 by exact Hk.
      apply super_call_other. intros Hs. apply Hk.
      apply (Pulse_super_named_Qasm _ Hs). }
    destruct (kwargs !! k) as [v|] eqn:Hv.
    + destruct (decide (k ∈ ["qubit_lo_range"; "meas_lo_range"; "rep_times"]))
        as [Hc|Hc].
      * assert (Hin : k ∈ Pulse_attributes).
        { repeat (apply elem_of_cons in Hc as [->|Hc]; [in_list|]).
          by apply elem_of_nil in Hc. }
        specialize (Hnamed Hin). congruence.
      * rewrite (Qasm__init__data_other _ _ _ _ _ H) by exact Hc. exact Hkw'.
    + apply (Qasm__init__data_None _ _ _ _ _ H). exact Hkw'.
Qed.

Lemma getattr_opt_Some (self : Instance) (k : string) (v : value) :
  attrs self !! k = Some v -> getattr_opt self k = Some v.
Proof. unfold getattr_opt. intros ->. reflexivity. Qed.

Lemma super_call_arg (p kwargs p' kwargs' : gmap string value) (k : string) :
  bind_keywords Qasm_required Qasm_optional true
    (filter (fun kv : string * value => kv.1 ∈ Pulse_super_named) p ∪ kwargs)
    = Ok (p', kwargs') ->
  k ∈ Pulse_super_named -> is_Some (p !! k) -> p' !!! k = p !!! k.
Proof.
  intros Hbind Hk Hp. rewrite !lookup_total_alt.
  rewrite (bind_keywords_arg _ _ _ _ _ _ k Hbind)
    by (apply Pulse_super_named_Qasm; exact Hk).
  rewrite (super_call_named _ _ _ Hk Hp).
  destruct Hp as [v ->]. reflexivity.
Qed.

Lemma Pulse__init__required (cfg : Instance) (p kwargs : gmap string value) (k : string) :
  Pulse__init__ new_instance p kwargs = Ok cfg ->
  k ∈ Qasm_required -> is_Some (p !! k) ->
  attrs cfg !! k = Some (p !!! k).
Proof.
  intros H Hk Hp. invert_Pulse__init__ H.
  rewrite (Qasm__init__required _ _ _ _ k H) by (right; exact Hk).
  f_equal. apply (super_call_arg _ _ _ _ _ Hbind); [|exact Hp].
  unfold Qasm_required in Hk.
  repeat (apply elem_of_cons in Hk as [->|Hk]; [in_list|]).
  by apply elem_of_nil in Hk.
Qed.

Lemma Pulse__init__Qasm_serialisable (cfg : Instance) (p kwargs : gmap string value)
    (gs ds : list value) :
  Pulse__init__ new_instance p kwargs = Ok cfg ->
  is_Some (p !! "gates") ->
  p !!! "gates" = VList gs ->
  mapM GateConfig_to_dict gs = Ok ds ->
  Qasm_serialisable cfg.
Proof.
  intros H Hsome Hgates Hds. invert_Pulse__init__ H.
  apply (Qasm__init__serialisable _ _ _ _ gs ds H).
  - intros k Hk. apply (bind_keywords_kwargs_named _ _ _ _ _ _ _ Hbind Hk).
  - rewrite (super_call_arg _ _ _ _ "gates" Hbind) by (in_list || exact Hsome).
    exact Hgates.
  - exact Hds.
  - pulse_attrs_simpl. apply attrs_new_instance.
  - pulse_attrs_simpl. apply attrs_new_instance.
  - intros k v Hk.
    apply elem_of_cons in Hk as [->|Hk];
      [|apply elem_of_cons in Hk as [->|Hk]; [|by apply elem_of_nil in Hk]].
    + assert (E : attrs
        (set_when (is_not_None (p !!! "meas_map")) "meas_map" (p !!! "meas_map")
           (set_when (is_not_None (p !!! "conditional_latency"))
              "conditional_latency" (p !!! "conditional_latency")
              (set_when (is_not_None (p !!! "acquisition_latency"))
                 "acquisition_latency" (p !!! "acquisition_latency") t3)))
        !! "dt" = Some dt)
        by (pulse_attrs_simpl; apply walk_setattr_eq).
      rewrite E. intros [= <-]. apply (py_mul_Ok_float _ _ _ Hpdt).
    + assert (E : attrs
        (set_when (is_not_None (p !!! "meas_map")) "meas_map" (p !!! "meas_map")
           (set_when (is_not_None (p !!! "conditional_latency"))
              "conditional_latency" (p !!! "conditional_latency")
              (set_when (is_not_None (p !!! "acquisition_latency"))
                 "acquisition_latency" (p !!! "acquisition_latency") t3)))
        !! "dtm" = Some dtm)
        by (pulse_attrs_simpl; apply walk_setattr_eq).
      rewrite E. intros [= <-]. apply (py_mul_Ok_float _ _ _ Hpdtm).
Qed.

Lemma Pulse__init__serialisable (cfg : Instance) (p kwargs : gmap string value)
    (gs ds us cs : list value) :
  Pulse__init__ new_instance p kwargs = Ok cfg ->
  (forall k, k ∈ Pulse_attributes -> kwargs !! k = None) ->
  (forall k, k ∈ Pulse_attributes -> is_Some (p !! k)) ->
  p !!! "gates" = VList gs -> mapM GateConfig_to_dict gs = Ok ds ->
  p !!! "u_channel_lo" = VList us -> mapM u_channel_lo_to_dict us = Ok cs ->
  Pulse_serialisable cfg.
Proof.
  intros H Hkw Hp Hgates Hds Hus Hcs.
  split; [|split; [|split; [|split; [|split; [|split; [|split; [|split]]]]]]].
  - apply (Pulse__init__Qasm_serialisable _ _ _ gs ds H); try assumption.
    apply Hp. in_list.
  - rewrite (Pulse__init__data _ _ _ "channels" H) by (intros _; apply Hkw; in_list).
    rewrite bool_decide_eq_false_2 by not_in_list. apply Hkw. in_list.
  - exists us, cs. split; [|exact Hcs]. apply getattr_opt_Some.
    rewrite (Pulse__init__plain _ _ _ "u_channel_lo" H) by in_list.
    rewrite Hus. reflexivity.
  - intros k Hk. exists (p !!! k). apply getattr_opt_Some.
    apply (Pulse__init__plain _ _ _ k H).
    repeat (apply elem_of_cons in Hk as [->|Hk]; [in_list|]).
    by apply elem_of_nil in Hk.
  - intros k Hk. destruct (Pulse__init__lo_range _ _ _ k H Hk) as (v & Hv & Hattr).
    destruct (scale_ranges_Ok _ _ _ Hv) as [l ->].
    exists l. apply getattr_opt_Some. exact Hattr.
  - destruct (Pulse__init__rep_times _ _ _ H) as (v & Hv & Hattr).
    destruct (scale_list_Ok _ _ _ Hv) as [l ->].
    exists l. apply getattr_opt_Some. exact Hattr.
  - intros k Hk.
    destruct (Pulse__init__time_step _ _ _ k H) as (v & Hv & Hattr).
    + apply Hkw. repeat (apply elem_of_cons in Hk as [->|Hk]; [in_list|]).
      by apply elem_of_nil in Hk.
    + exact Hk.
    + destruct (py_mul_Ok_float _ _ _ Hv) as [f ->].
      exists f. apply getattr_opt_Some. exact Hattr.
  - intros v. rewrite getattr_opt_attrs.
    + apply (Pulse__init__channel_bandwidth _ _ _ _ H).
    + rewrite (Pulse__init__data _ _ _ "channel_bandwidth" H)
        by (intros _; apply Hkw; in_list).
      rewrite bool_decide_eq_false_2 by not_in_list. apply Hkw. in_list.
  - destruct (Pulse__init__hamiltonian _ _ _ H) as (h & Hh & Hscale).
    exists h. split; [apply getattr_opt_Some; exact Hh | exact Hscale].
Qed.

(** What binding the keywords of a call of the pulse constructor gives. *)
Lemma Pulse_optional_default (k : string) :
  k ∈ Pulse_optional.*1 ->
  (list_to_map Pulse_optional : gmap string value) !! k = Some VNone.
Proof.
  intros Hk. cbn in Hk.
  repeat (apply elem_of_cons in Hk as [->|Hk]; [vm_compute; reflexivity|]).
  by apply elem_of_nil in Hk.
Qed.

Lemma PulseBackendConfiguration_bound (call : gmap string value) (cfg : Instance) :
  PulseBackendConfiguration call = Ok cfg ->
  exists p kwargs,
    Pulse__init__ new_instance p kwargs = Ok cfg /\
    (forall k, k ∈ Pulse_attributes -> kwargs !! k = None) /\
    (forall k, k ∈ Pulse_attributes -> is_Some (p !! k)) /\
    (forall k v, k ∈ Pulse_attributes -> call !! k = Some v -> p !!! k = v) /\
    (forall k, k ∈ Pulse_required -> p !! k = call !! k) /\
    (forall k, k ∉ Pulse_attributes -> kwargs !! k = call !! k).
Proof.
  unfold PulseBackendConfiguration. intros H.
  apply bind_Ok in H as ([p kwargs] & Hbind & H).
  exists p, kwargs. split; [exact H|].
  pose proof (bind_keywords_inv _ _ _ _ _ _ Hbind) as (_ & _ & Hreq).
  rewrite Forall_forall in Hreq.
  split; [|split; [|split; [|split]]].
  - intros k Hk. apply (bind_keywords_kwargs_named _ _ _ _ _ _ _ Hbind Hk).
  - intros k Hk. rewrite (bind_keywords_arg _ _ _ _ _ _ k Hbind) by exact Hk.
    destruct (call !! k) as [v|] eqn:Hc; [eexists; reflexivity|].
    unfold Pulse_attributes in Hk. apply elem_of_app in Hk as [Hk|Hk].
    + apply Hreq in Hk. rewrite Hc in Hk. destruct Hk as [? Hk]. discriminate.
    + rewrite (Pulse_optional_default _ Hk). eexists. reflexivity.
  - intros k v Hk Hc. apply lookup_total_Some.
    rewrite (bind_keywords_arg _ _ _ _ _ _ k Hbind) by exact Hk.
    rewrite Hc. reflexivity.
  - intros k Hk.
    rewrite (bind_keywords_arg _ _ _ _ _ _ k Hbind)
      by (apply elem_of_app; left; exact Hk).
    destruct (Hreq _ Hk) as [v ->]. reflexivity.
  - intros k Hk. rewrite (bind_keywords_kwargs _ _ _ _ _ _ k Hbind).
    unfold Pulse_attributes in Hk. rewrite bool_decide_eq_false_2 by exact Hk.
    reflexivity.
Qed.

Lemma Pulse__init__data_named (cfg : Instance) (p kwargs : gmap string value) (k : string) :
  Pulse__init__ new_instance p kwargs = Ok cfg ->
  (forall k, k ∈ Pulse_attributes -> kwargs !! k = None) ->
  k ∈ Pulse_attributes \/ k ∈ Qasm_attributes ->
  _data cfg !! k = None.
Proof.
  intros H Hkw Hk.
  rewrite (Pulse__init__data _ _ _ k H) by apply Hkw.
  case_bool_decide as Hq; [reflexivity|].
  destruct Hk as [Hk|Hk]; [apply Hkw; exact Hk | contradiction].
Qed.

Lemma Pulse_from_dict_inv (data : gmap string value) (cfg : Instance) :
  Pulse_from_dict data = Ok cfg ->
  exists call gs ds us cs,
    PulseBackendConfiguration call = Ok cfg /\
    call !! "gates" = Some (VList gs) /\ mapM GateConfig_to_dict gs = Ok ds /\
    call !! "u_channel_lo" = Some (VList us) /\
    mapM u_channel_lo_to_dict us = Ok cs /\
    (forall k, k ≠ "gates" -> k ≠ "u_channel_lo" -> call !! k = data !! k).
Proof.
  unfold Pulse_from_dict. intros H.
  apply bind_Ok in H as (gates & Hgates & H). cbv zeta in H.
  apply bind_Ok in H as (u & Hu & H).
  destruct (pop_gates_serialisable _ _ Hgates) as (gs & ds & -> & Hds).
  destruct (pop_u_channel_lo_serialisable _ _ Hu) as (us & cs & -> & Hcs).
  exists (<["u_channel_lo" := VList us]> (<["gates" := VList gs]> data)), gs, ds, us, cs.
  split; [exact H|]. split; [|split; [exact Hds|split; [|split; [exact Hcs|]]]].
  - rewrite dict_insert_ne by discriminate. apply dict_insert_eq.
  - apply dict_insert_eq.
  - intros k Hg Hu'. rewrite dict_insert_ne by (apply not_eq_sym; exact Hu').
    apply dict_insert_ne. apply not_eq_sym. exact Hg.
Qed.

Lemma lookup_total_is_Some (m : gmap string value) (k : string) :
  is_Some (m !! k) -> Some (m !!! k) = m !! k.
Proof. intros [v Hv]. rewrite Hv. f_equal. apply lookup_total_Some. exact Hv. Qed.

Lemma Pulse_written_attributes (k : string) :
  k ∈ Pulse_written -> k ∈ Pulse_attributes.
Proof.
  unfold Pulse_written. intros Hk.
  repeat (apply elem_of_cons in Hk as [->|Hk]; [not_in_list|]).
  by apply elem_of_nil in Hk.
Qed.

Lemma Qasm_emitted_attributes (k : string) :
  k ∈ "qubit_lo_range" :: "meas_lo_range" :: Qasm_emitted ->
  k ∈ Pulse_attributes \/ k ∈ Qasm_attributes.
Proof.
  unfold Qasm_emitted. intros Hk.
  apply elem_of_cons in Hk as [->|Hk]; [left; not_in_list|].
  apply elem_of_cons in Hk as [->|Hk]; [left; not_in_list|].
  repeat (apply elem_of_cons in Hk as [->|Hk]; [right; not_in_list|]).
  by apply elem_of_nil in Hk.
Qed.

(** ** There and back again *)

Lemma round_trip_time_step (cfg : Instance) (p kwargs out : gmap string value)
    (k : string) (x : float) :
  Pulse__init__ new_instance p kwargs = Ok cfg ->
  (forall k, k ∈ Pulse_attributes -> kwargs !! k = None) ->
  Pulse_to_dict cfg = Ok out ->
  k ∈ ["dt"; "dtm"] ->
  p !!! k = VFloat x ->
  out !! k = Some (VFloat (there_and_back 1e-9 1e9 x)).
Proof.
  intros Hinit Hkw Hout Hk Hx.
  assert (Hnamed : k ∈ Pulse_attributes).
  { repeat (apply elem_of_cons in Hk as [->|Hk]; [not_in_list|]).
    by apply elem_of_nil in Hk. }
  assert (Hch : _data cfg !! "channels" = None)
    by (apply (Pulse__init__data_named _ _ _ _ Hinit Hkw); left; not_in_list).
  destruct (Pulse_to_dict_time_step _ _ k Hout Hch Hk) as (v & v' & Hv & Hv' & ->).
  destruct (Pulse__init__time_step _ _ _ k Hinit (Hkw _ Hnamed) Hk) as (w & Hw & Hattr).
  apply getattr_Ok_inv in Hv.
  rewrite getattr_opt_attrs in Hv
    by (apply (Pulse__init__data_named _ _ _ _ Hinit Hkw); left; exact Hnamed).
  rewrite Hattr in Hv. injection Hv as <-.
  rewrite Hx, py_mul_VFloat in Hw. injection Hw as <-.
  rewrite py_mul_VFloat in Hv'. injection Hv' as <-. reflexivity.
Qed.

Lemma round_trip_lo_range (cfg : Instance) (p kwargs out : gmap string value)
    (k : string) (l : list (float * float)) :
  Pulse__init__ new_instance p kwargs = Ok cfg ->
  (forall k, k ∈ Pulse_attributes -> kwargs !! k = None) ->
  Pulse_to_dict cfg = Ok out ->
  k ∈ ["qubit_lo_range"; "meas_lo_range"] ->
  p !!! k = ranges l ->
  out !! k = Some (ranges (range_there_and_back 1e9 1e-9 <$> l)).
Proof.
  intros Hinit Hkw Hout Hk Hl.
  assert (Hnamed : k ∈ Pulse_attributes).
  { repeat (apply elem_of_cons in Hk as [->|Hk]; [not_in_list|]).
    by apply elem_of_nil in Hk. }
  assert (Hch : _data cfg !! "channels" = None)
    by (apply (Pulse__init__data_named _ _ _ _ Hinit Hkw); left; not_in_list).
  destruct (Pulse_to_dict_lo_range _ _ k Hout Hch Hk) as (v & Hv & Hemit).
  destruct (Pulse__init__lo_range _ _ _ k Hinit Hk) as (w & Hw & Hattr).
  apply getattr_Ok_inv in Hv.
  rewrite getattr_opt_attrs in Hv
    by (apply (Pulse__init__data_named _ _ _ _ Hinit Hkw); left; exact Hnamed).
  rewrite Hattr in Hv. injection Hv as <-.
  rewrite Hl, scale_ranges_ranges in Hw. injection Hw as <-.
  destruct l as [|ab l].
  - exact Hemit.
  - cbn [truthy ranges fmap list_fmap] in Hemit.
    change (exists v', scale_ranges 1e-9
              (ranges ((fun ab : float * float => (ab.1 * 1e9, ab.2 * 1e9)%float)
                         <$> ab :: l)) = Ok v'
            /\ out !! k = Some v') in Hemit.
    destruct Hemit as (v' & Hv' & ->).
    rewrite scale_ranges_ranges in Hv'. injection Hv' as <-.
    rewrite <- list_fmap_compose. reflexivity.
Qed.

Lemma there_and_back_222 : there_and_back 1e-9 1e9 0.222 = 0.222%float.
Proof. vm_compute. reflexivity. Qed.

Lemma there_and_back_range :
  range_there_and_back 1e9 1e-9 (4.5, 5.5)%float = (4.5, 5.5)%float.
Proof. vm_compute. reflexivity. Qed.

(** C8: for every wire dictionary [from_dict] accepts, [to_dict] of the
    configuration returns a dictionary in which the plain required fields
    and every key that is no parameter of the constructors are those of
    the input, while a time step [x] comes back as the float
    [(x * 1e-9) * 1e9] and a bound [x] of an LO range as [(x * 1e9) * 1e-9];
    for [dt = 0.222] and [qubit_lo_range = [[4.5, 5.5]]] these are the
    input values again. *)
Theorem Pulse_round_trip (data : gmap string value) (cfg : Instance) :
  Pulse_from_dict data = Ok cfg ->
  exists out, Pulse_to_dict cfg = Ok out /\
    (forall k, k ∈ Pulse_verbatim -> out !! k = data !! k) /\
    (forall k, k ∉ Pulse_attributes -> k ∉ Qasm_attributes ->
       out !! k = data !! k) /\
    (forall k x, k ∈ ["dt"; "dtm"] -> data !! k = Some (VFloat x) ->
       out !! k = Some (VFloat (there_and_back 1e-9 1e9 x))) /\
    (forall k l, k ∈ ["qubit_lo_range"; "meas_lo_range"] ->
       data !! k = Some (ranges l) ->
       out !! k = Some (ranges (range_there_and_back 1e9 1e-9 <$> l))) /\
    (data !! "dt" = Some (VFloat 0.222) -> out !! "dt" = Some (VFloat 0.222)) /\
    (data !! "qubit_lo_range" = Some (VList [VList [VFloat 4.5; VFloat 5.5]]) ->
       out !! "qubit_lo_range" = Some (VList [VList [VFloat 4.5; VFloat 5.5]])).
Proof.
  intros Hfrom.
  destruct (Pulse_from_dict_inv _ _ Hfrom)
    as (call & gs & ds & us & cs & Hcall & Hg & Hds & Hu & Hcs & Hsame).
  destruct (PulseBackendConfiguration_bound _ _ Hcall)
    as (p & kwargs & Hinit & Hkw & Hp & Hpv & Hreq & Hkwargs).
  assert (Hser : Pulse_serialisable cfg).
  { apply (Pulse__init__serialisable _ _ _ gs ds us cs Hinit Hkw Hp).
    - apply (Hpv "gates" _ ltac:(not_in_list) Hg).
    - exact Hds.
    - apply (Hpv "u_channel_lo" _ ltac:(not_in_list) Hu).
    - exact Hcs. }
  destruct (Pulse_to_dict_total _ Hser) as [out Hout]. exists out.
  split; [exact Hout|].
  assert (Hch : _data cfg !! "channels" = None)
    by (apply (Pulse__init__data_named _ _ _ _ Hinit Hkw); left; not_in_list).
  destruct (Pulse_to_dict_other _ _ Hout Hch) as (out_q & Hq & Hother).
  assert (Htime : forall k x, k ∈ ["dt"; "dtm"] -> data !! k = Some (VFloat x) ->
            out !! k = Some (VFloat (there_and_back 1e-9 1e9 x))).
  { intros k x Hk Hx.
    apply (round_trip_time_step _ _ _ _ _ _ Hinit Hkw Hout Hk).
    assert (Hnamed : k ∈ Pulse_attributes /\ k ≠ "gates" /\ k ≠ "u_channel_lo").
    { repeat (apply elem_of_cons in Hk as [->|Hk];
                [split; [not_in_list | split; discriminate]|]).
      by apply elem_of_nil in Hk. }
    destruct Hnamed as (Hnamed & Hne1 & Hne2).
    apply (Hpv _ _ Hnamed). rewrite Hsame by assumption. exact Hx. }
  assert (Hrange : forall k l, k ∈ ["qubit_lo_range"; "meas_lo_range"] ->
            data !! k = Some (ranges l) ->
            out !! k = Some (ranges (range_there_and_back 1e9 1e-9 <$> l))).
  { intros k l Hk Hl.
    apply (round_trip_lo_range _ _ _ _ _ _ Hinit Hkw Hout Hk).
    assert (Hnamed : k ∈ Pulse_attributes /\ k ≠ "gates" /\ k ≠ "u_channel_lo").
    { repeat (apply elem_of_cons in Hk as [->|Hk];
                [split; [not_in_list | split; discriminate]|]).
      by apply elem_of_nil in Hk. }
    destruct Hnamed as (Hnamed & Hne1 & Hne2).
    apply (Hpv _ _ Hnamed). rewrite Hsame by assumption. exact Hl. }
  split; [|split; [|split; [exact Htime | split; [exact Hrange | split]]]].
  - intros k Hk. unfold Pulse_verbatim in Hk.
    do 11 (apply elem_of_cons in Hk as [->|Hk];
      [ rewrite Hother by not_in_list;
        rewrite (Qasm_to_dict_required _ _ _ Hq)
          by (first [ apply (Pulse__init__data_named _ _ _ _ Hinit Hkw); left
                    | idtac ]; not_in_list);
        rewrite (Pulse__init__required _ _ _ _ Hinit)
          by (first [ apply Hp | idtac ]; not_in_list);
        rewrite <- Hsame by discriminate;
        rewrite <- Hreq by not_in_list;
        apply lookup_total_is_Some; apply Hp; not_in_list |]).
    repeat (apply elem_of_cons in Hk as [->|Hk];
      [ rewrite (Pulse_to_dict_verbatim _ _ _ Hout Hch) by not_in_list;
        rewrite getattr_opt_attrs
          by (apply (Pulse__init__data_named _ _ _ _ Hinit Hkw); left; not_in_list);
        rewrite (Pulse__init__plain _ _ _ _ Hinit) by not_in_list;
        rewrite <- Hsame by discriminate;
        rewrite <- Hreq by not_in_list;
        apply lookup_total_is_Some; apply Hp; not_in_list |]).
    by apply elem_of_nil in Hk.
  - intros k Hk Hkq.
    rewrite Hother by (intros Hw; apply Hk, Pulse_written_attributes, Hw).
    rewrite (Qasm_to_dict_other _ _ k Hq)
      by (intros He; destruct (Qasm_emitted_attributes _ He); contradiction).
    rewrite (Pulse__init__data _ _ _ k Hinit) by apply Hkw.
    rewrite bool_decide_eq_false_2 by exact Hkq.
    rewrite Hkwargs by exact Hk.
    apply Hsame; intros ->; apply Hk; not_in_list.
  - intros Hdt. rewrite (Htime "dt" _ ltac:(not_in_list) Hdt).
    rewrite there_and_back_222. reflexivity.
  - intros Hlo. rewrite (Hrange "qubit_lo_range" [(4.5, 5.5)%float] ltac:(not_in_list) Hlo).
    cbn [fmap list_fmap]. rewrite there_and_back_range. reflexivity.
Qed.

Lemma Pulse_round_trip_witness :
  exists cfg out, Pulse_from_dict example_wire = Ok cfg /\
    Pulse_to_dict cfg = Ok out /\
    out !! "dt" = Some (VFloat 0.222) /\
    out !! "extra_field" = Some (VStr "kept").
Proof.
  assert (Hok : is_Ok (Pulse_from_dict example_wire) = true)
    by (vm_compute; reflexivity).
  destruct (Pulse_from_dict example_wire) as [cfg|e] eqn:E; [|discriminate Hok].
  destruct (Pulse_round_trip _ _ E) as (out & Hout & _ & Hother & _ & _ & Hdt & _).
  exists cfg, out. split; [reflexivity|]. split; [exact Hout|]. split.
  - apply Hdt. vm_compute. reflexivity.
  - rewrite (Hother "extra_field") by not_in_list. vm_compute. reflexivity.
Defined.

(** With a time step of 0.1 ns, the time step that comes back is another
    float, and so the dictionary that comes back is not the one given. *)
Lemma round_trip_changes_time_step :
  example_wire_tenth !! "dt" = Some (VFloat 0.1) /\
  round_trip_field "dt" example_wire_tenth = Ok (Some (VFloat 0.10000000000000002)) /\
  round_trip_field "dt" example_wire_tenth <> Ok (example_wire_tenth !! "dt") /\
  round_trip example_wire_tenth <> Ok example_wire_tenth.
Proof.
  assert (Hfield : round_trip_field "dt" example_wire_tenth
                   <> Ok (example_wire_tenth !! "dt")).
  { intros H.
    apply (f_equal (fun r : outcome (option value) =>
                      match r with
                      | Ok (Some (VFloat f)) => PrimFloat.eqb f 0.1
                      | _ => false
                      end)) in H.
    vm_compute in H. discriminate. }
  split; [vm_compute; reflexivity|]. split; [vm_compute; reflexivity|].
  split; [exact Hfield|].
  intros H. apply Hfield. unfold round_trip_field. rewrite H. reflexivity.
Qed.

(** C10: whatever truthy value the constructor is given for
    [n_registers], the instance stores 1 and [to_dict] emits 1; for a falsy
    value (0, [None]) or none at all the instance has no such attribute and
    [to_dict] emits no such key.  ([to_dict] returns when the gates are
    [GateConfig] objects, as [from_dict] makes them.) *)
Theorem n_registers_is_stored_as_one (call : gmap string value) (cfg : Instance)
    (gs ds : list value) :
  QasmBackendConfiguration call = Ok cfg ->
  call !! "gates" = Some (VList gs) ->
  mapM GateConfig_to_dict gs = Ok ds ->
  exists out, Qasm_to_dict cfg = Ok out /\
    (truthy (default VNone (call !! "n_registers")) = true ->
       getattr cfg "n_registers" = Ok (VInt 1) /\
       out !! "n_registers" = Some (VInt 1)) /\
    (truthy (default VNone (call !! "n_registers")) = false ->
       hasattr cfg "n_registers" = false /\
       out !! "n_registers" = None).
Proof.
  intros Hnew Hgates Hds.
  destruct (Qasm_to_dict_total cfg) as [out Hout].
  { exact (QasmBackendConfiguration_serialisable _ _ _ _ Hnew Hgates Hds). }
  exists out. split; [exact Hout|].
  pose proof (QasmBackendConfiguration_data_named _ _ "n_registers" Hnew
                ltac:(in_list)) as Hdata.
  pose proof (Qasm_to_dict_optional_attr _ _ "n_registers" Hout Hdata
                ltac:(in_list)) as Hemit.
  unfold QasmBackendConfiguration in Hnew.
  apply bind_Ok in Hnew as ([p kwargs] & Hbind & Hinit).
  pose proof (Qasm__init__n_registers _ _ _ _ Hinit) as Hattr.
  assert (Harg : p !!! "n_registers" = default VNone (call !! "n_registers")).
  { rewrite lookup_total_alt.
    rewrite (bind_keywords_arg _ _ _ _ _ _ "n_registers" Hbind) by in_list.
    destruct (call !! "n_registers"); reflexivity. }
  rewrite Harg, attrs_new_instance in Hattr.
  split; intros Htruthy; rewrite Htruthy in Hattr.
  - split; [|rewrite Hemit; exact Hattr].
    apply getattr_Ok. rewrite getattr_opt_attrs by exact Hdata. exact Hattr.
  - split; [|rewrite Hemit; exact Hattr].
    unfold hasattr. rewrite getattr_opt_attrs, Hattr by exact Hdata.
    reflexivity.
Qed.

Lemma n_registers_is_stored_as_one_witness :
  exists cfg out, QasmBackendConfiguration example_keywords = Ok cfg /\
    Qasm_to_dict cfg = Ok out /\
    getattr cfg "n_registers" = Ok (VInt 1) /\
    out !! "n_registers" = Some (VInt 1).
Proof.
  assert (Hok : is_Ok (QasmBackendConfiguration example_keywords) = true)
    by (vm_compute; reflexivity).
  destruct (QasmBackendConfiguration example_keywords) as [cfg|e] eqn:E;
    [|discriminate Hok].
  assert (Hg : example_keywords !! "gates" = Some (VList []))
    by (vm_compute; reflexivity).
  destruct (n_registers_is_stored_as_one _ cfg [] [] E Hg eq_refl)
    as (out & Hout & Ht & _).
  exists cfg, out. split; [reflexivity|]. split; [exact Hout|].
  apply Ht. vm_compute. reflexivity.
Defined.

(** The number of qubits of a configuration read from wire data. *)
Lemma Pulse_from_dict_n_qubits (data : gmap string value) (cfg : Instance) (v : value) :
  Pulse_from_dict data = Ok cfg ->
  data !! "n_qubits" = Some v ->
  getattr_opt cfg "n_qubits" = Some v.
Proof.
  intros Hfrom Hv.
  destruct (Pulse_from_dict_inv _ _ Hfrom)
    as (call & gs & ds & us & cs & Hcall & _ & _ & _ & _ & Hsame).
  destruct (PulseBackendConfiguration_bound _ _ Hcall)
    as (p & kwargs & Hinit & Hkw & Hp & Hpv & _ & _).
  rewrite getattr_opt_attrs
    by (apply (Pulse__init__data_named _ _ _ _ Hinit Hkw); left; not_in_list).
  rewrite (Pulse__init__required _ _ _ "n_qubits" Hinit)
    by (first [ apply Hp | idtac ]; not_in_list).
  f_equal. apply (Hpv "n_qubits" _ ltac:(not_in_list)).
  rewrite Hsame by discriminate. exact Hv.
Qed.

Lemma channel_lookup_checks_range_witness :
  exists cfg, Pulse_from_dict example_wire = Ok cfg /\
    drive cfg 1 = Ok (DriveChannel 1) /\
    drive cfg 2 = Raise (BackendConfigurationError (InvalidIndex 2)).
Proof.
  assert (Hok : is_Ok (Pulse_from_dict example_wire) = true)
    by (vm_compute; reflexivity).
  destruct (Pulse_from_dict example_wire) as [cfg|e] eqn:E; [|discriminate Hok].
  assert (Hn : getattr_opt cfg "n_qubits" = Some (VInt 2))
    by (apply (Pulse_from_dict_n_qubits _ _ _ E); vm_compute; reflexivity).
  exists cfg. split; [reflexivity|].
  pose proof (channel_lookup_checks_range cfg 2 1 Hn) as (Hin & _ & _ & Hn2 & _).
  split; [apply Hin; lia | exact Hn2].
Defined.

End BackendConfigFacts.

(** * More properties of the runtime job *)

Module RuntimeJobQueriesFacts.
Import RuntimeJob RuntimeJobFacts RuntimeJobQueries.

(** X1: the status the job reports for a response is terminal exactly when
    the upper-cased state of the response is COMPLETED, FAILED or CANCELLED
    or is itself DONE or ERROR; and it is never COMPLETED or FAILED, the
    names of the service for the terminal states. *)
Theorem status_from_job_response_final (j : Job) (response : Response) :
  (in_final_states (_status_from_job_response j response) = true <->
   upper (state_status response) ∈ ["COMPLETED"; "FAILED"; "CANCELLED"; "DONE"; "ERROR"]) /\
  _status_from_job_response j response ≠ "COMPLETED" /\
  _status_from_job_response j response ≠ "FAILED".
Proof.
  unfold _status_from_job_response. cbv zeta.
  set (u := upper (state_status response)).
  destruct (decide (u ∈ ["QUEUED"; "RUNNING"; "COMPLETED"; "FAILED"; "CANCELLED"]))
    as [Hin|Hout].
  - repeat (apply elem_of_cons in Hin as [->|Hin]);
      [ .. | by apply elem_of_nil in Hin ];
      (split; [|split]).
    all: try (vm_compute; discriminate).
    all: try (split; [vm_compute; discriminate
                     | intros Hin; exfalso; revert Hin;
                       apply (bool_decide_unpack _); vm_compute; exact I]).
    all: try (split; [intros _; apply (bool_decide_unpack _); vm_compute; exact I
                     | intros _; vm_compute; reflexivity]).
    all: change (API_TO_JOB_STATUS !! "CANCELLED") with (Some "CANCELLED");
      cbn [String.eqb Ascii.eqb Bool.eqb andb];
      destruct (is_max_time (_reason_code j)); cbn [andb].
    all: try discriminate.
    all: split; [intros _; apply (bool_decide_unpack _); vm_compute; exact I
                | intros _; reflexivity].
  - rewrite (API_TO_JOB_STATUS_other _ Hout).
    repeat (apply not_elem_of_cons in Hout as [? Hout]).
    split; [|split; assumption].
    unfold in_final_states, JOB_FINAL_STATES. cbn [existsb].
    rewrite orb_false_r, !orb_true_iff, !String.eqb_eq.
    rewrite !elem_of_cons, elem_of_nil. tauto.
Qed.

(** ** What a wait does *)

Local Open Scope Q_scope.

Lemma wait_trace_S (k : nat) (t : list event) :
  (wait_trace k ++ EvJobGet :: EvSleep (1 # 10) :: t)%list
  = (wait_trace (S k) ++ t)%list.
Proof.
  induction k as [|k IH]; [reflexivity|].
  change (wait_trace (S k)) with (EvJobGet :: EvSleep (1 # 10) :: wait_trace k)%list.
  cbn [app]. rewrite IH. reflexivity.
Qed.

(** A status call on a job that is not in a final state. *)
Lemma status_outcome (m : Machine) :
  in_final_states (_status (self m)) = false ->
  match status m with
  | Returns st m' =>
      st = _status (self m') /\ api m' = api m /\ trace m' = EvJobGet :: trace m
  | Raises e m' =>
      (e = FuturesTimeoutError \/ is_transport_error e = true) /\
      self m' = self m /\ api m' = api m /\ trace m' = EvJobGet :: trace m
  | Diverges => False
  end.
Proof.
  intros Hnon. rewrite status_nonfinal by exact Hnon. cbv zeta.
  destruct (job_get (api m) (polls m)) as [r|[e|]]; cbn; auto 6.
Qed.

(** The loop of [wait_for_final_state], entered with the cached status. *)
Lemma wait_loop_outcome (fuel : nat) (t : option Q) (s : Q) (m : Machine) :
  match wait_loop fuel t s (_status (self m)) m with
  | Returns _ m' =>
      in_final_states (_status (self m')) = true /\ api m' = api m /\
      exists k, trace m' = (wait_trace k ++ trace m)%list
  | Raises e m' =>
      (e = RuntimeJobTimeoutError t \/ e = FuturesTimeoutError \/
       is_transport_error e = true) /\
      in_final_states (_status (self m')) = false /\ api m' = api m /\
      exists k, trace m' = (wait_trace k ++ trace m)%list
  | Diverges => True
  end.
Proof.
  revert m. induction fuel as [|fuel IH]; intros m.
  - destruct (in_final_states (_status (self m))) eqn:Hfin.
    + rewrite wait_loop_final by exact Hfin. repeat split; [exact Hfin|].
      exists 0%nat. reflexivity.
    + simpl. rewrite Hfin. exact I.
  - destruct (in_final_states (_status (self m))) eqn:Hfin.
    + rewrite wait_loop_final by exact Hfin. repeat split; [exact Hfin|].
      exists 0%nat. reflexivity.
    + rewrite wait_loop_step by exact Hfin.
      destruct (timed_out t (now m - s)).
      * repeat split; [left; reflexivity | exact Hfin |].
        exists 0%nat. reflexivity.
      * pose proof (status_outcome (sleep_step m) Hfin) as Hst.
        destruct (status (sleep_step m)) as [st' m1|e m1|]; [| |contradiction].
        -- destruct Hst as (-> & Hapi & Htr).
           specialize (IH m1).
           destruct (wait_loop fuel t s (_status (self m1)) m1) as [[] m2|e m2|];
             [| |exact I].
           ++ destruct IH as (Hf & Hapi2 & k & Hk).
              repeat split; [exact Hf | rewrite Hapi2, Hapi; reflexivity |].
              exists (S k). rewrite Hk, Htr. apply wait_trace_S.
           ++ destruct IH as (He & Hf & Hapi2 & k & Hk).
              repeat split; [exact He | exact Hf | rewrite Hapi2, Hapi; reflexivity |].
              exists (S k). rewrite Hk, Htr. apply wait_trace_S.
        -- destruct Hst as (He & Hself & Hapi & Htr).
           repeat split; [right; exact He | rewrite Hself; exact Hfin | exact Hapi |].
           exists 1%nat. rewrite Htr. reflexivity.
Qed.

Lemma wait_outcome (fuel : nat) (timeout : option Q) (m : Machine) :
  match wait_for_final_state fuel timeout m with
  | Returns _ m' => in_final_states (_status (self m')) = true /\ waited m m'
  | Raises e m' =>
      (e = RuntimeJobTimeoutError timeout \/ is_transport_error e = true) /\
      in_final_states (_status (self m')) = false /\ waited m m'
  | Diverges => in_final_states (_status (self m)) = false
  end.
Proof.
  destruct (in_final_states (_status (self m))) eqn:Hfin.
  - rewrite wait_for_final_state_already_final by exact Hfin.
    split; [exact Hfin|]. split; [reflexivity | left; reflexivity].
  - unfold wait_for_final_state, except_futures_timeout, bind, time_time.
    pose proof (status_outcome m Hfin) as Hst.
    destruct (status m) as [st m1|e m1|]; [| |contradiction].
    + destruct Hst as (-> & Hapi & Htr).
      pose proof (wait_loop_outcome fuel timeout (now m) m1) as Hloop.
      destruct (wait_loop fuel timeout (now m) (_status (self m1)) m1)
        as [[] m2|e m2|]; [| |reflexivity].
      * destruct Hloop as (Hf & Hapi2 & k & Hk).
        split; [exact Hf|]. split; [congruence|].
        right. exists k. rewrite Hk, Htr. reflexivity.
      * destruct Hloop as (He & Hf & Hapi2 & k & Hk).
        assert (Hw : waited m m2).
        { split; [congruence|]. right. exists k. rewrite Hk, Htr. reflexivity. }
        destruct He as [->|[->|He]].
        -- split; [left; reflexivity|]. split; [exact Hf | exact Hw].
        -- split; [left; reflexivity|]. split; [exact Hf | exact Hw].
        -- destruct e; try discriminate He.
           split; [right; reflexivity|]. split; [exact Hf | exact Hw].
    + destruct Hst as (He & Hself & Hapi & Htr).
      assert (Hw : waited m m1).
      { split; [exact Hapi|]. right. exists 0%nat. rewrite Htr. reflexivity. }
      rewrite <- Hself in Hfin.
      destruct He as [->|He].
      * split; [left; reflexivity|]. split; [exact Hfin | exact Hw].
      * destruct e; try discriminate He.
        split; [right; reflexivity|]. split; [exact Hfin | exact Hw].
Qed.

(** X2: whatever the service answers, [wait_for_final_state] returns only
    with a terminal cached status, and raises only
    [RuntimeJobTimeoutError] or the [RequestsApiError] of a failed round
    trip (a [futures.TimeoutError] never escapes), leaving a non-terminal
    status; in both cases all it did to the outside is nothing (terminal
    status already cached) or one status round trip followed by rounds of
    a 0.1 s sleep and a status round trip: no result fetch, no cancel, no
    decoding.  The status refresh is modelled from the spec. *)
Theorem wait_for_final_state_outcomes (fuel : nat) (timeout : option Q) (m : Machine) :
  match wait_for_final_state fuel timeout m with
  | Returns _ m' => in_final_states (_status (self m')) = true /\ waited m m'
  | Raises e m' =>
      (e = RuntimeJobTimeoutError timeout \/ is_transport_error e = true) /\
      e <> FuturesTimeoutError /\
      in_final_states (_status (self m')) = false /\ waited m m'
  | Diverges => in_final_states (_status (self m)) = false
  end.
Proof.
  pose proof (wait_outcome fuel timeout m) as H.
  destruct (wait_for_final_state fuel timeout m) as [[] m'|e m'|]; try exact H.
  destruct H as (He & Hrest). split; [exact He|]. split; [|exact Hrest].
  destruct He as [->|He]; [discriminate|]. intros ->. discriminate He.
Qed.

Lemma status_failed (m : Machine) (f : ApiFailure) :
  in_final_states (_status (self m)) = false ->
  job_get (api m) (polls m) = inr f ->
  status m = Raises (exn_of_failure f) (poll_step m).
Proof.
  intros Hnon Hf. rewrite status_nonfinal by exact Hnon.
  unfold poll_step. cbv zeta. rewrite Hf. reflexivity.
Qed.

(** X3: the first status round trip of [wait_for_final_state] on a job
    whose cached status is not terminal.  A terminal answer makes the call
    return after that one round trip whatever the timeout is, even one that
    has already elapsed: the timeout is only checked while the status is
    not terminal.  A non-terminal answer that took at least [T] seconds
    makes the call with [timeout=T] raise [RuntimeJobTimeoutError] without
    sleeping.  A round trip that ends in [futures.TimeoutError] is reported
    as [RuntimeJobTimeoutError], and one that fails with a
    [RequestsApiError] raises that error unchanged.  The status refresh is
    modelled from the spec. *)
Theorem wait_for_final_state_first_poll
    (fuel : nat) (timeout : option Q) (T : Q) (m : Machine) :
  in_final_states (_status (self m)) = false ->
  (reply_is true (api m) (polls m) ->
     wait_for_final_state fuel timeout m = Returns tt (poll_step m)) /\
  (reply_is false (api m) (polls m) ->
     T <= job_get_latency (api m) (polls m) ->
     wait_for_final_state (S fuel) (Some T) m =
       Raises (RuntimeJobTimeoutError (Some T)) (poll_step m)) /\
  (job_get (api m) (polls m) = inr ApiFuturesTimeout ->
     wait_for_final_state fuel timeout m =
       Raises (RuntimeJobTimeoutError timeout) (poll_step m)) /\
  (forall e, job_get (api m) (polls m) = inr (ApiFailed e) ->
     wait_for_final_state fuel timeout m =
       Raises (RequestsApiError (status_code e) (message e)) (poll_step m)).
Proof.
  intros Hnon. repeat split.
  - intros Hreply.
    rewrite (wait_for_final_state_unfold fuel timeout true) by assumption.
    rewrite wait_loop_final by (apply poll_step_final; exact Hreply).
    reflexivity.
  - intros Hreply HT.
    rewrite (wait_for_final_state_unfold (S fuel) (Some T) false) by assumption.
    rewrite wait_loop_step by (apply poll_step_final; exact Hreply).
    rewrite timed_out_true_le; [reflexivity|].
    rewrite poll_step_now. lra.
  - intros Hf.
    unfold wait_for_final_state, except_futures_timeout, bind, time_time.
    rewrite (status_failed m _ Hnon Hf). reflexivity.
  - intros e Hf.
    unfold wait_for_final_state, except_futures_timeout, bind, time_time.
    rewrite (status_failed m _ Hnon Hf). reflexivity.
Qed.

Lemma wait_for_final_state_first_poll_witness :
  wait_for_final_state 0 (Some 1) (slow_machine "Completed")
    = Returns tt (poll_step (slow_machine "Completed")) /\
  wait_for_final_state 1 (Some 1) (slow_machine "Running")
    = Raises (RuntimeJobTimeoutError (Some 1)) (poll_step (slow_machine "Running")).
Proof.
  split.
  - apply (proj1 (wait_for_final_state_first_poll 0 (Some 1) 1
                    (slow_machine "Completed") eq_refl)).
    exists (example_reply "Completed"). split; reflexivity.
  - apply (proj1 (proj2 (wait_for_final_state_first_poll 0 None 1
                           (slow_machine "Running") eq_refl))).
    + exists (example_reply "Running"). split; reflexivity.
    + vm_compute. discriminate.
Defined.

(** ** Fetching the result *)

Lemma filter_wait_trace (f : event -> bool) (k : nat) :
  f EvJobGet = false -> f (EvSleep (1 # 10)) = false ->
  List.filter f (wait_trace k) = [].
Proof.
  intros Hg Hs. induction k as [|k IH]; [reflexivity|].
  change (wait_trace (S k)) with (EvJobGet :: EvSleep (1 # 10) :: wait_trace k)%list.
  cbn [List.filter]. rewrite Hg, Hs. exact IH.
Qed.

Lemma waited_filter (f : event -> bool) (m m' : Machine) :
  f EvJobGet = false -> f (EvSleep (1 # 10)) = false ->
  waited m m' -> List.filter f (trace m') = List.filter f (trace m).
Proof.
  intros Hg Hs [_ [->|[k ->]]]; [reflexivity|].
  rewrite List.filter_app, (filter_wait_trace f k Hg Hs).
  cbn [app List.filter]. rewrite Hg. reflexivity.
Qed.

Lemma waited_fetches (m m' : Machine) : waited m m' -> fetches m' = fetches m.
Proof. intros H. unfold fetches. rewrite (waited_filter _ m m'); auto. Qed.

Lemma waited_cancels (m m' : Machine) : waited m m' -> cancels m' = cancels m.
Proof. intros H. unfold cancels. rewrite (waited_filter _ m m'); auto. Qed.

Lemma final_not_error_not_cancelled (st : string) :
  in_final_states st = true -> String.eqb st "ERROR" = false ->
  String.eqb st "CANCELLED" = false -> st = "DONE".
Proof.
  unfold in_final_states, JOB_FINAL_STATES. cbn [existsb].
  intros H He Hc. rewrite He, Hc in H.
  rewrite !orb_false_r in H. apply String.eqb_eq. exact H.
Qed.

(** X4: whatever the service answers, [result()] returns only for a job
    whose status is DONE, and then it has fetched the raw result exactly
    once; when it raises [RuntimeJobMaxTimeoutError],
    [RuntimeJobFailureError], [RuntimeInvalidStateError] or
    [RuntimeJobTimeoutError] it has not fetched the result at all; it never
    fetches it twice, and it never cancels the job.  The status refresh is
    modelled from the spec. *)
Theorem result_fetches_once (fuel : nat) (timeout : option Q)
    (decoder : option ResultDecoder) (m : Machine) :
  match result fuel timeout decoder m with
  | Returns _ m2 =>
      _status (self m2) = "DONE" /\ fetches m2 = S (fetches m) /\
      cancels m2 = cancels m
  | Raises e m2 =>
      (if is_transport_error e then (fetches m2 <= S (fetches m))%nat
       else match e with
            | DecodeError _ => fetches m2 = S (fetches m)
            | _ => fetches m2 = fetches m
            end) /\
      cancels m2 = cancels m
  | Diverges => True
  end.
Proof.
  rewrite result_unfold.
  pose proof (wait_outcome fuel timeout m) as Hw.
  destruct (wait_for_final_state fuel timeout m) as [[] m1|e m1|]; [| |exact I].
  - destruct Hw as (Hfin & Hw). cbv zeta.
    pose proof (waited_fetches _ _ Hw) as Hf.
    pose proof (waited_cancels _ _ Hw) as Hc.
    destruct (String.eqb (_status (self m1)) "ERROR") eqn:He.
    { destruct (is_max_time _); split; assumption. }
    destruct (String.eqb (_status (self m1)) "CANCELLED") eqn:Hcan.
    { split; assumption. }
    pose proof (final_not_error_not_cancelled _ Hfin He Hcan) as Hdone.
    assert (Hf' : fetches (tick 0 EvJobResults m1) = S (fetches m))
      by (rewrite <- Hf; reflexivity).
    destruct (job_results (api m1)) as [raw|err].
    + destruct (truthy_str raw).
      * unfold decode.
        destruct (decoder_or decoder (self m) (py_str raw)) as [v|msg];
          repeat split; assumption.
      * repeat split; assumption.
    + split; [|exact Hc]. cbn [exn_of_api_error is_transport_error].
      rewrite Hf'. apply Nat.le_refl.
  - destruct Hw as (He & _ & Hw).
    pose proof (waited_fetches _ _ Hw) as Hf.
    pose proof (waited_cancels _ _ Hw) as Hc.
    split; [|exact Hc].
    destruct He as [->|He]; [exact Hf|].
    rewrite He, Hf. apply Nat.le_succ_diag_r.
Qed.

(** X5: a successful [cancel()] overwrites whatever status the job had,
    DONE included: afterwards [result()] raises [RuntimeInvalidStateError]
    (job was cancelled) at once, with no status round trip and without
    fetching a result, and [wait_for_final_state] returns at once.  The
    status refresh is modelled from the spec. *)
Theorem cancel_then_result (fuel : nat) (timeout : option Q)
    (decoder : option ResultDecoder) (m m1 : Machine) :
  cancel m = Returns tt m1 ->
  wait_for_final_state fuel timeout m1 = Returns tt m1 /\
  result fuel timeout decoder m1 =
    Raises (RuntimeInvalidStateError
              ("Unable to retrieve result for job " ++ job_id (self m)
               ++ ". Job was cancelled.")) m1 /\
  trace m1 = EvJobCancel :: trace m.
Proof.
  intros Hc. unfold cancel, api_job_cancel in Hc.
  destruct (job_cancel (api m)) as [u|e].
  - injection Hc as <-.
    assert (Hw : forall f t, wait_for_final_state f t
               (with_self (set_status "CANCELLED" (self (tick 0 EvJobCancel m)))
                  (tick 0 EvJobCancel m)) = Returns tt
               (with_self (set_status "CANCELLED" (self (tick 0 EvJobCancel m)))
                  (tick 0 EvJobCancel m))).
    { intros f t. apply wait_for_final_state_already_final. reflexivity. }
    split; [apply Hw|]. split; [|reflexivity].
    rewrite result_unfold, Hw. reflexivity.
  - cbn in Hc. destruct (status_code e =? 409)%Z; discriminate Hc.
Qed.

Lemma cancel_then_result_witness :
  exists m1,
    result 0 None None m1 =
      Raises (RuntimeInvalidStateError
                "Unable to retrieve result for job j-1. Job was cancelled.") m1.
Proof.
  destruct (cancel (example_machine 0 "Completed" (Some "payload")))
    as [[] m1|e m1|] eqn:E.
  - exists m1.
    exact (proj1 (proj2 (cancel_then_result 0 None None _ m1 E))).
  - vm_compute in E. discriminate.
  - vm_compute in E. discriminate.
Defined.

(** X6: once [wait_for_final_state] has returned, the status queries
    answer from the cached status without a round trip: [in_final_state()]
    is true, [running()] is false, and exactly one of [done()],
    [cancelled()] and [errored()] is true.  The status refresh is modelled
    from the spec. *)
Theorem status_flags_after_wait (fuel : nat) (timeout : option Q) (m m1 : Machine) :
  wait_for_final_state fuel timeout m = Returns tt m1 ->
  in_final_state m1 = Returns true m1 /\
  running m1 = Returns false m1 /\
  exists d c e,
    done m1 = Returns d m1 /\ cancelled m1 = Returns c m1 /\
    errored m1 = Returns e m1 /\
    (d, c, e) ∈ [(true, false, false); (false, true, false); (false, false, true)].
Proof.
  intros Hwait.
  pose proof (wait_outcome fuel timeout m) as Hw. rewrite Hwait in Hw.
  destruct Hw as (Hfin & _).
  unfold in_final_state, running, done, cancelled, errored, bind, ret.
  rewrite (status_final m1 Hfin). rewrite Hfin.
  unfold in_final_states, JOB_FINAL_STATES in Hfin. cbn [existsb] in Hfin.
  rewrite orb_false_r, !orb_true_iff, !String.eqb_eq in Hfin.
  destruct Hfin as [Hs | [Hs | Hs]]; rewrite Hs;
    (split; [reflexivity|]); (split; [reflexivity|]);
    eexists _, _, _; (split; [reflexivity|]); (split; [reflexivity|]);
    (split; [reflexivity|]); cbn [String.eqb Ascii.eqb Bool.eqb andb].
  all: rewrite !elem_of_cons; tauto.
Qed.

Lemma status_flags_after_wait_witness :
  exists m1,
    in_final_state m1 = Returns true m1 /\ running m1 = Returns false m1 /\
    done m1 = Returns true m1.
Proof.
  destruct (wait_for_final_state 5 None (example_machine 2 "Completed" None))
    as [[] m1|e m1|] eqn:E.
  - exists m1.
    destruct (status_flags_after_wait 5 None _ m1 E) as (Hf & Hr & _).
    split; [exact Hf|]. split; [exact Hr|].
    pose proof E as E'. vm_compute in E'. injection E' as Hm.
    rewrite <- Hm. reflexivity.
  - vm_compute in E. discriminate.
  - vm_compute in E. discriminate.
Defined.

End RuntimeJobQueriesFacts.

(** * Gate and LO configuration objects *)

Module ConfigObjectFacts.
Import BackendConfig BackendConfigFacts.

Lemma list_to_map_alist_lookup (d : list (string * value)) (k : string) :
  (list_to_map d : gmap string value) !! k = alist_lookup k d.
Proof.
  induction d as [|[k' v] d IH]; [apply lookup_empty|].
  rewrite list_to_map_cons. cbn [alist_lookup].
  destruct (String.eqb_spec k k') as [->|Hne].
  - apply lookup_insert_eq.
  - rewrite lookup_insert_ne by congruence. exact IH.
Qed.

(** A call of a class that takes no variadic keywords has named
    parameters only. *)
Lemma bind_keywords_closed (required : list string) (optional : list (string * value))
    (call p kwargs : gmap string value) (k : string) :
  bind_keywords required optional false call = Ok (p, kwargs) ->
  k ∉ (required ++ optional.*1)%list -> call !! k = None.
Proof.
  unfold bind_keywords. cbv zeta. cbn [negb andb].
  case_bool_decide as Hextra; [|discriminate]. intros _ Hk.
  assert (H : filter (fun kv : string * value => kv.1 ∉ (required ++ optional.*1)%list)
                call !! k = None) by (rewrite Hextra; apply lookup_empty).
  rewrite filter_unnamed_lookup in H.
  rewrite bool_decide_eq_false_2 in H by exact Hk. exact H.
Qed.

Lemma bind_keywords_default (required : list string) (optional : list (string * value))
    (var_keyword : bool) (d : list (string * value)) (p kwargs : gmap string value)
    (k : string) :
  bind_keywords required optional var_keyword (list_to_map d) = Ok (p, kwargs) ->
  k ∈ (required ++ optional.*1)%list ->
  p !! k = match alist_lookup k d with
           | Some v => Some v
           | None => (list_to_map optional : gmap string value) !! k
           end.
Proof.
  intros Hbind Hk. rewrite (bind_keywords_arg _ _ _ _ _ _ k Hbind Hk).
  rewrite list_to_map_alist_lookup. reflexivity.
Qed.

Lemma GateConfig_arg (d : list (string * value)) (p kwargs : gmap string value)
    (k : string) :
  bind_keywords GateConfig_required GateConfig_optional false (list_to_map d)
    = Ok (p, kwargs) ->
  k ∈ (GateConfig_required ++ GateConfig_optional.*1)%list ->
  p !!! k = default VNone (alist_lookup k d).
Proof.
  intros Hbind Hk. rewrite lookup_total_alt.
  rewrite (bind_keywords_default _ _ _ _ _ _ k Hbind Hk).
  destruct (alist_lookup k d) as [v|]; [reflexivity|].
  cbn in Hk.
  repeat (apply elem_of_cons in Hk as [->|Hk]; [vm_compute; reflexivity|]).
  by apply elem_of_nil in Hk.
Qed.

Lemma required_present (required : list string) (optional : list (string * value))
    (var_keyword : bool) (d : list (string * value)) (p kwargs : gmap string value)
    (k : string) :
  bind_keywords required optional var_keyword (list_to_map d) = Ok (p, kwargs) ->
  k ∈ required -> is_Some (alist_lookup k d).
Proof.
  intros Hbind Hk.
  pose proof (bind_keywords_inv _ _ _ _ _ _ Hbind) as (_ & _ & Hreq).
  rewrite Forall_forall in Hreq. specialize (Hreq k Hk).
  rewrite list_to_map_alist_lookup in Hreq. exact Hreq.
Qed.

(** X7: a gate dictionary that [GateConfig.from_dict] accepts comes back
    from [to_dict] with [name], [parameters] and [qasm_def] as they were,
    with [coupling_map] and [latency_map] only when they are truthy (an
    empty list is dropped), with [conditional] and [description] only when
    they are not [None] ([False] and the empty string are kept), and with
    no other key. *)
Theorem GateConfig_round_trip (d : list (string * value)) (gate : value) :
  GateConfig_from_dict (VDict d) = Ok gate ->
  exists out, GateConfig_to_dict gate = Ok (VDict out) /\
    (forall k, k ∈ GateConfig_required ->
       is_Some (alist_lookup k d) /\ alist_lookup k out = alist_lookup k d) /\
    (forall k, k ∈ ["coupling_map"; "latency_map"] ->
       alist_lookup k out =
         match alist_lookup k d with
         | Some v => if truthy v then Some v else None
         | None => None
         end) /\
    (forall k, k ∈ ["conditional"; "description"] ->
       alist_lookup k out =
         match alist_lookup k d with
         | Some v => if is_not_None v then Some v else None
         | None => None
         end) /\
    (forall k, k ∉ (GateConfig_required ++ GateConfig_optional.*1)%list ->
       alist_lookup k out = None /\ alist_lookup k d = None).
Proof.
  unfold GateConfig_from_dict. intros H.
  apply bind_Ok in H as ([p kwargs] & Hbind & [= <-]).
  pose proof (fun k => GateConfig_arg d p kwargs k Hbind) as Harg.
  pose proof (fun k => required_present _ _ _ d p kwargs k Hbind) as Hreq.
  pose proof (fun k => bind_keywords_closed _ _ _ p kwargs k Hbind) as Hclosed.
  unfold GateConfig__init__. cbv zeta.
  rewrite !Harg by in_list.
  destruct (Hreq "name" ltac:(in_list)) as [name Hname].
  destruct (Hreq "parameters" ltac:(in_list)) as [parameters Hparameters].
  destruct (Hreq "qasm_def" ltac:(in_list)) as [qasm_def Hqasm_def].
  rewrite Hname, Hparameters, Hqasm_def. cbn [default from_option id].
  assert (Hout : forall cm lm c ds,
    let fields :=
      let self := [("name", name); ("parameters", parameters);
                   ("qasm_def", qasm_def)] in
      let self := if truthy (default VNone cm)
                  then (self ++ [("coupling_map", default VNone cm)])%list else self in
      let self := if truthy (default VNone lm)
                  then (self ++ [("latency_map", default VNone lm)])%list else self in
      let self := if is_not_None (default VNone c)
                  then (self ++ [("conditional", default VNone c)])%list else self in
      if is_not_None (default VNone ds)
      then (self ++ [("description", default VNone ds)])%list else self in
    exists out, GateConfig_to_dict (VObj "GateConfig" fields) = Ok (VDict out) /\
      alist_lookup "name" out = Some name /\
      alist_lookup "parameters" out = Some parameters /\
      alist_lookup "qasm_def" out = Some qasm_def /\
      alist_lookup "coupling_map" out =
        match cm with Some v => if truthy v then Some v else None | None => None end /\
      alist_lookup "latency_map" out =
        match lm with Some v => if truthy v then Some v else None | None => None end /\
      alist_lookup "conditional" out =
        match c with Some v => if is_not_None v then Some v else None | None => None end /\
      alist_lookup "description" out =
        match ds with Some v => if is_not_None v then Some v else None | None => None end /\
      forall k, k ∉ (GateConfig_required ++ GateConfig_optional.*1)%list ->
        alist_lookup k out = None).
  { intros cm lm c ds.
    assert (Hother : forall k (l : list (string * value)),
              k ∉ (GateConfig_required ++ GateConfig_optional.*1)%list ->
              forallb (fun kv : string * value =>
                         bool_decide (kv.1 ∈ (GateConfig_required
                                               ++ GateConfig_optional.*1)%list)) l
                = true ->
              alist_lookup k l = None).
    { intros k l Hk. induction l as [|[k' v'] l IH]; [reflexivity|].
      cbn [forallb alist_lookup fst]. intros Hl.
      apply andb_true_iff in Hl as [Hk' Hl]. apply bool_decide_eq_true in Hk'.
      destruct (String.eqb_spec k k') as [->|_]; [contradiction|].
      exact (IH Hl). }
    destruct cm as [cm|]; cbn [default from_option id truthy is_not_None];
      [destruct (truthy cm)|];
      (destruct lm as [lm|]; cbn [default from_option id truthy is_not_None];
         [destruct (truthy lm)|]);
      (destruct c as [c|]; cbn [default from_option id truthy is_not_None];
         [destruct (is_not_None c)|]);
      (destruct ds as [ds|]; cbn [default from_option id truthy is_not_None];
         [destruct (is_not_None ds)|]);
      cbv zeta; cbn [app];
      (eexists; split; [reflexivity|]);
      (repeat (split; [reflexivity|]));
      intros k Hk; apply (Hother k _ Hk); vm_compute; reflexivity. }
  destruct (Hout (alist_lookup "coupling_map" d) (alist_lookup "latency_map" d)
              (alist_lookup "conditional" d) (alist_lookup "description" d))
    as (out & Hto & H1 & H2 & H3 & H4 & H5 & H6 & H7 & H8).
  cbv zeta in Hto. exists out. split; [exact Hto|].
  split; [|split; [|split]].
  - intros k Hk. split; [apply Hreq; exact Hk|].
    repeat (apply elem_of_cons in Hk as [->|Hk]; [congruence|]).
    by apply elem_of_nil in Hk.
  - intros k Hk.
    repeat (apply elem_of_cons in Hk as [->|Hk]; [assumption|]).
    by apply elem_of_nil in Hk.
  - intros k Hk.
    repeat (apply elem_of_cons in Hk as [->|Hk]; [assumption|]).
    by apply elem_of_nil in Hk.
  - intros k Hk. split; [apply H8; exact Hk|].
    rewrite <- list_to_map_alist_lookup. apply Hclosed. exact Hk.
Qed.

Lemma GateConfig_round_trip_witness :
  exists gate out,
    GateConfig_from_dict
      (VDict [("name", VStr "cx"); ("parameters", VList []);
              ("qasm_def", VStr "cx q0,q1"); ("coupling_map", VList []);
              ("conditional", VBool false)]) = Ok gate /\
    GateConfig_to_dict gate = Ok (VDict out) /\
    alist_lookup "coupling_map" out = None /\
    alist_lookup "conditional" out = Some (VBool false).
Proof.
  eexists. 
  destruct (GateConfig_round_trip
              [("name", VStr "cx"); ("parameters", VList []);
               ("qasm_def", VStr "cx q0,q1"); ("coupling_map", VList []);
               ("conditional", VBool false)] _ eq_refl)
    as (out & Hto & _ & Hcm & Hc & _).
  exists out. split; [reflexivity|]. split; [exact Hto|]. split.
  - apply (Hcm "coupling_map"). in_list.
  - apply (Hc "conditional"). in_list.
Defined.

Lemma bind_keywords_Ok (required : list string) (optional : list (string * value))
    (var_keyword : bool) (call : gmap string value) :
  (forall k, k ∉ (required ++ optional.*1)%list -> call !! k = None) ->
  (forall k, k ∈ required -> is_Some (call !! k)) ->
  exists p kwargs, bind_keywords required optional var_keyword call = Ok (p, kwargs).
Proof.
  intros Hclosed Hreq. unfold bind_keywords. cbv zeta.
  rewrite (bool_decide_eq_true_2 (filter _ call = ∅)).
  - rewrite andb_false_r.
    rewrite bool_decide_eq_true_2 by (apply Forall_forall; exact Hreq).
    eexists _, _. reflexivity.
  - apply map_eq. intros k. rewrite filter_unnamed_lookup, lookup_empty.
    case_bool_decide as Hk; [reflexivity | apply Hclosed; exact Hk].
Qed.

(** X8: an LO dictionary with an integer [q] and a [scale], and nothing
    else, is refused by [UchannelLO.from_dict] with [QiskitError] when [q]
    is negative, and otherwise gives an object whose [to_dict] is the
    dictionary [q], [scale] again. *)
Theorem UchannelLO_round_trip (d : list (string * value)) (q : Z) (scale : value) :
  alist_lookup "q" d = Some (VInt q) ->
  alist_lookup "scale" d = Some scale ->
  (forall k, is_Some (alist_lookup k d) -> k = "q" \/ k = "scale") ->
  if (q <? 0)%Z
  then UchannelLO_from_dict (VDict d) = Raise (QiskitError "q must be >=0")
  else exists lo, UchannelLO_from_dict (VDict d) = Ok lo /\
         UchannelLO_to_dict lo = Ok (VDict [("q", VInt q); ("scale", scale)]).
Proof.
  intros Hq Hscale Honly. unfold UchannelLO_from_dict.
  destruct (bind_keywords_Ok ["q"; "scale"] [] false (list_to_map d))
    as (p & kwargs & Hbind).
  { intros k Hk. rewrite list_to_map_alist_lookup.
    destruct (alist_lookup k d) as [v|] eqn:E; [|reflexivity].
    exfalso. apply Hk. destruct (Honly k) as [->| ->]; [eauto | in_list | in_list]. }
  { intros k Hk. rewrite list_to_map_alist_lookup.
    repeat (apply elem_of_cons in Hk as [->|Hk]; [eauto|]).
    by apply elem_of_nil in Hk. }
  rewrite Hbind. cbn [mbind outcome_bind]. unfold UchannelLO__init__.
  assert (Hpq : p !!! "q" = VInt q).
  { apply lookup_total_Some.
    rewrite (bind_keywords_default _ _ _ _ _ _ "q" Hbind) by in_list.
    rewrite Hq. reflexivity. }
  assert (Hps : p !!! "scale" = scale).
  { apply lookup_total_Some.
    rewrite (bind_keywords_default _ _ _ _ _ _ "scale" Hbind) by in_list.
    rewrite Hscale. reflexivity. }
  rewrite Hpq, Hps. cbn [py_negative mbind outcome_bind].
  destruct (q <? 0)%Z; [reflexivity|].
  eexists. split; reflexivity.
Qed.

Lemma UchannelLO_round_trip_witness :
  UchannelLO_from_dict (VDict [("scale", VFloat 1); ("q", VInt (-1))]) =
    Raise (QiskitError "q must be >=0").
Proof.
  apply (UchannelLO_round_trip [("scale", VFloat 1); ("q", VInt (-1))] (-1) (VFloat 1));
    [reflexivity | reflexivity |].
  intros k [v Hk]. cbn [alist_lookup] in Hk.
  destruct (String.eqb_spec k "scale"); [auto|].
  destruct (String.eqb_spec k "q"); [auto | discriminate].
Defined.

End ConfigObjectFacts.

(** * Properties of the channel maps *)

Module ChannelQueriesFacts.
Import BackendConfig BackendConfigFacts ChannelQueries.

(** ** Lists behind a [defaultdict(list)] *)

Section DefaultDict.
Context {K V : Type} `{EqDecision K}.
Implicit Types (k : K) (vs : list V) (d : list (K * list V)).

Lemma dd_lookup_extend_eq k vs d :
  dd_lookup k (dd_extend k vs d) = Some (entries k d ++ vs)%list.
Proof.
  unfold entries. induction d as [|[k' l] d IH]; simpl.
  - rewrite decide_True by reflexivity. reflexivity.
  - destruct (decide (k = k')) as [->|Hne]; simpl.
    + rewrite decide_True by reflexivity. reflexivity.
    + rewrite decide_False by exact Hne. exact IH.
Qed.

Lemma dd_lookup_extend_ne k k' vs d :
  k ≠ k' -> dd_lookup k' (dd_extend k vs d) = dd_lookup k' d.
Proof.
  intros Hne. induction d as [|[k0 l] d IH]; simpl.
  - rewrite decide_False by congruence. reflexivity.
  - destruct (decide (k = k0)) as [->|Hk]; simpl.
    + rewrite !decide_False by congruence. reflexivity.
    + destruct (decide (k' = k0)); [reflexivity | exact IH].
Qed.

Lemma entries_extend_eq k vs d : entries k (dd_extend k vs d) = (entries k d ++ vs)%list.
Proof. unfold entries at 1. rewrite dd_lookup_extend_eq. reflexivity. Qed.

Lemma entries_extend_ne k k' vs d :
  k ≠ k' -> entries k' (dd_extend k vs d) = entries k' d.
Proof. intros Hne. unfold entries. rewrite dd_lookup_extend_ne by exact Hne. reflexivity. Qed.

Lemma entries_extend k k' vs d :
  entries k' (dd_extend k vs d) =
    if decide (k = k') then (entries k' d ++ vs)%list else entries k' d.
Proof.
  destruct (decide (k = k')) as [->|Hne].
  - apply entries_extend_eq.
  - apply entries_extend_ne. exact Hne.
Qed.

Lemma dd_extend_keys k vs d :
  NoDup d.*1 -> NoDup (dd_extend k vs d).*1 /\
  forall k', k' ∈ (dd_extend k vs d).*1 <-> k' = k \/ k' ∈ d.*1.
Proof.
  induction d as [|[k0 l] d IH]; simpl; intros Hnd.
  - split; [apply NoDup_singleton|]. intros k'.
    rewrite list_elem_of_singleton, elem_of_nil. tauto.
  - apply NoDup_cons in Hnd as [Hk0 Hnd].
    destruct (decide (k = k0)) as [->|Hne]; simpl.
    + split; [apply NoDup_cons; auto|]. intros k'. rewrite !elem_of_cons. tauto.
    + destruct (IH Hnd) as [IH1 IH2]. split.
      * apply NoDup_cons. split; [|exact IH1].
        rewrite IH2. intros [?|?]; [congruence | contradiction].
      * intros k'. rewrite !elem_of_cons, IH2. tauto.
Qed.

Lemma dd_lookup_Some_elem k l d :
  dd_lookup k d = Some l -> (k, l) ∈ d.
Proof.
  induction d as [|[k0 l0] d IH]; simpl; [discriminate|].
  destruct (decide (k = k0)) as [->|Hne].
  - intros [= ->]. left.
  - intros H. right. exact (IH H).
Qed.

Lemma dd_lookup_elem k l d :
  NoDup d.*1 -> (k, l) ∈ d -> dd_lookup k d = Some l.
Proof.
  induction d as [|[k0 l0] d IH]; simpl; intros Hnd Hin.
  - by apply elem_of_nil in Hin.
  - apply NoDup_cons in Hnd as [Hk0 Hnd].
    apply elem_of_cons in Hin as [[= <- <-]|Hin].
    + rewrite decide_True by reflexivity. reflexivity.
    + destruct (decide (k = k0)) as [->|Hne]; [|exact (IH Hnd Hin)].
      exfalso. apply Hk0. apply list_elem_of_fmap. exists (k0, l). auto.
Qed.

End DefaultDict.

(** ** The maps [_parse_channels] builds *)

Lemma channels_dict_lookup_Some (p : string) (c : Z -> Channel) :
  channels_dict_lookup p channels_dict = Some c ->
  (p = ControlChannel_prefix /\ c = ControlChannel) \/
  (String.eqb p ControlChannel_prefix = false /\
   forall i, is_control_channel (c i) = false).
Proof.
  unfold channels_dict. cbn [channels_dict_lookup].
  destruct (String.eqb_spec p DriveChannel_prefix) as [->|_];
    [intros [= <-]; right; split; [reflexivity | intros i; reflexivity]|].
  destruct (String.eqb_spec p ControlChannel_prefix) as [->|_];
    [intros [= <-]; left; split; reflexivity|].
  destruct (String.eqb_spec p MeasureChannel_prefix) as [->|_];
    [intros [= <-]; right; split; [reflexivity | intros i; reflexivity]|].
  destruct (String.eqb_spec p "acquire") as [->|_];
    [intros [= <-]; right; split; [reflexivity | intros i; reflexivity]|].
  discriminate.
Qed.

Lemma entries_nonempty {K V : Type} `{EqDecision K} (k : K) (d : list (K * list V))
    (x : V) :
  x ∈ entries k d -> exists l, dd_lookup k d = Some l /\ x ∈ l.
Proof.
  unfold entries. destruct (dd_lookup k d) as [l|]; simpl.
  - eauto.
  - intros Hx. by apply elem_of_nil in Hx.
Qed.

Lemma consistent_extend (maps : ChannelMaps) (qubits : list Z) (ch : Channel)
    (control : bool) :
  is_control_channel ch = control ->
  consistent maps ->
  consistent
    {| qubit_channel_map := dd_extend qubits [ch] (qubit_channel_map maps);
       channel_qubit_map := dd_extend ch qubits (channel_qubit_map maps);
       control_channels :=
         if control then dd_extend qubits [ch] (control_channels maps)
         else control_channels maps |}.
Proof.
  intros Hc (Hnd & Hcc & Hne & Hcne & Hkey & Hqc & Hcq). unfold consistent.
  cbn [qubit_channel_map channel_qubit_map control_channels].
  split; [apply dd_extend_keys, Hnd|]. split; [|split; [|split; [|split; [|split]]]].
  - intros qs. rewrite (entries_extend qubits qs).
    destruct control.
    + rewrite (entries_extend qubits qs).
      destruct (decide (qubits = qs)) as [->|Hqs]; [|apply Hcc].
      rewrite List.filter_app. cbn. rewrite Hc, Hcc. reflexivity.
    + destruct (decide (qubits = qs)) as [->|Hqs]; [|apply Hcc].
      rewrite List.filter_app. cbn. rewrite Hc, app_nil_r. apply Hcc.
  - intros qs l. destruct (decide (qubits = qs)) as [->|Hqs].
    + rewrite dd_lookup_extend_eq. intros [= <-].
      intros Heq. apply app_eq_nil in Heq as [_ Heq]. discriminate.
    + rewrite dd_lookup_extend_ne by exact Hqs. apply Hne.
  - intros qs l. destruct control; [|apply Hcne].
    destruct (decide (qubits = qs)) as [->|Hqs].
    + rewrite dd_lookup_extend_eq. intros [= <-].
      intros Heq. apply app_eq_nil in Heq as [_ Heq]. discriminate.
    + rewrite dd_lookup_extend_ne by exact Hqs. apply Hcne.
  - intros qs c. rewrite (entries_extend qubits qs). intros Hin.
    destruct (decide (ch = c)) as [<-|Hch];
      [rewrite dd_lookup_extend_eq; eexists; reflexivity|].
    rewrite dd_lookup_extend_ne by exact Hch.
    destruct (decide (qubits = qs)) as [->|Hqs]; [|exact (Hkey _ _ Hin)].
    apply elem_of_app in Hin as [Hin|Hin]; [exact (Hkey _ _ Hin)|].
    apply list_elem_of_singleton in Hin. congruence.
  - intros qs c q. rewrite (entries_extend qubits qs), (entries_extend ch c).
    intros Hin Hq.
    destruct (decide (qubits = qs)) as [->|Hqs].
    + apply elem_of_app in Hin as [Hin|Hin].
      * pose proof (Hqc _ _ _ Hin Hq) as Hold.
        destruct (decide (ch = c)); [apply elem_of_app; left|]; exact Hold.
      * apply list_elem_of_singleton in Hin as ->.
        rewrite decide_True by reflexivity. apply elem_of_app. right. exact Hq.
    + pose proof (Hqc _ _ _ Hin Hq) as Hold.
      destruct (decide (ch = c)); [apply elem_of_app; left|]; exact Hold.
  - intros c q. rewrite (entries_extend ch c). intros Hin.
    assert (Hold : q ∈ entries c (channel_qubit_map maps) ->
              exists qs, q ∈ qs /\
                c ∈ entries qs (dd_extend qubits [ch] (qubit_channel_map maps))).
    { intros Hq. destruct (Hcq _ _ Hq) as (qs & Hqs & Hcin). exists qs.
      split; [exact Hqs|]. rewrite (entries_extend qubits qs).
      destruct (decide (qubits = qs)); [apply elem_of_app; left|]; exact Hcin. }
    destruct (decide (ch = c)) as [<-|Hch]; [|exact (Hold Hin)].
    apply elem_of_app in Hin as [Hin|Hin]; [exact (Hold Hin)|].
    exists qubits. split; [exact Hin|].
    rewrite entries_extend_eq. apply elem_of_app. right. left.
Qed.

Lemma parse_channel_consistent (maps maps' : ChannelMaps) (entry : string * value) :
  parse_channel maps entry = Ok maps' -> consistent maps -> consistent maps'.
Proof.
  destruct entry as [channel config]. unfold parse_channel. intros H Hinv.
  apply bind_Ok in H as ([channel_prefix index] & Hprefix & H).
  destruct (channels_dict_lookup channel_prefix channels_dict) as [channel_type|] eqn:Htype;
    [|discriminate].
  apply bind_Ok in H as (operates & _ & H).
  apply bind_Ok in H as (qs & _ & H).
  apply bind_Ok in H as (qubits & _ & [= <-]).
  destruct (channels_dict_lookup_Some _ _ Htype) as [[-> ->]|[Hp Hc]].
  - apply (consistent_extend maps qubits (ControlChannel index) true eq_refl Hinv).
  - rewrite Hp.
    apply (consistent_extend maps qubits (channel_type index) false (Hc index) Hinv).
Qed.

Lemma parse_channel_entries_consistent (entries : list (string * value))
    (maps maps' : ChannelMaps) :
  parse_channel_entries maps entries = Ok maps' -> consistent maps -> consistent maps'.
Proof.
  revert maps. induction entries as [|entry rest IH]; intros maps; simpl.
  - intros [= <-]. auto.
  - intros H Hinv. apply bind_Ok in H as (maps1 & H1 & H).
    apply (IH _ H). apply (parse_channel_consistent _ _ _ H1 Hinv).
Qed.

Lemma parse_channels_invariant (channels : value) (maps : ChannelMaps) :
  _parse_channels channels = Ok maps -> consistent maps.
Proof.
  unfold _parse_channels. destruct channels; try discriminate.
  intros H. apply (parse_channel_entries_consistent _ _ _ H).
  unfold consistent. cbn. split; [apply NoDup_nil_2|].
  split; [reflexivity|]. split; [discriminate|]. split; [discriminate|].
  split; [|split].
  - intros qs ch Hin. by apply elem_of_nil in Hin.
  - intros qs ch q Hin. by apply elem_of_nil in Hin.
  - intros ch q Hin. by apply elem_of_nil in Hin.
Qed.

(** X9: the three maps [_parse_channels] returns fit together: the control
    channels of a tuple of qubits are the [ControlChannel]s among the
    channels of that tuple, in the same order; a channel listed for a tuple
    has every qubit of the tuple among its qubits; every qubit of a channel
    comes from a tuple the channel is listed for; and no tuple is listed
    with an empty list of channels. *)
Theorem parse_channels_maps_agree (channels : value) (maps : ChannelMaps) :
  _parse_channels channels = Ok maps ->
  (forall qs, entries qs (control_channels maps) =
     List.filter is_control_channel (entries qs (qubit_channel_map maps))) /\
  (forall qs ch q, ch ∈ entries qs (qubit_channel_map maps) -> q ∈ qs ->
     q ∈ entries ch (channel_qubit_map maps)) /\
  (forall ch q, q ∈ entries ch (channel_qubit_map maps) ->
     exists qs, q ∈ qs /\ ch ∈ entries qs (qubit_channel_map maps)) /\
  (forall qs l, dd_lookup qs (qubit_channel_map maps) = Some l -> l ≠ []).
Proof.
  intros H.
  destruct (parse_channels_invariant _ _ H) as (_ & Hcc & Hne & _ & _ & Hqc & Hcq).
  auto.
Qed.

Lemma parse_channels_maps_agree_witness :
  exists maps, _parse_channels example_channels = Ok maps /\
    entries [0; 1]%Z (control_channels maps) =
      List.filter is_control_channel (entries [0; 1]%Z (qubit_channel_map maps)).
Proof.
  eexists. split; [reflexivity|].
  apply (proj1 (parse_channels_maps_agree example_channels _ eq_refl)).
Defined.

(** ** The maps of a constructed configuration *)

Ltac maps_simpl :=
  repeat first
    [ progress cbn [_qubit_channel_map _channel_qubit_map _control_channels
                    set_data setattr]
    | rewrite (proj1 (proj2 (set_when_rest _ _ _ _)))
    | rewrite (proj1 (proj2 (proj2 (set_when_rest _ _ _ _))))
    | rewrite (proj2 (proj2 (proj2 (set_when_rest _ _ _ _))))
    | match goal with
      | H : set_whenM _ _ _ ?s = Ok ?s' |- context [_qubit_channel_map ?s'] =>
          rewrite (proj1 (proj2 (set_whenM_rest _ _ _ s s' H)))
      | H : set_whenM _ _ _ ?s = Ok ?s' |- context [_channel_qubit_map ?s'] =>
          rewrite (proj1 (proj2 (proj2 (set_whenM_rest _ _ _ s s' H))))
      | H : set_whenM _ _ _ ?s = Ok ?s' |- context [_control_channels ?s'] =>
          rewrite (proj2 (proj2 (proj2 (set_whenM_rest _ _ _ s s' H))))
      end ].

Lemma Qasm__init__channel_maps (self cfg : Instance) (p kwargs : gmap string value) :
  Qasm__init__ self p kwargs = Ok cfg ->
  _qubit_channel_map cfg = _qubit_channel_map self /\
  _channel_qubit_map cfg = _channel_qubit_map self.
Proof.
  intros H. invert_Qasm__init__ H. split; maps_simpl; reflexivity.
Qed.

Lemma init_channels_maps (ch : value) (s s' : Instance) :
  init_channels ch s = Ok s' ->
  if is_not_None ch
  then exists maps, _parse_channels ch = Ok maps /\
         _qubit_channel_map s' = Some (qubit_channel_map maps) /\
         _channel_qubit_map s' = Some (channel_qubit_map maps) /\
         _control_channels s' = Some (PlainDict (control_channels maps))
  else _qubit_channel_map s' = _qubit_channel_map s /\
       _channel_qubit_map s' = _channel_qubit_map s.
Proof.
  unfold init_channels. destruct (is_not_None ch).
  - cbv zeta. intros H. apply bind_Ok in H as (maps & Hmaps & [= <-]).
    exists maps. auto.
  - intros [= <-]. auto.
Qed.

Lemma Pulse__init__channel_maps (cfg : Instance) (p kwargs : gmap string value) :
  Pulse__init__ new_instance p kwargs = Ok cfg ->
  if is_not_None (p !!! "channels")
  then exists maps, _parse_channels (p !!! "channels") = Ok maps /\
         _qubit_channel_map cfg = Some (qubit_channel_map maps) /\
         _channel_qubit_map cfg = Some (channel_qubit_map maps) /\
         _control_channels cfg = Some (PlainDict (control_channels maps))
  else _qubit_channel_map cfg = None /\ _channel_qubit_map cfg = None.
Proof.
  intros H. invert_Pulse__init__ H.
  destruct (Qasm__init__channel_maps _ _ _ _ H) as [-> ->].
  rewrite (Qasm__init__control_channels _ _ _ _ H).
  maps_simpl.
  pose proof (init_channels_maps _ _ _ Hch) as Hmaps.
  destruct (is_not_None (p !!! "channels")); [exact Hmaps|].
  destruct Hmaps as [-> ->]. maps_simpl. auto.
Qed.

Lemma PulseBackendConfiguration_channel_maps (call : gmap string value) (cfg : Instance) :
  PulseBackendConfiguration call = Ok cfg ->
  let channels := default VNone (call !! "channels") in
  if is_not_None channels
  then exists maps, _parse_channels channels = Ok maps /\
         _qubit_channel_map cfg = Some (qubit_channel_map maps) /\
         _channel_qubit_map cfg = Some (channel_qubit_map maps) /\
         _control_channels cfg = Some (PlainDict (control_channels maps))
  else _qubit_channel_map cfg = None /\ _channel_qubit_map cfg = None.
Proof.
  unfold PulseBackendConfiguration. intros H.
  apply bind_Ok in H as ([p kwargs] & Hbind & H).
  pose proof (Pulse__init__channel_maps _ _ _ H) as Hmaps.
  assert (Hch : p !!! "channels" = default VNone (call !! "channels")).
  { rewrite lookup_total_alt.
    rewrite (bind_keywords_arg _ _ _ _ _ _ "channels" Hbind) by not_in_list.
    destruct (call !! "channels"); reflexivity. }
  rewrite Hch in Hmaps. exact Hmaps.
Qed.

(** ** [get_qubit_channels] *)

Lemma elem_of_set_update (channels value : list Channel) (ch : Channel) :
  ch ∈ set_update channels value <-> ch ∈ channels \/ ch ∈ value.
Proof.
  unfold set_update. revert channels.
  induction value as [|x value IH]; intros channels; simpl.
  - rewrite elem_of_nil. tauto.
  - rewrite IH, elem_of_cons. case_bool_decide as Hx.
    + split; [tauto|]. intros [?|[->|?]]; auto.
    + rewrite elem_of_app, list_elem_of_singleton. tauto.
Qed.

Lemma NoDup_set_update (channels value : list Channel) :
  NoDup channels -> NoDup (set_update channels value).
Proof.
  unfold set_update. revert channels.
  induction value as [|x value IH]; intros channels Hnd; simpl; [exact Hnd|].
  apply IH. case_bool_decide as Hx; [exact Hnd|].
  apply NoDup_app. split; [exact Hnd|]. split; [|apply NoDup_singleton].
  intros y Hy Hyx. apply list_elem_of_singleton in Hyx as ->. contradiction.
Qed.

(** The channels collected for an [int] qubit. *)
Lemma elem_of_collected (q : Z) (d : list (list Z * list Channel))
    (acc : list Channel) (ch : Channel) :
  ch ∈ foldl (fun acc (kv : list Z * list Channel) =>
                if bool_decide (q ∈ kv.1) then set_update acc kv.2 else acc) acc d
  <-> ch ∈ acc \/ exists key l, (key, l) ∈ d /\ q ∈ key /\ ch ∈ l.
Proof.
  revert acc. induction d as [|[key l] d IH]; intros acc; simpl.
  - split; [auto|]. intros [?|(key & l & Hin & _)]; [assumption|].
    by apply elem_of_nil in Hin.
  - rewrite IH. case_bool_decide as Hq.
    + rewrite elem_of_set_update. split.
      * intros [[?|?]|(key' & l' & Hin & ? & ?)]; [auto| |].
        -- right. exists key, l. split; [left|]; auto.
        -- right. exists key', l'. split; [right|]; auto.
      * intros [?|(key' & l' & Hin & Hq' & Hch)]; [auto|].
        apply elem_of_cons in Hin as [[= -> ->]|Hin]; [auto|].
        right. exists key', l'. auto.
    + split.
      * intros [?|(key' & l' & Hin & ? & ?)]; [auto|].
        right. exists key', l'. split; [right|]; auto.
      * intros [?|(key' & l' & Hin & Hq' & Hch)]; [auto|].
        apply elem_of_cons in Hin as [[= -> ->]|Hin]; [contradiction|].
        right. exists key', l'. auto.
Qed.

Lemma NoDup_collected (q : Z) (d : list (list Z * list Channel)) (acc : list Channel) :
  NoDup acc ->
  NoDup (foldl (fun acc (kv : list Z * list Channel) =>
                  if bool_decide (q ∈ kv.1) then set_update acc kv.2 else acc) acc d).
Proof.
  revert acc. induction d as [|[key l] d IH]; intros acc Hnd; simpl; [exact Hnd|].
  apply IH. case_bool_decide; [apply NoDup_set_update|]; exact Hnd.
Qed.

Lemma get_qubit_channels_int (self : Instance) (d : list (list Z * list Channel))
    (q : Z) (ch : Channel) :
  _qubit_channel_map self = Some d ->
  (exists l, get_qubit_channels self (inl q) = inr l /\ ch ∈ l) <->
  (exists key l, (key, l) ∈ d /\ q ∈ key /\ ch ∈ l).
Proof.
  intros Hd. unfold get_qubit_channels. rewrite Hd. cbv zeta.
  set (collected := foldl _ [] d).
  assert (Hin : forall c, c ∈ collected <->
                  exists key l, (key, l) ∈ d /\ q ∈ key /\ c ∈ l).
  { intros c. unfold collected. rewrite elem_of_collected, elem_of_nil. tauto. }
  case_bool_decide as Hnil.
  - split; [intros (l & [=] & _)|].
    intros Hex. apply Hin in Hex. rewrite Hnil in Hex. by apply elem_of_nil in Hex.
  - split.
    + intros (l & [= <-] & Hch). apply Hin. exact Hch.
    + intros Hex. exists collected. split; [reflexivity|]. apply Hin. exact Hex.
Qed.

Lemma get_channel_qubits_parsed (self : Instance) (d : list (Channel * list Z))
    (ch : Channel) :
  _channel_qubit_map self = Some d ->
  get_channel_qubits self ch =
    match dd_lookup ch d with
    | Some qubits => Ok qubits
    | None => Raise (BackendConfigurationError (ChannelNotFound ch))
    end.
Proof. intros Hd. unfold get_channel_qubits. rewrite Hd. reflexivity. Qed.

(** X10: on a configuration built with a channel map, the two queries are
    inverse to each other: [get_qubit_channels(q)] returns a list holding
    channel [ch] exactly when [get_channel_qubits(ch)] returns a list
    holding qubit [q]. *)
Theorem qubit_and_channel_queries_agree (call : gmap string value) (cfg : Instance)
    (q : Z) (ch : Channel) :
  PulseBackendConfiguration call = Ok cfg ->
  is_not_None (default VNone (call !! "channels")) = true ->
  (exists l, get_qubit_channels cfg (inl q) = inr l /\ ch ∈ l) <->
  (exists qs, get_channel_qubits cfg ch = Ok qs /\ q ∈ qs).
Proof.
  intros Hcfg Hch.
  pose proof (PulseBackendConfiguration_channel_maps _ _ Hcfg) as Hmaps.
  cbv zeta in Hmaps. rewrite Hch in Hmaps.
  destruct Hmaps as (maps & Hparse & Hqcm & Hcqm & _).
  destruct (parse_channels_invariant _ _ Hparse)
    as (Hnd & _ & _ & _ & _ & Hqc & Hcq).
  rewrite (get_qubit_channels_int _ _ q ch Hqcm).
  rewrite (get_channel_qubits_parsed _ _ ch Hcqm).
  split.
  - intros (key & l & Hin & Hq & Hl).
    apply (dd_lookup_elem _ _ _ Hnd) in Hin.
    assert (Hentry : ch ∈ entries key (qubit_channel_map maps))
      by (unfold entries; rewrite Hin; exact Hl).
    destruct (entries_nonempty _ _ _ (Hqc _ _ _ Hentry Hq)) as (qs & -> & Hqs).
    exists qs. auto.
  - intros (qs & Hqs & Hq).
    destruct (dd_lookup ch (channel_qubit_map maps)) as [qs'|] eqn:E; [|discriminate].
    injection Hqs as ->.
    assert (Hentry : q ∈ entries ch (channel_qubit_map maps))
      by (unfold entries; rewrite E; exact Hq).
    destruct (Hcq _ _ Hentry) as (key & Hkey & Hin).
    destruct (entries_nonempty _ _ _ Hin) as (l & Hl & Hchl).
    exists key, l. split; [apply dd_lookup_Some_elem; exact Hl | auto].
Qed.

Lemma qubit_and_channel_queries_agree_witness :
  exists cfg, PulseBackendConfiguration
                (<["gates" := VList []]> (<["u_channel_lo" := VList []]>
                   example_wire_with_channels)) = Ok cfg /\
    ((exists l, get_qubit_channels cfg (inl 1%Z) = inr l /\ ControlChannel 1 ∈ l) <->
     (exists qs, get_channel_qubits cfg (ControlChannel 1) = Ok qs /\ 1%Z ∈ qs)).
Proof.
  set (call := <["gates" := VList []]> (<["u_channel_lo" := VList []]>
                 example_wire_with_channels)).
  assert (Hok : is_Ok (PulseBackendConfiguration call) = true)
    by (vm_compute; reflexivity).
  destruct (PulseBackendConfiguration call) as [cfg|e] eqn:E; [|discriminate Hok].
  exists cfg. split; [reflexivity|].
  apply (qubit_and_channel_queries_agree call cfg 1 (ControlChannel 1) E).
  vm_compute. reflexivity.
Defined.

(** X11: on a configuration built with a channel map, what [control(qubits)]
    returns is never empty, holds [ControlChannel]s only, and leaves the
    configuration as it was; each of these channels is also among the
    channels [get_qubit_channels(qubits)] returns, and
    [get_channel_qubits] of it returns a list that holds every qubit of
    [qubits]. *)
Theorem control_channels_are_control_channels (call : gmap string value)
    (cfg : Instance) (qubits : list Z) (chans : list Channel) :
  PulseBackendConfiguration call = Ok cfg ->
  is_not_None (default VNone (call !! "channels")) = true ->
  (control cfg qubits).1 = Ok chans ->
  chans ≠ [] /\
  (control cfg qubits).2 = cfg /\
  forall ch, ch ∈ chans ->
    is_control_channel ch = true /\
    (exists l, get_qubit_channels cfg (inr qubits) = inr l /\ ch ∈ l) /\
    (exists qs, get_channel_qubits cfg ch = Ok qs /\ forall q, q ∈ qubits -> q ∈ qs).
Proof.
  intros Hcfg Hch Hcontrol.
  pose proof (PulseBackendConfiguration_channel_maps _ _ Hcfg) as Hmaps.
  cbv zeta in Hmaps. rewrite Hch in Hmaps.
  destruct Hmaps as (maps & Hparse & Hqcm & Hcqm & Hcc).
  destruct (parse_channels_invariant _ _ Hparse)
    as (Hnd & Hfilter & _ & Hcne & Hkey & Hqc & Hcq).
  unfold control in *. rewrite Hcc in *.
  destruct (dd_lookup qubits (control_channels maps)) as [l|] eqn:E.
  - cbn in Hcontrol. injection Hcontrol as ->.
    split; [exact (Hcne _ _ E)|]. split; [reflexivity|].
    intros ch Hin.
    assert (Hentry : ch ∈ entries qubits (control_channels maps))
      by (unfold entries; rewrite E; exact Hin).
    rewrite Hfilter in Hentry.
    apply list_elem_of_In, List.filter_In in Hentry as [Hentry Hctl].
    apply list_elem_of_In in Hentry.
    split; [exact Hctl|]. split.
    + unfold get_qubit_channels. rewrite Hqcm.
      destruct (entries_nonempty _ _ _ Hentry) as (l & -> & Hl).
      eexists. split; [reflexivity|]. apply elem_of_set_update. right. exact Hl.
    + rewrite (get_channel_qubits_parsed _ _ ch Hcqm).
      destruct (Hkey _ _ Hentry) as [qs Eqs]. rewrite Eqs.
      exists qs. split; [reflexivity|]. intros q Hq.
      pose proof (Hqc _ _ _ Hentry Hq) as Hin'.
      unfold entries in Hin'. rewrite Eqs in Hin'. exact Hin'.
  - cbn in Hcontrol. apply bind_Ok in Hcontrol as (? & _ & [=]).
Qed.

Lemma control_channels_are_control_channels_witness :
  exists cfg, PulseBackendConfiguration
                (<["gates" := VList []]> (<["u_channel_lo" := VList []]>
                   example_wire_with_channels)) = Ok cfg /\
    (control cfg [0; 1]%Z).1 = Ok [ControlChannel 1] /\
    exists qs, get_channel_qubits cfg (ControlChannel 1) = Ok qs /\
      forall q, q ∈ [0; 1]%Z -> q ∈ qs.
Proof.
  set (call := <["gates" := VList []]> (<["u_channel_lo" := VList []]>
                 example_wire_with_channels)).
  assert (Hok : is_Ok (PulseBackendConfiguration call) = true)
    by (vm_compute; reflexivity).
  assert (Hcontrol : (c ← PulseBackendConfiguration call; (control c [0; 1]%Z).1)
                     = Ok [ControlChannel 1])
    by (vm_compute; reflexivity).
  destruct (PulseBackendConfiguration call) as [cfg|e] eqn:E; [|discriminate Hok].
  cbn [mbind outcome_bind] in Hcontrol.
  exists cfg. split; [reflexivity|]. split; [exact Hcontrol|].
  destruct (control_channels_are_control_channels call cfg [0; 1]%Z
              [ControlChannel 1] E) as (_ & _ & Hall).
  - vm_compute. reflexivity.
  - exact Hcontrol.
  - destruct (Hall (ControlChannel 1)) as (_ & _ & Hqs); [left|exact Hqs].
Defined.

(** X12: on a configuration built without a channel map (and whose wire
    data has no entries named like the private maps), [get_channel_qubits]
    and [get_qubit_channels] fail for every argument with the
    [BackendConfigurationError] that the backend gives no channel
    information. *)
Theorem channel_queries_need_channels (call : gmap string value) (cfg : Instance) :
  PulseBackendConfiguration call = Ok cfg ->
  is_not_None (default VNone (call !! "channels")) = false ->
  call !! "_channel_qubit_map" = None ->
  call !! "_qubit_channel_map" = None ->
  exists backend_name, call !! "backend_name" = Some backend_name /\
    (forall ch, get_channel_qubits cfg ch =
       Raise (BackendConfigurationError (NoChannelInformation backend_name))) /\
    (forall qubit, get_qubit_channels cfg qubit =
       inl (LookupRaised
              (BackendConfigurationError (NoChannelInformation backend_name)))).
Proof.
  intros Hcfg Hch Hcq Hqc.
  pose proof (PulseBackendConfiguration_channel_maps _ _ Hcfg) as Hmaps.
  cbv zeta in Hmaps. rewrite Hch in Hmaps. destruct Hmaps as [Hqcm Hcqm].
  destruct (PulseBackendConfiguration_bound _ _ Hcfg)
    as (p & kwargs & Hinit & Hkw & Hp & Hpv & Hreq & Hkwargs).
  assert (Hname : getattr cfg "backend_name" = Ok (p !!! "backend_name")).
  { apply getattr_Ok. rewrite getattr_opt_attrs
      by (apply (Pulse__init__data_named _ _ _ _ Hinit Hkw); left; not_in_list).
    apply (Pulse__init__required _ _ _ _ Hinit); [not_in_list|].
    apply Hp. not_in_list. }
  assert (Hdata : forall k, k ∉ Pulse_attributes -> k ∉ Qasm_attributes ->
            call !! k = None -> _data cfg !! k = None).
  { intros k Hk1 Hk2 Hk. rewrite (Pulse__init__data _ _ _ k Hinit) by apply Hkw.
    rewrite bool_decide_eq_false_2 by exact Hk2. rewrite Hkwargs by exact Hk1.
    exact Hk. }
  exists (p !!! "backend_name"). split.
  { rewrite <- (Hreq "backend_name") by not_in_list.
    symmetry. apply lookup_total_is_Some. apply Hp. not_in_list. }
  split.
  - intros ch. unfold get_channel_qubits. rewrite Hcqm.
    rewrite (Hdata "_channel_qubit_map") by (not_in_list || exact Hcq).
    rewrite Hname. reflexivity.
  - intros qubit. unfold get_qubit_channels. rewrite Hqcm.
    rewrite (Hdata "_qubit_channel_map") by (not_in_list || exact Hqc).
    rewrite Hname. reflexivity.
Qed.

Lemma channel_queries_need_channels_witness :
  exists cfg, PulseBackendConfiguration
                (<["gates" := VList []]> (<["u_channel_lo" := VList []]> example_wire))
              = Ok cfg /\
    get_channel_qubits cfg (DriveChannel 0) =
      Raise (BackendConfigurationError (NoChannelInformation (VStr "fake_backend"))).
Proof.
  set (call := <["gates" := VList []]> (<["u_channel_lo" := VList []]> example_wire)).
  assert (Hok : is_Ok (PulseBackendConfiguration call) = true)
    by (vm_compute; reflexivity).
  destruct (PulseBackendConfiguration call) as [cfg|e] eqn:E; [|discriminate Hok].
  exists cfg. split; [reflexivity|].
  destruct (channel_queries_need_channels call cfg E)
    as (name & Hname & Hall & _); try (vm_compute; reflexivity).
  assert (Hn : call !! "backend_name" = Some (VStr "fake_backend"))
    by (vm_compute; reflexivity).
  rewrite Hn in Hname. injection Hname as <-. apply Hall.
Defined.

(** ** Channel names *)













Lemma parse_channel_entries_app (good rest : list (string * value))
    (maps : ChannelMaps) :
  parse_channel_entries maps (good ++ rest) =
    maps' ← parse_channel_entries maps good; parse_channel_entries maps' rest.
Proof.
  revert maps. induction good as [|entry good IH]; intros maps; simpl; [reflexivity|].
  destruct (parse_channel maps entry) as [maps1|e]; simpl; [apply IH | reflexivity].
Qed.

Lemma channels_dict_lookup_None (p : string) :
  p ∉ [DriveChannel_prefix; ControlChannel_prefix; MeasureChannel_prefix; "acquire"] ->
  channels_dict_lookup p channels_dict = None.
Proof.
  intros Hp. split_not_elem Hp. unfold channels_dict. cbn [channels_dict_lookup].
  repeat match goal with
  | H : p ≠ ?s |- context [String.eqb p ?s] =>
      rewrite (proj2 (String.eqb_neq p s) H)
  end.
  reflexivity.
Qed.

(** X14: [_parse_channels] stops at the first entry it cannot use, whatever
    that entry's configuration is: a name that is no channel name makes it
    raise [BackendConfigurationError], and a well-formed name whose prefix
    is none of [d], [u], [m] and [acquire] makes it raise [KeyError] with
    the prefix, the table being indexed before the prefix is tested. *)
Theorem parse_channels_rejects_names (good rest : list (string * value))
    (maps : ChannelMaps) (name : string) (config : value) :
  _parse_channels (VDict good) = Ok maps ->
  (_get_channel_prefix_index name =
     Raise (BackendConfigurationError (InvalidChannelName name)) ->
   _parse_channels (VDict (good ++ (name, config) :: rest)) =
     Raise (BackendConfigurationError (InvalidChannelName name))) /\
  (forall p i,
     _get_channel_prefix_index name = Ok (p, i) ->
     p ∉ [DriveChannel_prefix; ControlChannel_prefix; MeasureChannel_prefix;
          "acquire"] ->
     _parse_channels (VDict (good ++ (name, config) :: rest)) = Raise (KeyError p)).
Proof.
  unfold _parse_channels. intros Hgood.
  split; [intros Hname | intros p i Hname Hp];
    rewrite parse_channel_entries_app, Hgood;
    cbn [mbind outcome_bind parse_channel_entries parse_channel];
    rewrite Hname; cbn [mbind outcome_bind]; [reflexivity|].
  rewrite (channels_dict_lookup_None _ Hp). reflexivity.
Qed.

Lemma parse_channels_rejects_names_witness :
  _parse_channels (VDict [("d0", VDict [("operates", VDict [("qubits", VList [VInt 0])])]);
                          ("measure0", VNone)]) = Raise (KeyError "measure").
Proof.
  apply (proj2 (parse_channels_rejects_names
                  [("d0", VDict [("operates", VDict [("qubits", VList [VInt 0])])])]
                  [] _ "measure0" VNone eq_refl) "measure" 0%Z eq_refl).
  apply (bool_decide_unpack _). vm_compute. exact I.
Defined.

End ChannelQueriesFacts.

(** * Attribute access and the wire round trip of [QasmBackendConfiguration] *)

Module ConfigAccessFacts.
Import BackendConfig BackendConfigFacts ChannelQueries ChannelQueriesFacts.
Import ConfigAccess.
Local Open Scope float_scope.

Lemma QasmBackendConfiguration_inv (call : gmap string value) (cfg : Instance) :
  QasmBackendConfiguration call = Ok cfg ->
  exists p kwargs,
    Qasm__init__ new_instance p kwargs = Ok cfg /\
    (forall k, k ∈ Qasm_attributes -> kwargs !! k = None) /\
    (forall k, k ∉ Qasm_attributes -> kwargs !! k = call !! k) /\
    (forall k, k ∈ Qasm_required -> p !! k = call !! k /\ is_Some (call !! k)) /\
    (forall k, k ∈ Qasm_attributes ->
       p !! k = match call !! k with
                | Some v => Some v
                | None => (list_to_map Qasm_optional : gmap string value) !! k
                end).
Proof.
  unfold QasmBackendConfiguration. intros H.
  apply bind_Ok in H as ([p kwargs] & Hbind & H).
  exists p, kwargs. split; [exact H|].
  pose proof (bind_keywords_inv _ _ _ _ _ _ Hbind) as (_ & _ & Hreq).
  rewrite Forall_forall in Hreq.
  split; [|split; [|split]].
  - intros k Hk. apply (bind_keywords_kwargs_named _ _ _ _ _ _ _ Hbind Hk).
  - intros k Hk. rewrite (bind_keywords_kwargs _ _ _ _ _ _ k Hbind).
    unfold Qasm_attributes in Hk. rewrite bool_decide_eq_false_2 by exact Hk.
    reflexivity.
  - intros k Hk. split; [|apply Hreq; exact Hk].
    rewrite (bind_keywords_arg _ _ _ _ _ _ k Hbind)
      by (apply elem_of_app; left; exact Hk).
    destruct (Hreq _ Hk) as [v ->]. reflexivity.
  - intros k Hk. apply (bind_keywords_arg _ _ _ _ _ _ k Hbind Hk).
Qed.

(** X15: a field of the wire data that is no parameter of
    [QasmBackendConfiguration] (and is not one of the three the
    constructor converts), whose name does not start with an underscore
    and is not one the class defines itself ([from_dict], [to_dict],
    [num_qubits]), can be read as an attribute of the configuration and
    [hasattr] finds it, but the configuration does not contain it: [in]
    looks at the instance's own attributes only.  Such a name that was not
    given raises [AttributeError]. *)
Theorem unknown_fields_are_attributes (call : gmap string value) (cfg : Instance)
    (k : string) :
  QasmBackendConfiguration call = Ok cfg ->
  k ∉ Qasm_attributes ->
  k ∉ ["qubit_lo_range"; "meas_lo_range"; "rep_times"] ->
  k ∉ Qasm_class_names ->
  is_private k = false ->
  (forall v, call !! k = Some v ->
     getattr cfg k = Ok v /\ hasattr cfg k = true /\ contains cfg k = false) /\
  (call !! k = None ->
     getattr cfg k = Raise (AttributeError ("Attribute " ++ k ++ " is not defined")) /\
     hasattr cfg k = false /\ contains cfg k = false).
Proof.
  intros Hcfg Hk Hconv _ Hprivate.
  assert (Hdata : k ≠ "_data") by (intros ->; discriminate Hprivate).
  destruct (QasmBackendConfiguration_inv _ _ Hcfg)
    as (p & kwargs & Hinit & _ & Hkw & _ & _).
  assert (Hattrs : attrs cfg !! k = None)
    by (rewrite (Qasm__init__frame _ _ _ _ _ Hinit Hk); apply attrs_new_instance).
  assert (Hd : _data cfg !! k = call !! k)
    by (rewrite (Qasm__init__data_other _ _ _ _ _ Hinit Hconv); apply Hkw, Hk).
  assert (Hopt : getattr_opt cfg k = call !! k)
    by (unfold getattr_opt; rewrite Hattrs; exact Hd).
  destruct (Qasm__init__channel_maps _ _ _ _ Hinit) as [Hq Hc].
  pose proof (Qasm__init__control_channels _ _ _ _ Hinit) as Hcc.
  assert (Hcontains : contains cfg k = false).
  { unfold contains. rewrite Hattrs, Hq, Hc, Hcc. cbn [new_instance
      _qubit_channel_map _channel_qubit_map _control_channels].
    rewrite (bool_decide_eq_false_2 (is_Some None)) by (intros [? ?]; discriminate).
    rewrite !andb_false_r. rewrite (proj2 (String.eqb_neq k "_data") Hdata).
    reflexivity. }
  split.
  - intros v Hv. rewrite Hv in Hopt. split; [apply getattr_Ok; exact Hopt|].
    split; [|exact Hcontains].
    unfold hasattr. rewrite Hopt. apply bool_decide_eq_true_2. eauto.
  - intros Hnone. rewrite Hnone in Hopt. split; [|split; [|exact Hcontains]].
    + unfold getattr. rewrite Hopt. reflexivity.
    + unfold hasattr. rewrite Hopt. apply bool_decide_eq_false_2.
      intros [? ?]. discriminate.
Qed.

Lemma unknown_fields_are_attributes_witness :
  exists cfg, QasmBackendConfiguration example_keywords = Ok cfg /\
    getattr cfg "extra_field" = Ok (VStr "kept") /\
    contains cfg "extra_field" = false.
Proof.
  assert (Hok : is_Ok (QasmBackendConfiguration example_keywords) = true)
    by (vm_compute; reflexivity).
  destruct (QasmBackendConfiguration example_keywords) as [cfg|e] eqn:E;
    [|discriminate Hok].
  exists cfg. split; [reflexivity|].
  destruct (unknown_fields_are_attributes example_keywords cfg "extra_field" E
              ltac:(not_in_list) ltac:(not_in_list) ltac:(not_in_list) eq_refl)
    as [Hsome _].
  destruct (Hsome (VStr "kept")) as (H1 & _ & H3); [vm_compute; reflexivity|].
  auto.
Defined.

(** ** What [Qasm_to_dict] writes for the converted fields *)

(** The dictionary before the conversions holds an attribute that
    [copy_attrs] copies under its name. *)
Lemma Qasm_to_dict_converted (self : Instance) (out : gmap string value) (k : string) :
  Qasm_to_dict self = Ok out ->
  _data self !! k = None ->
  k ∈ ["dt"; "dtm"] ->
  match attrs self !! k with
  | Some v => exists v', py_mul 1e9 v = Ok v' /\ out !! k = Some v'
  | None => out !! k = None
  end.
Proof.
  intros H Hdata Hk. invert_Qasm_to_dict H.
  apply elem_of_cons in Hk as [->|Hk];
    [|apply elem_of_cons in Hk as [->|Hk]; [|by apply elem_of_nil in Hk]].
  - match goal with
    | Hc : convert_key "dt" _ ?d = Ok _ |- _ =>
        pose proof (convert_key_eq _ _ _ _ Hc) as Hconv;
        assert (E : d !! "dt" = attrs self !! "dt")
          by (rewrite lookup_union_r by exact Hdata; dict_walk;
              rewrite insert_opt_eq, getattr_opt_attrs by exact Hdata;
              destruct (attrs self !! "dt");
              [reflexivity | dict_walk; apply lookup_empty]);
        rewrite E in Hconv; clear E
    end.
    destruct (attrs self !! "dt") as [v|].
    + destruct Hconv as (v' & Hv' & Hout). exists v'. split; [exact Hv'|].
      dict_walk. exact Hout.
    + dict_walk. exact Hconv.
  - match goal with
    | Hc : convert_key "dtm" _ ?d = Ok _ |- _ =>
        pose proof (convert_key_eq _ _ _ _ Hc) as Hconv;
        assert (E : d !! "dtm" = attrs self !! "dtm")
          by (dict_walk; rewrite lookup_union_r by exact Hdata; dict_walk;
              rewrite insert_opt_eq, getattr_opt_attrs by exact Hdata;
              destruct (attrs self !! "dtm");
              [reflexivity | dict_walk; apply lookup_empty]);
        rewrite E in Hconv; clear E
    end.
    destruct (attrs self !! "dtm") as [v|].
    + destruct Hconv as (v' & Hv' & Hout). exists v'. split; [exact Hv'|].
      dict_walk. exact Hout.
    + dict_walk. exact Hconv.
Qed.

Lemma Qasm_to_dict_data_range (self : Instance) (out : gmap string value) (k : string) :
  Qasm_to_dict self = Ok out ->
  k ∈ ["qubit_lo_range"; "meas_lo_range"] ->
  match _data self !! k with
  | Some v => exists v', scale_ranges 1e-9 v = Ok v' /\ out !! k = Some v'
  | None => out !! k = None
  end.
Proof.
  intros H Hk. invert_Qasm_to_dict H.
  apply elem_of_cons in Hk as [->|Hk];
    [|apply elem_of_cons in Hk as [->|Hk]; [|by apply elem_of_nil in Hk]].
  - match goal with
    | Hc : convert_key "qubit_lo_range" _ ?d = Ok _ |- _ =>
        pose proof (convert_key_eq _ _ _ _ Hc) as Hconv;
        assert (E : d !! "qubit_lo_range" = _data self !! "qubit_lo_range")
          by (dict_walk;
              destruct (_data self !! "qubit_lo_range") as [v|] eqn:Ed;
              [ apply lookup_union_Some_l; exact Ed
              | rewrite lookup_union_r by exact Ed; dict_walk; apply lookup_empty ]);
        rewrite E in Hconv; clear E
    end.
    destruct (_data self !! "qubit_lo_range") as [v|].
    + destruct Hconv as (v' & Hv' & Hout). exists v'. split; [exact Hv'|].
      dict_walk. exact Hout.
    + dict_walk. exact Hconv.
  - match goal with
    | Hc : convert_key "meas_lo_range" _ ?d = Ok _ |- _ =>
        pose proof (convert_key_eq _ _ _ _ Hc) as Hconv;
        assert (E : d !! "meas_lo_range" = _data self !! "meas_lo_range")
          by (dict_walk;
              destruct (_data self !! "meas_lo_range") as [v|] eqn:Ed;
              [ apply lookup_union_Some_l; exact Ed
              | rewrite lookup_union_r by exact Ed; dict_walk; apply lookup_empty ]);
        rewrite E in Hconv; clear E
    end.
    destruct (_data self !! "meas_lo_range") as [v|].
    + destruct Hconv as (v' & Hv' & Hout). exists v'. split; [exact Hv'|].
      exact Hout.
    + exact Hconv.
Qed.

Lemma Qasm_to_dict_rep_delay (self : Instance) (out : gmap string value) :
  Qasm_to_dict self = Ok out ->
  _data self !! "rep_delay_range" = None ->
  _data self !! "default_rep_delay" = None ->
  match attrs self !! "rep_delay_range" with
  | Some v => exists v', scale_list 1e6 v = Ok v' /\ out !! "rep_delay_range" = Some v'
  | None => out !! "rep_delay_range" = None
  end /\
  match attrs self !! "default_rep_delay" with
  | Some v => exists v', py_mul 1e6 v = Ok v' /\ out !! "default_rep_delay" = Some v'
  | None => out !! "default_rep_delay" = None
  end.
Proof.
  intros H Hd1 Hd2. invert_Qasm_to_dict H. split.
  - match goal with
    | Hc : emit_attr _ "rep_delay_range" _ _ = Ok _ |- _ =>
        pose proof (emit_attr_eq _ _ _ _ _ Hc) as Hconv
    end.
    rewrite getattr_opt_attrs in Hconv by exact Hd1.
    destruct (attrs self !! "rep_delay_range") as [v|].
    + destruct Hconv as (v' & Hv' & Hout). exists v'. split; [exact Hv'|].
      dict_walk. rewrite lookup_union_r by exact Hd1. dict_walk. exact Hout.
    + dict_walk. rewrite lookup_union_r by exact Hd1. dict_walk.
      rewrite Hconv. dict_walk. apply lookup_empty.
  - match goal with
    | Hc : emit_attr _ "default_rep_delay" _ _ = Ok _ |- _ =>
        pose proof (emit_attr_eq _ _ _ _ _ Hc) as Hconv
    end.
    rewrite getattr_opt_attrs in Hconv by exact Hd2.
    destruct (attrs self !! "default_rep_delay") as [v|].
    + destruct Hconv as (v' & Hv' & Hout). exists v'. split; [exact Hv'|].
      dict_walk. rewrite lookup_union_r by exact Hd2. dict_walk. exact Hout.
    + dict_walk. rewrite lookup_union_r by exact Hd2. dict_walk.
      rewrite Hconv. dict_walk. apply lookup_empty.
Qed.


(** ** There and back through [QasmBackendConfiguration] *)

Lemma Qasm_from_dict_inv (data : gmap string value) (cfg : Instance) :
  Qasm_from_dict data = Ok cfg ->
  exists call gs ds,
    QasmBackendConfiguration call = Ok cfg /\
    call !! "gates" = Some (VList gs) /\ mapM GateConfig_to_dict gs = Ok ds /\
    (forall k, k ≠ "gates" -> call !! k = data !! k).
Proof.
  unfold Qasm_from_dict. intros H.
  apply bind_Ok in H as (gates & Hgates & H). cbv zeta in H.
  destruct (pop_gates_serialisable _ _ Hgates) as (gs & ds & -> & Hds).
  exists (<["gates" := VList gs]> data), gs, ds.
  split; [exact H|]. split; [apply dict_insert_eq|]. split; [exact Hds|].
  intros k Hk. apply dict_insert_ne. apply not_eq_sym. exact Hk.
Qed.

Lemma Qasm__init__data_rep_times (self cfg : Instance) (p kwargs : gmap string value) :
  Qasm__init__ self p kwargs = Ok cfg ->
  match kwargs !! "rep_times" with
  | Some v => exists v', scale_list 1e-6 v = Ok v' /\ _data cfg !! "rep_times" = Some v'
  | None => _data cfg !! "rep_times" = None
  end.
Proof.
  intros H. destruct (Qasm__init__data _ _ _ _ H) as (kw1 & kw2 & H1 & H2 & H3).
  pose proof (convert_key_eq _ _ _ _ H3) as Hconv.
  assert (E : kw2 !! "rep_times" = kwargs !! "rep_times")
    by (apply (walk_convert_key_ne _ _ _ _ _ _ H2); [discriminate|];
        apply (walk_convert_key_ne _ _ _ _ _ _ H1); [discriminate|]; reflexivity).
  rewrite E in Hconv. exact Hconv.
Qed.

Lemma Qasm_optional_default (k : string) :
  k ∈ Qasm_optional.*1 -> k ≠ "dynamic_reprate_enabled" ->
  (list_to_map Qasm_optional : gmap string value) !! k = Some VNone.
Proof.
  intros Hk Hne. cbn in Hk.
  repeat (apply elem_of_cons in Hk as [->|Hk];
          [first [vm_compute; reflexivity | congruence]|]).
  by apply elem_of_nil in Hk.
Qed.

(** X16: for every wire dictionary [QasmBackendConfiguration.from_dict]
    accepts, [to_dict] of the configuration returns; the required fields
    other than the gates and every field that is no parameter come back as
    they were; [dynamic_reprate_enabled] is always there, [False] when it
    was not given; time steps, LO ranges and repetition delays come back
    as the float products of the two conversions, an empty
    [rep_delay_range] being dropped; and [rep_times], which the
    constructor turns into seconds, comes back in seconds. *)
Theorem Qasm_wire_round_trip (data : gmap string value) (cfg : Instance) :
  Qasm_from_dict data = Ok cfg ->
  exists out, Qasm_to_dict cfg = Ok out /\
    (forall k, k ∈ Qasm_required -> k ≠ "gates" -> out !! k = data !! k) /\
    out !! "dynamic_reprate_enabled" =
      Some (default (VBool false) (data !! "dynamic_reprate_enabled")) /\
    (forall k, k ∉ Qasm_attributes ->
       k ∉ ["qubit_lo_range"; "meas_lo_range"; "rep_times"] ->
       out !! k = data !! k) /\
    (forall k x, k ∈ ["dt"; "dtm"] -> data !! k = Some (VFloat x) ->
       out !! k = Some (VFloat (there_and_back 1e-9 1e9 x))) /\
    (forall k l, k ∈ ["qubit_lo_range"; "meas_lo_range"] ->
       data !! k = Some (ranges l) ->
       out !! k = Some (ranges (range_there_and_back 1e9 1e-9 <$> l))) /\
    (forall x, data !! "default_rep_delay" = Some (VFloat x) ->
       out !! "default_rep_delay" = Some (VFloat (there_and_back 1e-6 1e6 x))) /\
    (forall l, data !! "rep_delay_range" = Some (floats l) ->
       out !! "rep_delay_range" =
         match l with
         | [] => None
         | _ => Some (floats (there_and_back 1e-6 1e6 <$> l))
         end) /\
    (forall l, data !! "rep_times" = Some (floats l) ->
       out !! "rep_times" = Some (floats ((fun x => x * 1e-6) <$> l))).
Proof.
  intros Hfrom.
  destruct (Qasm_from_dict_inv _ _ Hfrom) as (call & gs & ds & Hcall & Hg & Hds & Hsame).
  pose proof (QasmBackendConfiguration_serialisable _ _ _ _ Hcall Hg Hds) as Hser.
  destruct (Qasm_to_dict_total _ Hser) as [out Hout]. exists out.
  split; [exact Hout|].
  pose proof (fun k => QasmBackendConfiguration_data_named call cfg k Hcall) as Hnamed.
  destruct (QasmBackendConfiguration_inv _ _ Hcall)
    as (p & kwargs & Hinit & Hkwn & Hkw & Hreq & Harg).
  pose proof (Qasm__init__converted _ _ _ _ Hinit) as (Crdr & Cdrd & Cdt & Cdtm).
  rewrite !attrs_new_instance in *.
  assert (Hp : forall k v, k ∈ Qasm_attributes -> k ≠ "gates" ->
            data !! k = Some v -> p !!! k = v).
  { intros k v Hk Hne Hv. apply lookup_total_Some.
    rewrite (Harg k Hk), (Hsame k Hne), Hv. reflexivity. }
  split; [|split; [|split; [|split; [|split; [|split; [|split]]]]]].
  - intros k Hk Hne.
    rewrite (Qasm_to_dict_required _ _ k Hout).
    + rewrite (Qasm__init__required _ _ _ _ k Hinit) by (right; exact Hk).
      rewrite <- (Hsame k Hne). destruct (Hreq k Hk) as [<- Hsome].
      apply lookup_total_is_Some. exact Hsome.
    + apply Hnamed. apply elem_of_app. left. exact Hk.
    + unfold Qasm_required in Hk.
      repeat (apply elem_of_cons in Hk as [->|Hk];
              [first [in_list | congruence]|]).
      by apply elem_of_nil in Hk.
  - rewrite (Qasm_to_dict_required _ _ _ Hout) by (first [apply Hnamed|idtac]; not_in_list).
    rewrite (Qasm__init__required _ _ _ _ _ Hinit) by in_list.
    f_equal. rewrite lookup_total_alt.
    rewrite (Harg "dynamic_reprate_enabled") by not_in_list.
    rewrite (Hsame "dynamic_reprate_enabled") by discriminate.
    destruct (data !! "dynamic_reprate_enabled"); reflexivity.
  - intros k Hk Hconv.
    rewrite (Qasm_to_dict_other _ _ k Hout).
    + rewrite (Qasm__init__data_other _ _ _ _ _ Hinit Hconv).
      rewrite (Hkw k Hk). apply Hsame. intros ->. apply Hk. not_in_list.
    + intros Hin. apply elem_of_cons in Hin as [->|Hin];
        [apply Hconv; in_list|].
      apply elem_of_cons in Hin as [->|Hin]; [apply Hconv; in_list|].
      apply Hk. unfold Qasm_emitted in Hin.
      repeat (apply elem_of_cons in Hin as [->|Hin]; [not_in_list|]).
      by apply elem_of_nil in Hin.
  - intros k x Hk Hx.
    pose proof (Qasm_to_dict_converted _ _ k Hout) as Hconv.
    apply elem_of_cons in Hk as [->|Hk];
      [|apply elem_of_cons in Hk as [->|Hk]; [|by apply elem_of_nil in Hk]].
    + rewrite (Hp "dt" (VFloat x)) in Cdt by (not_in_list || discriminate || exact Hx).
      destruct Cdt as (v & [= <-] & Hattr).
      specialize (Hconv (Hnamed "dt" ltac:(not_in_list)) ltac:(in_list)).
      rewrite Hattr in Hconv. destruct Hconv as (v' & [= <-] & ->). reflexivity.
    + rewrite (Hp "dtm" (VFloat x)) in Cdtm by (not_in_list || discriminate || exact Hx).
      destruct Cdtm as (v & [= <-] & Hattr).
      specialize (Hconv (Hnamed "dtm" ltac:(not_in_list)) ltac:(in_list)).
      rewrite Hattr in Hconv. destruct Hconv as (v' & [= <-] & ->). reflexivity.
  - intros k l Hk Hl.
    pose proof (Qasm_to_dict_data_range _ _ k Hout Hk) as Hconv.
    pose proof (Qasm__init__data_lo_range _ _ _ _ k Hinit Hk) as Hin.
    assert (Hkwl : kwargs !! k = Some (ranges l)).
    { rewrite Hkw, Hsame; [exact Hl| |];
      repeat (apply elem_of_cons in Hk as [->|Hk]; [first [discriminate | not_in_list]|]);
      by apply elem_of_nil in Hk. }
    rewrite Hkwl in Hin. destruct Hin as (v' & Hv' & Hd).
    rewrite scale_ranges_ranges in Hv'. injection Hv' as <-.
    rewrite Hd in Hconv. destruct Hconv as (v'' & Hv'' & ->).
    rewrite scale_ranges_ranges in Hv''. injection Hv'' as <-.
    rewrite <- list_fmap_compose. reflexivity.
  - intros x Hx.
    destruct (Qasm_to_dict_rep_delay _ _ Hout) as [_ Hconv];
      try (apply Hnamed; not_in_list).
    rewrite (Hp "default_rep_delay" (VFloat x)) in Cdrd
      by (not_in_list || discriminate || exact Hx).
    destruct Cdrd as (v & [= <-] & Hattr). rewrite Hattr in Hconv.
    destruct Hconv as (v' & [= <-] & ->). reflexivity.
  - intros l Hl.
    destruct (Qasm_to_dict_rep_delay _ _ Hout) as [Hconv _];
      try (apply Hnamed; not_in_list).
    rewrite (Hp "rep_delay_range" (floats l)) in Crdr
      by (not_in_list || discriminate || exact Hl).
    destruct l as [|x l].
    + cbn in Crdr. rewrite Crdr in Hconv. exact Hconv.
    + change (truthy (floats (x :: l))) with true in Crdr.
      destruct Crdr as (v & Hv & Hattr).
      rewrite scale_list_floats in Hv. injection Hv as <-.
      rewrite Hattr in Hconv. destruct Hconv as (v' & Hv' & ->).
      rewrite scale_list_floats in Hv'. injection Hv' as <-.
      rewrite <- list_fmap_compose. reflexivity.
  - intros l Hl.
    rewrite (Qasm_to_dict_other _ _ "rep_times" Hout) by not_in_list.
    pose proof (Qasm__init__data_rep_times _ _ _ _ Hinit) as Hrt.
    rewrite (Hkw "rep_times"), (Hsame "rep_times"), Hl in Hrt
      by (not_in_list || discriminate).
    destruct Hrt as (v' & Hv' & ->).
    rewrite scale_list_floats in Hv'. injection Hv' as <-. reflexivity.
Qed.

Lemma Qasm_wire_round_trip_witness :
  exists cfg out, Qasm_from_dict example_wire = Ok cfg /\
    Qasm_to_dict cfg = Ok out /\
    out !! "dynamic_reprate_enabled" = Some (VBool false) /\
    out !! "rep_times" = Some (VList [VFloat 0.001]).
Proof.
  assert (Hok : is_Ok (Qasm_from_dict example_wire) = true)
    by (vm_compute; reflexivity).
  destruct (Qasm_from_dict example_wire) as [cfg|e] eqn:E; [|discriminate Hok].
  destruct (Qasm_wire_round_trip _ _ E)
    as (out & Hout & _ & Hdyn & _ & _ & _ & _ & _ & Hrt).
  exists cfg, out. split; [reflexivity|]. split; [exact Hout|]. split.
  - rewrite Hdyn. vm_compute. reflexivity.
  - rewrite (Hrt [1000]) by (vm_compute; reflexivity). vm_compute. reflexivity.
Defined.

End ConfigAccessFacts.

(** * The optional fields of [PulseBackendConfiguration] on the wire *)

Module PulseFieldFacts.
Import BackendConfig BackendConfigFacts ChannelQueries ChannelQueriesFacts.
Import ConfigAccess ConfigAccessFacts.
Local Open Scope float_scope.

(** ** What [Pulse_to_dict] writes for the optional fields *)

Lemma Pulse_to_dict_optional_field (self : Instance) (out : gmap string value)
    (k : string) :
  Pulse_to_dict self = Ok out ->
  _data self !! "channels" = None ->
  k ∈ ["meas_map"; "acquisition_latency"; "conditional_latency"; "channels"] ->
  out !! k = getattr_opt self k.
Proof.
  intros H Hdata Hk. invert_Pulse_to_dict H Hdata.
  repeat (apply elem_of_cons in Hk as [->|Hk];
    [ dict_walk;
      match goal with
      | He : emit_attr _ ?key mret ?d = Ok ?d' |- ?d' !! ?key = _ =>
          pose proof (emit_attr_eq _ _ _ _ _ He) as E;
          destruct (getattr_opt self key) as [v|] eqn:Eg;
          [ destruct E as (v' & [= <-] & ->); reflexivity
          | rewrite E; dict_walk;
            rewrite (Qasm_to_dict_other _ _ key Hq) by not_in_list;
            unfold getattr_opt in Eg; destruct (attrs self !! key);
            [discriminate | exact Eg] ]
      end |]).
  by apply elem_of_nil in Hk.
Qed.

Lemma Pulse_to_dict_rep_times (self : Instance) (out : gmap string value) :
  Pulse_to_dict self = Ok out ->
  _data self !! "channels" = None ->
  exists v, getattr self "rep_times" = Ok v /\
    if truthy v
    then exists v', scale_list 1e6 v = Ok v' /\ out !! "rep_times" = Some v'
    else out !! "rep_times" = Some v.
Proof.
  intros H Hdata. invert_Pulse_to_dict H Hdata.
  match goal with
  | Ht : emit_truthy _ "rep_times" _ _ = Ok _ |- _ =>
      apply emit_truthy_Ok in Ht as (v & o & Hv & -> & Ho)
  end.
  exists v. split; [exact Hv|].
  destruct (truthy v).
  - destruct Ho as (v' & Hv' & ->). exists v'. split; [exact Hv'|].
    dict_walk. apply dict_insert_eq.
  - subst o. dict_walk. cbn [insert_opt]. dict_walk.
    rewrite dict_insert_eq. congruence.
Qed.

Lemma Pulse_to_dict_channel_bandwidth (self : Instance) (out : gmap string value) :
  Pulse_to_dict self = Ok out ->
  _data self !! "channels" = None ->
  match getattr_opt self "channel_bandwidth" with
  | Some v => exists v', scale_ranges 1e-9 v = Ok v' /\
                out !! "channel_bandwidth" = Some v'
  | None => out !! "channel_bandwidth" = None
  end.
Proof.
  intros H Hdata. invert_Pulse_to_dict H Hdata.
  match goal with
  | He : emit_attr _ "channel_bandwidth" (scale_ranges _) _ = Ok _ |- _ =>
      pose proof (emit_attr_eq _ _ _ _ _ He) as E
  end.
  destruct (getattr_opt self "channel_bandwidth") as [v|] eqn:Eg.
  - destruct E as (v' & Hv' & Hout). exists v'. split; [exact Hv'|].
    dict_walk. exact Hout.
  - dict_walk. rewrite E. dict_walk.
    match goal with
    | He : emit_attr _ "channel_bandwidth" mret _ = Ok _ |- _ =>
        pose proof (emit_attr_eq _ _ _ _ _ He) as E'
    end.
    rewrite Eg in E'. rewrite E'. dict_walk.
    rewrite (Qasm_to_dict_other _ _ "channel_bandwidth" Hq) by not_in_list.
    unfold getattr_opt in Eg. destruct (attrs self !! "channel_bandwidth");
      [discriminate | exact Eg].
Qed.

Lemma Pulse_to_dict_hamiltonian (self : Instance) (out : gmap string value) :
  Pulse_to_dict self = Ok out ->
  _data self !! "channels" = None ->
  _data self !! "hamiltonian" = None ->
  exists h, getattr self "hamiltonian" = Ok h /\
    if truthy h
    then exists h', scale_hamiltonian 1e-9 h = Ok h' /\ out !! "hamiltonian" = Some h'
    else out !! "hamiltonian" = None.
Proof.
  intros H Hdata Hh. invert_Pulse_to_dict H Hdata.
  match goal with
  | Ht : emit_truthy _ "hamiltonian" _ _ = Ok _ |- _ =>
      apply emit_truthy_Ok in Ht as (h & o & Hv & -> & Ho)
  end.
  exists h. split; [exact Hv|].
  destruct (truthy h).
  - destruct Ho as (h' & Hh' & ->). exists h'. split; [exact Hh'|].
    dict_walk. apply dict_insert_eq.
  - subst o. dict_walk. cbn [insert_opt]. dict_walk.
    rewrite (Qasm_to_dict_other _ _ "hamiltonian" Hq) by not_in_list. exact Hh.
Qed.

(** ** What the pulse constructor stores for the optional fields *)

Lemma Pulse__init__optional (cfg : Instance) (p kwargs : gmap string value) (k : string) :
  Pulse__init__ new_instance p kwargs = Ok cfg ->
  k ∈ ["meas_map"; "acquisition_latency"; "conditional_latency"; "channels"] ->
  attrs cfg !! k = if is_not_None (p !!! k) then Some (p !!! k) else None.
Proof.
  intros H Hk. invert_Pulse__init__ H.
  rewrite (Qasm__init__frame _ _ _ _ _ H)
    by (repeat (apply elem_of_cons in Hk as [->|Hk]; [not_in_list|]);
        by apply elem_of_nil in Hk).
  apply elem_of_cons in Hk as [->|Hk].
  { apply walk_set_when_eq. destruct (is_not_None (p !!! "meas_map")); [reflexivity|].
    pulse_attrs_simpl. apply attrs_new_instance. }
  apply elem_of_cons in Hk as [->|Hk].
  { pulse_attrs_simpl. apply walk_set_when_eq.
    destruct (is_not_None (p !!! "acquisition_latency")); [reflexivity|].
    pulse_attrs_simpl. apply attrs_new_instance. }
  apply elem_of_cons in Hk as [->|Hk].
  { pulse_attrs_simpl. apply walk_set_when_eq.
    destruct (is_not_None (p !!! "conditional_latency")); [reflexivity|].
    pulse_attrs_simpl. apply attrs_new_instance. }
  apply elem_of_cons in Hk as [->|Hk]; [|by apply elem_of_nil in Hk].
  pulse_attrs_simpl.
  unfold init_channels in Hch. destruct (is_not_None (p !!! "channels")).
  - cbv zeta in Hch. apply bind_Ok in Hch as (maps & _ & [= <-]).
    cbn [attrs set_channel_maps]. apply walk_setattr_eq.
  - injection Hch as <-. cbn [attrs set_channel_maps].
    pulse_attrs_simpl. apply attrs_new_instance.
Qed.

Lemma Pulse__init__bandwidth (cfg : Instance) (p kwargs : gmap string value) :
  Pulse__init__ new_instance p kwargs = Ok cfg ->
  if is_not_None (p !!! "channel_bandwidth")
  then exists v, scale_ranges 1e9 (p !!! "channel_bandwidth") = Ok v /\
         attrs cfg !! "channel_bandwidth" = Some v
  else attrs cfg !! "channel_bandwidth" = None.
Proof.
  intros H. invert_Pulse__init__ H.
  rewrite (Qasm__init__frame _ _ _ _ _ H) by not_in_list.
  pose proof (set_whenM_attrs_eq _ _ _ _ _ Hbw) as E.
  destruct (is_not_None (p !!! "channel_bandwidth")).
  - destruct E as (x & Hx & E). exists x. split; [exact Hx|].
    pulse_attrs_simpl. exact E.
  - pulse_attrs_simpl. rewrite E. pulse_attrs_simpl. apply attrs_new_instance.
Qed.

Lemma Pulse__init__scaled_hamiltonian (cfg : Instance) (p kwargs : gmap string value) :
  Pulse__init__ new_instance p kwargs = Ok cfg ->
  if is_not_None (p !!! "hamiltonian")
  then exists h, scale_hamiltonian 1e9 (p !!! "hamiltonian") = Ok h /\
         attrs cfg !! "hamiltonian" = Some h
  else attrs cfg !! "hamiltonian" = Some VNone.
Proof.
  intros H. invert_Pulse__init__ H.
  rewrite (Qasm__init__frame _ _ _ _ _ H) by not_in_list.
  pose proof (set_whenM_attrs_eq _ _ _ _ _ Hham) as E.
  destruct (is_not_None (p !!! "hamiltonian")) eqn:Hnone.
  - destruct E as (h & Hh & E). exists h. split; [exact Hh|].
    pulse_attrs_simpl. exact E.
  - pulse_attrs_simpl. rewrite E.
    destruct (p !!! "hamiltonian"); try discriminate. apply walk_setattr_eq.
Qed.

(** ** There and back through [PulseBackendConfiguration]: the other fields *)

Lemma PulseBackendConfiguration_args (call : gmap string value) (cfg : Instance) :
  PulseBackendConfiguration call = Ok cfg ->
  exists p kwargs,
    Pulse__init__ new_instance p kwargs = Ok cfg /\
    (forall k, k ∈ Pulse_attributes -> kwargs !! k = None) /\
    (forall k, k ∈ Pulse_attributes -> p !!! k = default VNone (call !! k)).
Proof.
  unfold PulseBackendConfiguration. intros H.
  apply bind_Ok in H as ([p kwargs] & Hbind & H).
  exists p, kwargs. split; [exact H|]. split.
  - intros k Hk. apply (bind_keywords_kwargs_named _ _ _ _ _ _ _ Hbind Hk).
  - intros k Hk. rewrite lookup_total_alt.
    rewrite (bind_keywords_arg _ _ _ _ _ _ k Hbind) by exact Hk.
    destruct (call !! k) as [v|] eqn:Hc; [reflexivity|].
    pose proof (bind_keywords_inv _ _ _ _ _ _ Hbind) as (_ & _ & Hreq).
    rewrite Forall_forall in Hreq.
    unfold Pulse_attributes in Hk. apply elem_of_app in Hk as [Hk|Hk].
    + apply Hreq in Hk. rewrite Hc in Hk. destruct Hk as [? Hk]. discriminate.
    + rewrite (Pulse_optional_default _ Hk). reflexivity.
Qed.

(** X17: through [PulseBackendConfiguration.from_dict] and [to_dict],
    [meas_map], [acquisition_latency], [conditional_latency] and [channels]
    come back as they were, or not at all when they were [None] or absent;
    [rep_times] and [channel_bandwidth] come back as the float products of
    their two conversions; and a [channel_bandwidth] or a [hamiltonian]
    that was [None] or absent is left out. *)
Theorem Pulse_optional_fields_round_trip (data : gmap string value) (cfg : Instance)
    (out : gmap string value) :
  Pulse_from_dict data = Ok cfg ->
  Pulse_to_dict cfg = Ok out ->
  (forall k, k ∈ ["meas_map"; "acquisition_latency"; "conditional_latency"; "channels"] ->
     out !! k = match data !! k with
                | Some v => if is_not_None v then Some v else None
                | None => None
                end) /\
  (forall l, data !! "rep_times" = Some (floats l) ->
     out !! "rep_times" = Some (floats (there_and_back 1e-6 1e6 <$> l))) /\
  (forall l, data !! "channel_bandwidth" = Some (ranges l) ->
     out !! "channel_bandwidth" =
       Some (ranges (range_there_and_back 1e9 1e-9 <$> l))) /\
  (is_not_None (default VNone (data !! "channel_bandwidth")) = false ->
     out !! "channel_bandwidth" = None) /\
  (is_not_None (default VNone (data !! "hamiltonian")) = false ->
     out !! "hamiltonian" = None).
Proof.
  intros Hfrom Hout.
  destruct (Pulse_from_dict_inv _ _ Hfrom)
    as (call & gs & ds & us & cs & Hcall & _ & _ & _ & _ & Hsame).
  destruct (PulseBackendConfiguration_args _ _ Hcall) as (p & kwargs & Hinit & Hkw & Hp).
  pose proof (fun k H => Pulse__init__data_named cfg p kwargs k Hinit Hkw (or_introl H))
    as Hnamed.
  assert (Hch : _data cfg !! "channels" = None) by (apply Hnamed; not_in_list).
  assert (Harg : forall k, k ∈ Pulse_attributes -> k ≠ "gates" -> k ≠ "u_channel_lo" ->
            p !!! k = default VNone (data !! k)).
  { intros k Hk H1 H2. rewrite (Hp k Hk), (Hsame k H1 H2). reflexivity. }
  split; [|split; [|split; [|split]]].
  - intros k Hk.
    rewrite (Pulse_to_dict_optional_field _ _ k Hout Hch Hk).
    assert (Hk' : k ∈ Pulse_attributes /\ k ≠ "gates" /\ k ≠ "u_channel_lo").
    { repeat (apply elem_of_cons in Hk as [->|Hk];
                [split; [not_in_list | split; discriminate]|]).
      by apply elem_of_nil in Hk. }
    destruct Hk' as (Hk1 & Hk2 & Hk3).
    rewrite getattr_opt_attrs by (apply Hnamed; exact Hk1).
    rewrite (Pulse__init__optional _ _ _ k Hinit Hk).
    rewrite (Harg k Hk1 Hk2 Hk3).
    destruct (data !! k) as [v|]; reflexivity.
  - intros l Hl.
    destruct (Pulse_to_dict_rep_times _ _ Hout Hch) as (v & Hv & Hemit).
    destruct (Pulse__init__rep_times _ _ _ Hinit) as (w & Hw & Hattr).
    apply getattr_Ok_inv in Hv.
    rewrite getattr_opt_attrs in Hv by (apply Hnamed; not_in_list).
    rewrite Hattr in Hv. injection Hv as <-.
    rewrite (Harg "rep_times"), Hl in Hw by (not_in_list || discriminate).
    cbn [default from_option id] in Hw.
    rewrite scale_list_floats in Hw. injection Hw as <-.
    destruct l as [|x l]; [exact Hemit|].
    change (truthy (floats ((fun f => f * 1e-6) <$> x :: l))) with true in Hemit.
    destruct Hemit as (v' & Hv' & ->).
    rewrite scale_list_floats in Hv'. injection Hv' as <-.
    rewrite <- list_fmap_compose. reflexivity.
  - intros l Hl.
    pose proof (Pulse_to_dict_channel_bandwidth _ _ Hout Hch) as Hemit.
    pose proof (Pulse__init__bandwidth _ _ _ Hinit) as Hattr.
    rewrite (Harg "channel_bandwidth"), Hl in Hattr by (not_in_list || discriminate).
    cbn [default from_option id] in Hattr.
    change (is_not_None (ranges l)) with true in Hattr.
    destruct Hattr as (v & Hv & Hattr).
    rewrite scale_ranges_ranges in Hv. injection Hv as <-.
    rewrite getattr_opt_attrs, Hattr in Hemit by (apply Hnamed; not_in_list).
    destruct Hemit as (v' & Hv' & ->).
    rewrite scale_ranges_ranges in Hv'. injection Hv' as <-.
    rewrite <- list_fmap_compose. reflexivity.
  - intros Hnone.
    pose proof (Pulse_to_dict_channel_bandwidth _ _ Hout Hch) as Hemit.
    pose proof (Pulse__init__bandwidth _ _ _ Hinit) as Hattr.
    rewrite (Harg "channel_bandwidth"), Hnone in Hattr by (not_in_list || discriminate).
    rewrite getattr_opt_attrs, Hattr in Hemit by (apply Hnamed; not_in_list).
    exact Hemit.
  - intros Hnone.
    destruct (Pulse_to_dict_hamiltonian _ _ Hout Hch) as (h & Hh & Hemit);
      [apply Hnamed; not_in_list|].
    pose proof (Pulse__init__scaled_hamiltonian _ _ _ Hinit) as Hattr.
    rewrite (Harg "hamiltonian"), Hnone in Hattr by (not_in_list || discriminate).
    apply getattr_Ok_inv in Hh.
    rewrite getattr_opt_attrs, Hattr in Hh by (apply Hnamed; not_in_list).
    injection Hh as <-. exact Hemit.
Qed.

Lemma Pulse_optional_fields_round_trip_witness :
  exists cfg out, Pulse_from_dict example_wire_with_channels = Ok cfg /\
    Pulse_to_dict cfg = Ok out /\
    out !! "channels" = Some example_channels /\
    out !! "rep_times" = Some (VList [VFloat 1000]).
Proof.
  assert (Hok : is_Ok (round_trip example_wire_with_channels) = true)
    by (vm_compute; reflexivity).
  unfold round_trip in Hok.
  destruct (Pulse_from_dict example_wire_with_channels) as [cfg|e] eqn:E;
    [|discriminate Hok].
  cbn [mbind outcome_bind] in Hok.
  destruct (Pulse_to_dict cfg) as [out|e] eqn:Eout; [|discriminate Hok].
  exists cfg, out. split; [reflexivity|]. split; [exact Eout|].
  destruct (Pulse_optional_fields_round_trip _ _ _ E Eout) as (Hopt & Hrt & _).
  split.
  - rewrite (Hopt "channels") by in_list. vm_compute. reflexivity.
  - rewrite (Hrt [1000]) by (vm_compute; reflexivity). vm_compute. reflexivity.
Defined.

(** ** The hamiltonian *)

Lemma alist_set_set (k : string) (v v' : value) (d : list (string * value)) :
  alist_set k v' (alist_set k v d) = alist_set k v' d.
Proof.
  induction d as [|[k0 v0] d IH]; cbn [alist_set].
  - rewrite String.eqb_refl. reflexivity.
  - destruct (String.eqb k k0) eqn:E; cbn [alist_set].
    + rewrite String.eqb_refl. reflexivity.
    + rewrite E, IH. reflexivity.
Qed.

Lemma alist_set_nonempty (k : string) (v : value) (d : list (string * value)) :
  alist_set k v d ≠ [].
Proof. destruct d as [|[k0 v0] d]; cbn [alist_set]; [|destruct (String.eqb k k0)]; discriminate. Qed.

Lemma scale_vars_twice (c c' : float) (d d1 : list (string * value)) :
  scale_vars c (VDict d) = Ok (VDict d1) ->
  exists d2, scale_vars c' (VDict d1) = Ok (VDict d2) /\
    Forall2 (fun kv kv' : string * value =>
               kv'.1 = kv.1 /\ scaled_var c c' kv.2 = Ok kv'.2) d d2.
Proof.
  unfold scale_vars. intros H. apply bind_Ok in H as (d' & Hd' & [= <-]).
  revert d' Hd'. induction d as [|[k v] d IH]; intros d'.
  - intros [= <-]. exists []. split; [reflexivity | constructor].
  - intros H. apply mapM_cons_Ok in H as (y & r & Hy & Hr & ->).
    destruct (IH _ Hr) as (d2 & Hd2 & Hall).
    apply bind_Ok in Hd2 as (r2 & Hr2 & [= <-]).
    cbn [fst snd] in Hy. cbn [mapM].
    destruct (is_number v) eqn:Hnum.
    + apply bind_Ok in Hy as (v' & Hv' & [= <-]).
      unfold py_mul in Hv'. apply bind_Ok in Hv' as (f & Hf & [= <-]).
      cbn [fst snd is_number py_mul as_float mbind outcome_bind mret outcome_ret].
      rewrite Hr2. cbn [mbind outcome_bind mret outcome_ret].
      eexists. split; [reflexivity|]. constructor; [|exact Hall].
      split; [reflexivity|]. cbn [fst snd]. unfold scaled_var. rewrite Hnum, Hf.
      reflexivity.
    + injection Hy as <-. cbn [fst snd]. rewrite Hnum.
      cbn [mbind outcome_bind mret outcome_ret].
      rewrite Hr2. cbn [mbind outcome_bind mret outcome_ret].
      eexists. split; [reflexivity|]. constructor; [|exact Hall].
      split; [reflexivity|]. cbn [fst snd]. unfold scaled_var. rewrite Hnum.
      reflexivity.
Qed.

(** X18: a hamiltonian given with a dictionary of [vars] comes back from
    [to_dict] with every other entry as it was and with [vars] holding the
    same names in the same order, a number [x] (an [int] or [bool] too) as
    the float [(x * 1e9) * 1e-9] and any other value untouched. *)
Theorem hamiltonian_round_trip (data : gmap string value) (cfg : Instance)
    (out : gmap string value) (h vars : list (string * value)) :
  Pulse_from_dict data = Ok cfg ->
  Pulse_to_dict cfg = Ok out ->
  data !! "hamiltonian" = Some (VDict h) ->
  alist_lookup "vars" h = Some (VDict vars) ->
  exists vars',
    out !! "hamiltonian" = Some (VDict (alist_set "vars" (VDict vars') h)) /\
    Forall2 (fun kv kv' : string * value =>
               kv'.1 = kv.1 /\ scaled_var 1e9 1e-9 kv.2 = Ok kv'.2) vars vars'.
Proof.
  intros Hfrom Hout Hh Hvars.
  destruct (Pulse_from_dict_inv _ _ Hfrom)
    as (call & gs & ds & us & cs & Hcall & _ & _ & _ & _ & Hsame).
  destruct (PulseBackendConfiguration_args _ _ Hcall) as (p & kwargs & Hinit & Hkw & Hp).
  pose proof (fun k H => Pulse__init__data_named cfg p kwargs k Hinit Hkw (or_introl H))
    as Hnamed.
  assert (Hch : _data cfg !! "channels" = None) by (apply Hnamed; not_in_list).
  destruct (Pulse_to_dict_hamiltonian _ _ Hout Hch) as (h1 & Hh1 & Hemit);
    [apply Hnamed; not_in_list|].
  pose proof (Pulse__init__scaled_hamiltonian _ _ _ Hinit) as Hattr.
  rewrite (Hp "hamiltonian"), (Hsame "hamiltonian"), Hh in Hattr
    by (not_in_list || discriminate).
  cbn [default from_option id is_not_None] in Hattr.
  destruct Hattr as (h1' & Hscale & Hattr).
  apply getattr_Ok_inv in Hh1.
  rewrite getattr_opt_attrs, Hattr in Hh1 by (apply Hnamed; not_in_list).
  injection Hh1 as <-.
  unfold scale_hamiltonian, py_getitem in Hscale. rewrite Hvars in Hscale.
  cbn [mbind outcome_bind] in Hscale.
  apply bind_Ok in Hscale as (vars1 & Hvars1 & [= <-]).
  destruct (scale_vars_Ok _ _ _ Hvars1) as (d1 & -> & _).
  destruct (scale_vars_twice _ 1e-9 _ _ Hvars1) as (d2 & Hd2 & Hall).
  exists d2. split; [|exact Hall].
  assert (Htruthy : truthy (VDict (alist_set "vars" (VDict d1) h)) = true).
  { cbn [truthy]. rewrite bool_decide_eq_false_2 by apply alist_set_nonempty.
    reflexivity. }
  rewrite Htruthy in Hemit. destruct Hemit as (h' & Hh' & ->).
  unfold scale_hamiltonian, py_getitem in Hh'. rewrite alist_lookup_set in Hh'.
  cbn [mbind outcome_bind] in Hh'. rewrite Hd2 in Hh'.
  cbn [mbind outcome_bind] in Hh'. injection Hh' as <-.
  rewrite alist_set_set. reflexivity.
Qed.

Lemma hamiltonian_round_trip_witness :
  exists cfg out vars',
    Pulse_from_dict example_wire_with_hamiltonian = Ok cfg /\
    Pulse_to_dict cfg = Ok out /\
    out !! "hamiltonian" =
      Some (VDict (alist_set "vars" (VDict vars') example_hamiltonian)) /\
    Forall2 (fun kv kv' : string * value =>
               kv'.1 = kv.1 /\ scaled_var 1e9 1e-9 kv.2 = Ok kv'.2)
      [("wq0", VFloat 5); ("label", VStr "q0"); ("delta", VInt 2)] vars'.
Proof.
  assert (Hok : is_Ok (round_trip example_wire_with_hamiltonian) = true)
    by (vm_compute; reflexivity).
  unfold round_trip in Hok.
  destruct (Pulse_from_dict example_wire_with_hamiltonian) as [cfg|e] eqn:E;
    [|discriminate Hok].
  cbn [mbind outcome_bind] in Hok.
  destruct (Pulse_to_dict cfg) as [out|e] eqn:Eout; [|discriminate Hok].
  destruct (hamiltonian_round_trip _ _ _ example_hamiltonian
              [("wq0", VFloat 5); ("label", VStr "q0"); ("delta", VInt 2)] E Eout)
    as (vars' & Hh & Hall); [vm_compute; reflexivity | reflexivity |].
  exists cfg, out, vars'. auto.
Defined.

End PulseFieldFacts.

(** * Properties of the REST adapters *)

Module RestAdapterFacts.
Import BackendConfig BackendConfigFacts RestAdapter.

Lemma alist_lookup_set_ne (k k' : string) (v : value) (d : list (string * value)) :
  k ≠ k' -> alist_lookup k' (alist_set k v d) = alist_lookup k' d.
Proof.
  intros Hne. induction d as [|[k0 v0] d IH]; simpl.
  - destruct (String.eqb_spec k' k); [congruence | reflexivity].
  - destruct (String.eqb_spec k k0) as [->|Hk]; simpl.
    + destruct (String.eqb_spec k' k0); [congruence | reflexivity].
    + destruct (String.eqb_spec k' k0); [reflexivity | exact IH].
Qed.

Lemma alist_lookup_set_any (k k' : string) (v : value) (d : list (string * value)) :
  alist_lookup k' (alist_set k v d) =
    if String.eqb k' k then Some v else alist_lookup k' d.
Proof.
  destruct (String.eqb_spec k' k) as [->|Hne].
  - apply alist_lookup_set.
  - apply alist_lookup_set_ne. congruence.
Qed.

Lemma alist_lookup_put_when (c : bool) (k k' : string) (v : value)
    (d : list (string * value)) :
  alist_lookup k' (put_when c k v d) =
    if c && String.eqb k' k then Some v else alist_lookup k' d.
Proof. destruct c; [apply alist_lookup_set_any | reflexivity]. Qed.

(** What a request sent by [program_run] holds. *)
Lemma program_run_lookup (a : ProgramRun) (k : string) :
  alist_lookup k (body (program_run a)) =
    if truthy (private a) && String.eqb k "private" then Some (VBool true)
    else if truthy (start_session a) && String.eqb k "session_time"
    then Some (session_time a)
    else if truthy (start_session a) && String.eqb k "start_session"
    then Some (start_session a)
    else if truthy (max_execution_time a) && String.eqb k "cost"
    then Some (max_execution_time a)
    else if truthy (job_tags a) && String.eqb k "tags" then Some (job_tags a)
    else if truthy (session_id a) && String.eqb k "session_id"
    then Some (session_id a)
    else if truthy (backend_name a) && String.eqb k "backend"
    then Some (backend_name a)
    else if truthy (log_level a) && String.eqb k "log_level"
    then Some (log_level a)
    else if truthy (image a) && String.eqb k "runtime" then Some (image a)
    else if String.eqb k "program_id" then Some (program_id a)
    else if String.eqb k "params" then Some (params a)
    else None.
Proof.
  unfold program_run. cbn [body]. rewrite alist_lookup_put_when.
  destruct (truthy (start_session a)); cbn [andb];
    rewrite ?alist_lookup_set_any, !alist_lookup_put_when; reflexivity.
Qed.

Ltac case_key k s :=
  let E := fresh "E" in
  destruct (String.eqb_spec k s) as [E|E];
  [ subst k; cbn [andb String.eqb Ascii.eqb Bool.eqb] | rewrite ?andb_false_r ].

(** X19: the job request of [program_run] always carries the program id and
    the parameters as given; apart from these and [session_time] it never
    carries a falsy value (an argument that is [None], empty, zero or
    [False] is left out); [session_time] is sent exactly when
    [start_session] is, whatever it is; and [private] is only ever sent as
    [True]. *)
Theorem program_run_payload (a : ProgramRun) :
  let payload := body (program_run a) in
  alist_lookup "program_id" payload = Some (program_id a) /\
  alist_lookup "params" payload = Some (params a) /\
  (forall k v, alist_lookup k payload = Some v ->
     k ∉ ["program_id"; "params"; "session_time"] -> truthy v = true) /\
  (is_Some (alist_lookup "session_time" payload) <->
   is_Some (alist_lookup "start_session" payload)) /\
  (is_Some (alist_lookup "session_time" payload) ->
   alist_lookup "session_time" payload = Some (session_time a)) /\
  (forall v, alist_lookup "private" payload = Some v -> v = VBool true) /\
  (forall k, is_Some (alist_lookup k payload) ->
     k ∈ ["program_id"; "params"; "runtime"; "log_level"; "backend";
          "session_id"; "tags"; "cost"; "start_session"; "session_time";
          "private"]).
Proof.
  cbv zeta. split; [|split; [|split; [|split; [|split; [|split]]]]].
  - rewrite program_run_lookup. cbn. rewrite !andb_false_r. reflexivity.
  - rewrite program_run_lookup. cbn. rewrite !andb_false_r. reflexivity.
  - intros k v. rewrite program_run_lookup. intros H Hk.
    apply not_elem_of_cons in Hk as [H1 Hk].
    apply not_elem_of_cons in Hk as [H2 Hk].
    apply not_elem_of_cons in Hk as [H3 _].
    revert H.
    destruct (String.eqb_spec k "session_time"); [contradiction|].
    destruct (String.eqb_spec k "program_id"); [contradiction|].
    destruct (String.eqb_spec k "params"); [contradiction|].
    rewrite !andb_false_r.
    repeat match goal with
    | |- context [?c && String.eqb k ?s] =>
        destruct (String.eqb_spec k s);
        [ subst k; destruct c eqn:T; cbn; rewrite ?andb_false_r; intros H;
          first [ discriminate H
                | injection H as <-; first [assumption | reflexivity] ]
        | rewrite andb_false_r ]
    end.
    discriminate.
  - rewrite !program_run_lookup. cbn. rewrite !andb_false_r, !andb_true_r.
    destruct (truthy (start_session a)); cbn; split; intros [? H];
      first [discriminate | eexists; reflexivity].
  - rewrite !program_run_lookup. cbn. rewrite !andb_false_r, !andb_true_r.
    destruct (truthy (start_session a)); [reflexivity|]. intros [? H]. discriminate.
  - intros v. rewrite program_run_lookup. cbn. rewrite !andb_false_r, !andb_true_r.
    destruct (truthy (private a)); [congruence | discriminate].
  - intros k. rewrite program_run_lookup.
    repeat match goal with
    | |- context [_ && String.eqb k ?s] =>
        destruct (String.eqb_spec k s);
        [subst k; intros _; in_list | rewrite andb_false_r]
    | |- context [if String.eqb k ?s then _ else _] =>
        destruct (String.eqb_spec k s); [subst k; intros _; in_list|]
    end.
    intros [? H]. discriminate.
Qed.

(** What a request sent by [jobs_get] holds. *)
Lemma jobs_get_lookup (iso : value -> string) (a : JobsGet) (k : string) :
  alist_lookup k (body (jobs_get iso a)) =
    if is_False (descending a) && String.eqb k "sort" then Some (VStr "ASC")
    else if truthy (created_before a) && String.eqb k "created_before"
    then Some (VStr (iso (created_before a)))
    else if truthy (created_after a) && String.eqb k "created_after"
    then Some (VStr (iso (created_after a)))
    else if truthy (jg_session_id a) && String.eqb k "session_id"
    then Some (jg_session_id a)
    else if truthy (jg_job_tags a) && String.eqb k "tags" then Some (jg_job_tags a)
    else if truthy (jg_program_id a) && String.eqb k "program"
    then Some (jg_program_id a)
    else if is_not_None (pending a) && String.eqb k "pending"
    then Some (VStr (if truthy (pending a) then "true" else "false"))
    else if truthy (jg_backend_name a) && String.eqb k "backend"
    then Some (jg_backend_name a)
    else if truthy (skip a) && String.eqb k "offset" then Some (skip a)
    else if truthy (limit a) && String.eqb k "limit" then Some (limit a)
    else if String.eqb k "exclude_params" then Some (VBool false)
    else None.
Proof.
  unfold jobs_get. cbn [body]. rewrite !alist_lookup_put_when. reflexivity.
Qed.

(** X20: the query of [jobs_get] always has [exclude_params = False]; a
    [pending] argument other than [None] is sent as the string "true" or
    "false" (so [pending=False] is sent, as "false"), while a [limit] or
    [skip] of 0 is left out like [None]; [skip] travels as [offset]; and
    [sort] is sent, as "ASC", exactly when [descending] is [False]
    itself. *)
Theorem jobs_get_query (iso : value -> string) (a : JobsGet) :
  let query := body (jobs_get iso a) in
  alist_lookup "exclude_params" query = Some (VBool false) /\
  alist_lookup "pending" query =
    (if is_not_None (pending a)
     then Some (VStr (if truthy (pending a) then "true" else "false"))
     else None) /\
  (pending a = VBool false -> alist_lookup "pending" query = Some (VStr "false")) /\
  (forall k v, k ∈ ["limit"; "offset"; "backend"; "program"; "tags"; "session_id"] ->
     alist_lookup k query = Some v -> truthy v = true) /\
  (limit a = VInt 0 -> alist_lookup "limit" query = None) /\
  alist_lookup "skip" query = None /\
  alist_lookup "offset" query = (if truthy (skip a) then Some (skip a) else None) /\
  alist_lookup "sort" query =
    (if is_False (descending a) then Some (VStr "ASC") else None) /\
  (descending a ≠ VBool false -> alist_lookup "sort" query = None).
Proof.
  cbv zeta. rewrite !jobs_get_lookup. cbn [String.eqb Ascii.eqb Bool.eqb].
  rewrite !andb_false_r, !andb_true_r.
  split; [reflexivity|]. split; [reflexivity|].
  split; [intros ->; reflexivity|].
  split.
  { intros k v Hk. rewrite jobs_get_lookup.
    repeat (apply elem_of_cons in Hk as [->|Hk];
      [ cbn [String.eqb Ascii.eqb Bool.eqb]; rewrite !andb_false_r, ?andb_true_r;
        match goal with
        | |- (if truthy ?x then _ else _) = _ -> _ =>
            destruct (truthy x) eqn:T; [intros [= <-]; exact T | discriminate]
        end |]).
    by apply elem_of_nil in Hk. }
  split; [intros ->; reflexivity|].
  split; [reflexivity|]. split; [reflexivity|]. split; [reflexivity|].
  intros Hd. destruct (descending a) as [|[]| | | | | |]; try reflexivity.
  contradiction.
Qed.

(** X21: when [version] returns, it returns a dictionary with the key
    [new_api], which is [True] exactly when the body of the reply was
    JSON; for a JSON object every other key of the body is kept and what
    the server said under [new_api] is overwritten; for a body that is no
    JSON the result is [new_api = False] with the text of the reply.  A
    JSON body that is no object makes it raise [TypeError]. *)
Theorem version_new_api (json : option value) (text : string) :
  (forall r, version json text = Ok r ->
     exists d, r = VDict d /\
       alist_lookup "new_api" d = Some (VBool (bool_decide (is_Some json))) /\
       (forall info k, json = Some (VDict info) -> k ≠ "new_api" ->
          alist_lookup k d = alist_lookup k info) /\
       (json = None -> d = [("new_api", VBool false); ("api", VStr text)])) /\
  (forall v, json = Some v -> (forall d, v ≠ VDict d) ->
     exists msg, version json text = Raise (TypeError msg)).
Proof.
  split.
  - intros r. destruct json as [[]|]; try discriminate; intros [= <-]; eexists;
      (split; [reflexivity|]); (split; [|split]).
    + rewrite alist_lookup_set. reflexivity.
    + intros info k [= <-] Hk. apply alist_lookup_set_ne. congruence.
    + discriminate.
    + reflexivity.
    + discriminate.
    + reflexivity.
  - intros v -> Hv. destruct v; try (eexists; reflexivity).
    exfalso. eapply Hv. reflexivity.
Qed.

Lemma version_new_api_witness :
  version (Some (VDict [("new_api", VBool false); ("api-auth", VStr "0.1")])) "" =
    Ok (VDict [("new_api", VBool true); ("api-auth", VStr "0.1")]) /\
  (exists msg, version (Some (VList [])) "" = Raise (TypeError msg)).
Proof.
  split; [reflexivity|].
  apply (proj2 (version_new_api (Some (VList [])) "") (VList []) eq_refl).
  discriminate.
Defined.

End RestAdapterFacts.
